(** * huggingface-services: the model-service contract, the in-process
      Pub/Sub client and the model registry, embedded from the Python sources

    - [src/model_services/schemas.py]  the pydantic schemas
    - [src/model_services/base.py]     [ModelService] and its [predict]
    - [src/pubsub.py]                  [PubSubClient]
    - [src/model_registry.py]          [ModelRegistry]

    Python dictionaries that are only read by key are finite maps ([gmap]);
    dictionaries that the code iterates over, and JSON objects, are
    insertion-ordered association lists ([pydict]).  Exceptions are values of
    [exn]; a call that can raise returns a [result]; code that touches the
    broker runs in the monad [M], which threads the [PubSubClient]. *)

From Stdlib Require Import Lia.
From stdpp Require Import base strings gmap list.

#[local] Set Warnings "-clear-no-such-hyp".

Open Scope string_scope.
Open Scope list_scope.

(** ** Python values *)

(** What [json.dumps] accepts: the messages and responses of the system. *)
#[local] Set Warnings "-register-all".
Inductive json :=
| JNull
| JBool (b : bool)
| JInt (z : Z)
| JStr (s : string)
| JList (l : list json)
| JDict (d : list (string * json)).

(** An insertion-ordered Python [dict] with string keys. *)
Module PyDict.

Definition t (V : Type) : Type := list (string * V).

Definition empty {V} : t V := [].

(** [d.get(k)]: the value under [k], if any. *)
Fixpoint get {V} (k : string) (d : t V) : option V :=
  match d with
  | [] => None
  | (k', v) :: rest => if decide (k = k') then Some v else get k rest
  end.

(** [d[k] = v]: an existing key keeps its position, a new key goes last. *)
Fixpoint set {V} (k : string) (v : V) (d : t V) : t V :=
  match d with
  | [] => [(k, v)]
  | (k', v') :: rest =>
      if decide (k = k') then (k', v) :: rest else (k', v') :: set k v rest
  end.

Definition keys {V} (d : t V) : list string := map fst d.
Definition values {V} (d : t V) : list V := map snd d.
Definition items {V} (d : t V) : list (string * V) := d.

End PyDict.

Abbreviation pydict := PyDict.t.

(** A Python [str] is a sequence of code points. It is held here as its UTF-8
    encoding, one [ascii] per byte; [len] and the slices of Python count code
    points, so they are written over the encoding: a byte [10xxxxxx] continues
    the code point that the last leading byte began. *)
Module PyStr.

Definition is_continuation (c : Ascii.ascii) : bool :=
  match c with Ascii.Ascii _ _ _ _ _ _ b6 b7 => b7 && negb b6 end.

(** [len(s)] *)
Fixpoint len (s : string) : nat :=
  match s with
  | EmptyString => 0
  | String c rest => if is_continuation c then len rest else S (len rest)
  end.

(** [s[:n]]: the first [n] code points of [s] *)
Fixpoint take (n : nat) (s : string) : string :=
  match s with
  | EmptyString => EmptyString
  | String c rest =>
      if is_continuation c then String c (take n rest)
      else match n with
           | 0 => EmptyString
           | S n' => String c (take n' rest)
           end
  end.

End PyStr.

(** A message or a response: a Python [dict] of JSON values. *)
Abbreviation message := (pydict json).

(** ** Exceptions *)

(** One entry of a pydantic [ValidationError]: the kind of error. *)
Inductive error_type := missing | invalid.

Inductive exn :=
| ValidationError (title : string) (errors : list (string * error_type))
| ValueError (msg : string)
| KeyError (key : string)
| OtherError (type_name msg : string).   (* any other exception class *)

Inductive result (A : Type) :=
| Ok (a : A)
| Raise (e : exn).
Arguments Ok {A} a.
Arguments Raise {A} e.

Definition is_ok {A} (r : result A) : bool :=
  match r with Ok _ => true | Raise _ => false end.

Definition result_bind {A B} (r : result A) (k : A → result B) : result B :=
  match r with Ok a => k a | Raise e => Raise e end.

Notation "'let?' x ':=' r 'in' k" := (result_bind r (λ x, k))
  (at level 10, x name, r at level 100, k at level 200, only parsing).

(** A list comprehension whose element expression can raise. *)
Fixpoint result_map {A B} (f : A → result B) (l : list A) : result (list B) :=
  match l with
  | [] => Ok []
  | x :: rest =>
      let? y := f x in
      let? ys := result_map f rest in
      Ok (y :: ys)
  end.

(** ** pydantic models (as used by [schemas.py]) *)

(** The validator of a field's annotation: the validated value, or [None]
    when the value is not of the annotated type. *)
Definition validator := json → option json.

Record FieldInfo := {
  field_name : string;
  field_default : option json;   (* [None]: the field is required *)
  field_type : validator
}.

(** A [pydantic.BaseModel] subclass. *)
Record BaseModelClass := {
  class_name : string;
  model_fields : list FieldInfo
}.

(** An instance of a [pydantic.BaseModel] subclass; nested models are kept
    in dumped form. *)
Record BaseModel := {
  model_class : string;
  model_data : message
}.

(** [instance.model_dump()] *)
Definition model_dump (instance : BaseModel) : message := model_data instance.

(** Validation of the declared fields, in declaration order, against the
    keyword arguments [data]: the validated fields and every error found.
    Keys of [data] that are not declared are ignored (pydantic's default). *)
Fixpoint validate_fields (fields : list FieldInfo) (data : message)
  : message * list (string * error_type) :=
  match fields with
  | [] => ([], [])
  | f :: rest =>
      let '(vals, errs) := validate_fields rest data in
      match PyDict.get (field_name f) data with
      | Some v =>
          match field_type f v with
          | Some v' => ((field_name f, v') :: vals, errs)
          | None => (vals, (field_name f, invalid) :: errs)
          end
      | None =>
          match field_default f with
          | Some v => ((field_name f, v) :: vals, errs)
          | None => (vals, (field_name f, missing) :: errs)
          end
      end
  end.

(** The constructor call of [cls] on the keyword arguments [data]. *)
Definition model_validate (cls : BaseModelClass) (data : message) : result BaseModel :=
  let '(vals, errs) := validate_fields (model_fields cls) data in
  match errs with
  | [] => Ok {| model_class := class_name cls; model_data := vals |}
  | _ :: _ => Raise (ValidationError (class_name cls) errs)
  end.

(** A raw input conforms to a shape when the shape's validation accepts it. *)
Definition conforms (cls : BaseModelClass) (data : message) : bool :=
  is_ok (model_validate cls data).

(** Validators of the annotations that occur in [schemas.py]. *)
Definition v_str : validator :=
  λ j, match j with JStr s => Some (JStr s) | _ => None end.

(** [Literal[True]] and [Literal[False]]: the input is looked up among the
    expected values by equality, and Python has [1 == True] and [0 == False],
    so the integer is accepted as well; the validated value is the literal
    itself, a bool. *)
Definition v_literal (b : bool) : validator :=
  λ j, match j with
       | JBool b' => if decide (b = b') then Some (JBool b) else None
       | JInt z => if decide (z = if b then 1 else 0)%Z then Some (JBool b) else None
       | _ => None
       end.

Definition v_list (v : validator) : validator :=
  λ j, match j with
       | JList l => JList <$> mapM v l
       | _ => None
       end.

Definition v_model (cls : BaseModelClass) : validator :=
  λ j, match j with
       | JDict d =>
           match validate_fields (model_fields cls) d with
           | (vals, []) => Some (JDict vals)
           | _ => None
           end
       | _ => None
       end.

(** [A | B] where the members are told apart by a literal tag. *)
Definition v_union (a b : validator) : validator :=
  λ j, match a j with Some r => Some r | None => b j end.

Definition required (name : string) (ty : validator) : FieldInfo :=
  {| field_name := name; field_default := None; field_type := ty |}.

Definition with_default (name : string) (d : json) (ty : validator) : FieldInfo :=
  {| field_name := name; field_default := Some d; field_type := ty |}.

(** [class name(parent): extra] *)
Definition subclass (name : string) (parent : BaseModelClass) (extra : list FieldInfo)
  : BaseModelClass :=
  {| class_name := name; model_fields := model_fields parent ++ extra |}.

(** *** [schemas.py] *)
Module schemas.

Definition Entity : BaseModelClass :=
  {| class_name := "Entity";
     model_fields := [required "text" v_str; required "label" v_str] |}.

Definition WikipediaEntityFound : BaseModelClass :=
  {| class_name := "WikipediaEntityFound";
     model_fields := [required "text" v_str;
                      required "wikipedia_entries_found" (v_literal true);
                      required "title" v_str;
                      required "url" v_str;
                      required "content" v_str] |}.

Definition SummarizedWikipediaEntity : BaseModelClass :=
  subclass "SummarizedWikipediaEntity" WikipediaEntityFound
           [required "summary" v_str].

Definition WikipediaEntityNotFound : BaseModelClass :=
  {| class_name := "WikipediaEntityNotFound";
     model_fields := [required "text" v_str;
                      required "wikipedia_entries_found" (v_literal false)] |}.

Definition WikipediaEntity : validator :=
  v_union (v_model WikipediaEntityFound) (v_model WikipediaEntityNotFound).

Section WithUuid.
(** The string that [str(uuid.uuid4())] produces when the default
    factory of [id] runs. *)
Variable uuid4 : string.

Definition EntityRecognitionInputSchema : BaseModelClass :=
  {| class_name := "EntityRecognitionInputSchema";
     model_fields := [with_default "id" (JStr uuid4) v_str;
                      required "text" v_str] |}.

Definition EntityRecognitionResultSchema : BaseModelClass :=
  {| class_name := "EntityRecognitionResultSchema";
     model_fields := [with_default "id" (JStr uuid4) v_str;
                      required "text" v_str;
                      required "entities" (v_list (v_model Entity))] |}.

Definition EntityLinkingInputSchema : BaseModelClass :=
  subclass "EntityLinkingInputSchema" EntityRecognitionResultSchema [].
End WithUuid.

Definition EntityLinkingResultSchema : BaseModelClass :=
  {| class_name := "EntityLinkingResultSchema";
     model_fields := [required "id" v_str;
                      required "text" v_str;
                      required "linked_entities" (v_list WikipediaEntity)] |}.

Definition EntitySummarizationInputSchema : BaseModelClass :=
  subclass "EntitySummarizationInputSchema" EntityLinkingResultSchema [].

Definition EntitySummarizationResultSchema : BaseModelClass :=
  {| class_name := "EntitySummarizationResultSchema";
     model_fields :=
       [required "id" v_str;
        required "text" v_str;
        required "summarized_entities"
          (v_list (v_union (v_model SummarizedWikipediaEntity)
                           (v_model WikipediaEntityNotFound)))] |}.

End schemas.

(** ** [base.py]: the model-service contract *)

(** A concrete subclass of [ModelService]: the name it hands to
    [super().__init__] and the bodies of the three abstract methods. *)
Record ModelServiceClass := {
  cls_NAME : string;
  cls_get_input_schema : BaseModelClass;
  cls_get_output_schema : BaseModelClass;
  cls_predict : BaseModel → result BaseModel
}.

(** An instance: the attributes that [ModelService.__init__] sets.  The
    [_pubsub_client] attribute is never read by the code and is left out. *)
Record ModelService := {
  _model_name : string;
  _trigger_topic : string;
  service_class : ModelServiceClass
}.

(** [ModelService.__init__(self, model_name, pubsub_client)], called by the
    subclass's [__init__] with its [_NAME].  What else a subclass's
    [__init__] does (the NER service loads its pipeline there and may raise,
    the summarization service resets its summarizer) is not part of this: an
    instance here is one whose constructor has returned, and the properties
    of a constructed registry are stated for a construction that returned. *)
Definition new_service (cls : ModelServiceClass) : ModelService :=
  {| _model_name := cls_NAME cls;
     _trigger_topic := cls_NAME cls +:+ "-trigger";
     service_class := cls |}.

Definition name (self : ModelService) : string := _model_name self.
Definition trigger_topic (self : ModelService) : string := _trigger_topic self.
Definition get_input_schema (self : ModelService) : BaseModelClass :=
  cls_get_input_schema (service_class self).
Definition get_output_schema (self : ModelService) : BaseModelClass :=
  cls_get_output_schema (service_class self).
Definition _predict (self : ModelService) : BaseModel → result BaseModel :=
  cls_predict (service_class self).

(** [ModelService.predict] (the [logging.info] calls are not modelled). *)
Definition predict (self : ModelService) (model_input : message) : result message :=
  let? schematized_input := model_validate (get_input_schema self) model_input in
  let? schematized_output := _predict self schematized_input in
  let raw_output := model_dump schematized_output in
  Ok raw_output.

(** ** The three services of the repository

    The calls into [transformers] and [wikipedia] are parameters. *)
Module services.
Import schemas.

(** [obj.attr] on a model instance *)
Definition getattr (obj : message) (attr : string) : result json :=
  match PyDict.get attr obj with
  | Some v => Ok v
  | None => Raise (OtherError "AttributeError" attr)
  end.

Definition as_str (j : json) : result string :=
  match j with JStr s => Ok s | _ => Raise (OtherError "TypeError" "str") end.

Definition as_list (j : json) : result (list json) :=
  match j with JList l => Ok l | _ => Raise (OtherError "TypeError" "list") end.

Definition as_dict (j : json) : result message :=
  match j with JDict d => Ok d | _ => Raise (OtherError "TypeError" "BaseModel") end.

(** A model instance as the value of a field of another model. *)
Definition instance_value (instance : BaseModel) : json := JDict (model_data instance).

(** What [wikipedia.page(title, auto_suggest=False)] and the reading of the
    page's attributes do. *)
Inductive wikipedia_outcome :=
| WikipediaPage (title url content : string)
| DisambiguationError (options : list string)
| PageError
| WikipediaException (e : exn).

Section External.

Variable uuid4 : string.
(** The NER pipeline on a text: the [word] and [entity_group] of each result. *)
Variable ner_pipeline : string → result (list (string * string)).
Variable wikipedia_page : string → wikipedia_outcome.
(** [_load_model] and [_summarize_text] of the summarization service. *)
Variable load_model : result unit.
Variable summarize_text : string → result string.

(** *** [entity_recognition.py] *)

Definition EntityRecognition_predict (model_input : BaseModel) : result BaseModel :=
  let? text := getattr (model_data model_input) "text" in
  let? text_s := as_str text in
  let? ner_results := ner_pipeline text_s in
  let? entities :=
    result_map (λ r : string * string,
                  model_validate Entity [("text", JStr r.1); ("label", JStr r.2)])
               ner_results in
  let? id := getattr (model_data model_input) "id" in
  model_validate (EntityRecognitionResultSchema uuid4)
    [("id", id); ("entities", JList (map instance_value entities)); ("text", text)].

Definition EntityRecognitionModelService : ModelServiceClass :=
  {| cls_NAME := "entity-recognition";
     cls_get_input_schema := EntityRecognitionInputSchema uuid4;
     cls_get_output_schema := EntityRecognitionResultSchema uuid4;
     cls_predict := EntityRecognition_predict |}.

(** *** [entity_linking.py] *)

Definition MAX_CONTENT_LENGTH : nat := 1024.

(** [entry] after [entry.update({...})] with the attributes of a page *)
Definition found_entry (text : json) (title url content : string) : message :=
  [("text", text);
   ("wikipedia_entries_found", JBool true);
   ("title", JStr title);
   ("url", JStr url);
   ("content", JStr (PyStr.take MAX_CONTENT_LENGTH content +:+ "..."))].

Definition not_found_entry (text : json) : message :=
  [("text", text); ("wikipedia_entries_found", JBool false)].

(** Body of the loop over [model_input.entities]. *)
Definition link_entity (entity : json) : result json :=
  let? fields := as_dict entity in
  let? text := getattr fields "text" in
  let? text_s := as_str text in
  let? entry :=
    match wikipedia_page text_s with
    | WikipediaPage title url content => Ok (found_entry text title url content)
    | DisambiguationError options =>
        match options with
        | [] => Raise (OtherError "IndexError" "list index out of range")
        | first_option :: _ =>
            match wikipedia_page first_option with
            | WikipediaPage title url content => Ok (found_entry text title url content)
            | DisambiguationError _ => Raise (OtherError "DisambiguationError" first_option)
            | PageError => Raise (OtherError "PageError" first_option)
            | WikipediaException e => Raise e
            end
        end
    | PageError => Ok (not_found_entry text)
    | WikipediaException _ => Ok (not_found_entry text)
    end in
  match WikipediaEntity (JDict entry) with
  | Some validated => Ok validated
  | None => Raise (ValidationError "WikipediaEntity" [("", invalid)])
  end.

Definition EntityLinking_predict (model_input : BaseModel) : result BaseModel :=
  let? entities := getattr (model_data model_input) "entities" in
  let? entities_l := as_list entities in
  let? linked_entities := result_map link_entity entities_l in
  let? id := getattr (model_data model_input) "id" in
  let? text := getattr (model_data model_input) "text" in
  model_validate EntityLinkingResultSchema
    [("id", id); ("linked_entities", JList linked_entities); ("text", text)].

Definition EntityLinkingModelService : ModelServiceClass :=
  {| cls_NAME := "entity-linking";
     cls_get_input_schema := EntityLinkingInputSchema uuid4;
     cls_get_output_schema := EntityLinkingResultSchema;
     cls_predict := EntityLinking_predict |}.

(** *** [summarization.py] *)

(** Body of the loop over [model_input.linked_entities]. *)
Definition summarize_entity (entity : json) : result json :=
  let? fields := as_dict entity in
  let? found := getattr fields "wikipedia_entries_found" in
  match found with
  | JBool true =>
      let entity_dict := fields in
      let? content := getattr fields "content" in
      let? content_s := as_str content in
      let? summary := summarize_text content_s in
      let entity_dict := PyDict.set "summary" (JStr summary) entity_dict in
      let? summarized := model_validate SummarizedWikipediaEntity entity_dict in
      Ok (instance_value summarized)
  | _ => Ok entity
  end.

Definition EntitySummarization_predict (model_input : BaseModel) : result BaseModel :=
  let? _ := load_model in
  let? linked_entities := getattr (model_data model_input) "linked_entities" in
  let? linked_entities_l := as_list linked_entities in
  let? summarized_entities := result_map summarize_entity linked_entities_l in
  let? id := getattr (model_data model_input) "id" in
  let? text := getattr (model_data model_input) "text" in
  model_validate EntitySummarizationResultSchema
    [("id", id); ("text", text); ("summarized_entities", JList summarized_entities)].

Definition EntitySummarizationModelService : ModelServiceClass :=
  {| cls_NAME := "entity-summarization";
     cls_get_input_schema := EntitySummarizationInputSchema;
     cls_get_output_schema := EntitySummarizationResultSchema;
     cls_predict := EntitySummarization_predict |}.

End External.
End services.

(** ** [pubsub.py]: the in-process broker *)

(** The callables that the code registers as topic callbacks.  A chained
    callback publishes on the registry's client, which is the client the
    registry registered it with. *)
Inductive callback :=
| BoundPredict (service : ModelService)
    (* the bound method [service.predict] *)
| ChainedCallback (source_service target_service : ModelService).
    (* the closure [chained_callback] of [_create_chained_callback] *)

Record PubSubClient := {
  _message_queues : gmap string (option callback);
  _last_responses : gmap string message
}.

(** [PubSubClient.__init__] *)
Definition PubSubClient_init : PubSubClient :=
  {| _message_queues := ∅; _last_responses := ∅ |}.

(** What a run of the broker does, in order: [EvPublish] when [publish] is
    entered, [EvStored] when it writes [_last_responses] (the line before it
    returns).  The events are observations of the run, not program state. *)
Inductive event :=
| EvPublish (topic : string) (msg : message)
| EvStored (topic : string) (response : message).

(** How a call that runs on the broker ends.  [OutOfFuel] is the model's
    bound on the depth of nested [publish] calls. *)
Inductive outcome (A : Type) :=
| Returns (a : A)
| Raises (e : exn)
| OutOfFuel.
Arguments Returns {A} a.
Arguments Raises {A} e.
Arguments OutOfFuel {A}.

(** Code that reads and writes the one [PubSubClient] object that the
    registry and its callbacks share: outcome, client afterwards, events. *)
Definition M (A : Type) : Type := PubSubClient → outcome A * PubSubClient * list event.

Definition ret {A} (a : A) : M A := λ c, (Returns a, c, []).

Definition bind {A B} (m : M A) (k : A → M B) : M B :=
  λ c, match m c with
       | (Returns a, c1, evs1) =>
           match k a c1 with (o, c2, evs2) => (o, c2, evs1 ++ evs2) end
       | (Raises e, c1, evs1) => (Raises e, c1, evs1)
       | (OutOfFuel, c1, evs1) => (OutOfFuel, c1, evs1)
       end.

Notation "'let*' x ':=' m 'in' k" := (bind m (λ x, k))
  (at level 10, x name, m at level 100, k at level 200, only parsing).

Definition raise {A} (e : exn) : M A := λ c, (Raises e, c, []).
Definition out_of_fuel {A} : M A := λ c, (OutOfFuel, c, []).
Definition tell (ev : event) : M unit := λ c, (Returns tt, c, [ev]).
Definition get_client : M PubSubClient := λ c, (Returns c, c, []).
Definition modify (f : PubSubClient → PubSubClient) : M unit := λ c, (Returns tt, f c, []).

(** A call that does not touch the broker. *)
Definition lift {A} (r : result A) : M A :=
  match r with Ok a => ret a | Raise e => raise e end.

Definition outcome_of {A} (r : result A) : outcome A :=
  match r with Ok a => Returns a | Raise e => Raises e end.

Definition set_message_queue (topic : string) (cb : option callback)
    (self : PubSubClient) : PubSubClient :=
  {| _message_queues := <[topic := cb]> (_message_queues self);
     _last_responses := _last_responses self |}.

Definition set_last_response (topic : string) (response : message)
    (self : PubSubClient) : PubSubClient :=
  {| _message_queues := _message_queues self;
     _last_responses := <[topic := response]> (_last_responses self) |}.

(** [PubSubClient.register_topic] (it returns nothing and cannot raise). *)
Definition register_topic (topic : string) (cb : callback)
    (self : PubSubClient) : PubSubClient :=
  let self :=
    match _message_queues self !! topic with
    | None => set_message_queue topic None self
    | Some _ => self
    end in
  set_message_queue topic (Some cb) self.

(** [chained_callback] of [ModelRegistry._create_chained_callback]; its
    [self._pubsub_client.publish] is the parameter [publish]. *)
Definition chained_callback (publish : string → message → M message)
    (source_service target_service : ModelService) (model_input : message)
  : M message :=
  let* source_output := lift (predict source_service model_input) in
  let* _ := publish (trigger_topic target_service) source_output in
  ret source_output.

(** [await callback(message)] *)
Definition call (publish : string → message → M message)
    (cb : callback) (msg : message) : M message :=
  match cb with
  | BoundPredict service => lift (predict service msg)
  | ChainedCallback source_service target_service =>
      chained_callback publish source_service target_service msg
  end.

(** [PubSubClient.publish].  [message_id] is only logged and is left out;
    [fuel] bounds the depth of the [publish] calls nested through chained
    callbacks. *)
Fixpoint publish (fuel : nat) (topic : string) (msg : message) : M message :=
  match fuel with
  | 0 => out_of_fuel
  | S fuel =>
      let* _ := tell (EvPublish topic msg) in
      let* self := get_client in
      match _message_queues self !! topic with
      | None => raise (ValueError ("Topic " +:+ topic +:+ " not registered."))
      | Some None =>
          raise (ValueError ("No callback registered for topic " +:+ topic +:+ "."))
      | Some (Some cb) =>
          let* response := call (publish fuel) cb msg in
          let* _ := modify (set_last_response topic response) in
          let* _ := tell (EvStored topic response) in
          ret response
      end
  end.

(** [PubSubClient.get_last_response] *)
Definition get_last_response (topic : string) (self : PubSubClient) : message :=
  default PyDict.empty (_last_responses self !! topic).

(** The two [ValueError]s of [publish], under the names the specification
    gives them. *)
Definition UnknownTopicError (topic : string) : exn :=
  ValueError ("Topic " +:+ topic +:+ " not registered.").
Definition NoHandlerError (topic : string) : exn :=
  ValueError ("No callback registered for topic " +:+ topic +:+ ".").

(** ** [model_registry.py] *)

(** The class-level state of [ModelRegistry]. *)
Record ModelRegistryClass := {
  _model_services : pydict ModelServiceClass;
  _chains : gmap string string
}.

Definition no_services : ModelRegistryClass :=
  {| _model_services := PyDict.empty; _chains := ∅ |}.

(** [@ModelRegistry.register]; its [issubclass] guard holds of every
    [ModelServiceClass]. *)
Definition register (model_service_class : ModelServiceClass)
    (cls : ModelRegistryClass) : ModelRegistryClass :=
  let temp_instance := new_service model_service_class in
  {| _model_services :=
       PyDict.set (name temp_instance) model_service_class (_model_services cls);
     _chains := _chains cls |}.

(** [@ModelRegistry.chain_to(target_service_class)] applied to
    [source_service_class]; a second declaration for the same source
    overwrites the first. *)
Definition chain_to (target_service_class source_service_class : ModelServiceClass)
    (cls : ModelRegistryClass) : ModelRegistryClass :=
  let source_instance := new_service source_service_class in
  let target_instance := new_service target_service_class in
  {| _model_services := _model_services cls;
     _chains := <[name source_instance := name target_instance]> (_chains cls) |}.

(** The instance state of a [ModelRegistry]; its [_pubsub_client] is the
    client that [M] threads. *)
Record ModelRegistry := {
  _service_instances : pydict ModelService
}.

Definition _create_chained_callback (source_service target_service : ModelService)
  : callback :=
  ChainedCallback source_service target_service.

(** First loop of [_initialize_services]: one instance per catalogued class,
    keyed by the name the instance reports. *)
Definition create_instances (model_services : pydict ModelServiceClass)
  : pydict ModelService :=
  foldl (λ instances service_class,
           let service := new_service service_class in
           PyDict.set (name service) service instances)
        PyDict.empty (PyDict.values model_services).

(** The callback the second loop computes for one service;
    [instances[chains[service_name]]] raises [KeyError] on a missing key. *)
Definition effective_callback (chains : gmap string string)
    (instances : pydict ModelService) (service_name : string)
    (service : ModelService) : result callback :=
  match chains !! service_name with
  | Some target_name =>
      match PyDict.get target_name instances with
      | Some target_service => Ok (_create_chained_callback service target_service)
      | None => Raise (KeyError target_name)
      end
  | None => Ok (BoundPredict service)
  end.

(** Body of the second loop of [_initialize_services]. *)
Definition setup_topic (chains : gmap string string)
    (instances : pydict ModelService) (item : string * ModelService) : M unit :=
  let '(service_name, service) := item in
  let* cb := lift (effective_callback chains instances service_name service) in
  modify (register_topic (trigger_topic service) cb).

Fixpoint for_each {A} (body : A → M unit) (l : list A) : M unit :=
  match l with
  | [] => ret tt
  | x :: rest => let* _ := body x in for_each body rest
  end.

(** [ModelRegistry._initialize_services] *)
Definition _initialize_services (cls : ModelRegistryClass) : M (pydict ModelService) :=
  let instances := create_instances (_model_services cls) in
  let* _ := for_each (setup_topic (_chains cls) instances) (PyDict.items instances) in
  ret instances.

(** [ModelRegistry.__init__(self, pubsub_client)] *)
Definition ModelRegistry_init (cls : ModelRegistryClass) : M ModelRegistry :=
  let* instances := _initialize_services cls in
  ret {| _service_instances := instances |}.

(** [ModelRegistry.get_model] *)
Definition get_model (self : ModelRegistry) (model_name : string) : result ModelService :=
  match PyDict.get model_name (_service_instances self) with
  | None => Raise (ValueError ("Model service '" +:+ model_name +:+ "' not found."))
  | Some service => Ok service
  end.

(** [ModelRegistry.model_names] *)
Definition model_names (cls : ModelRegistryClass) : list string :=
  PyDict.keys (_model_services cls).

(** The class-level state once [main.py] has imported the three service
    modules: importing [entity_linking] first imports [summarization], and
    each class is decorated by [chain_to] before [register]. *)
Definition loaded_services (summarization linking recognition : ModelServiceClass)
  : ModelRegistryClass :=
  register recognition
    (chain_to linking recognition
       (register linking
          (chain_to summarization linking
             (register summarization no_services)))).

(** ** Runs of the broker *)

(** What [publish] does after the event of its entry, once its callback
    has run. *)
Definition finish_publish (topic : string) (msg : message)
    (r : outcome message * PubSubClient * list event)
  : outcome message * PubSubClient * list event :=
  match r with
  | (Returns response, c, evs) =>
      (Returns response, set_last_response topic response c,
       EvPublish topic msg :: evs ++ [EvStored topic response])
  | (Raises e, c, evs) => (Raises e, c, EvPublish topic msg :: evs)
  | (OutOfFuel, c, evs) => (OutOfFuel, c, EvPublish topic msg :: evs)
  end.

(** A top-level request to the client: a registration (as the registry
    issues them) or a publish (as the HTTP layer issues them). *)
Inductive request :=
| ReqRegister (topic : string) (cb : callback)
| ReqPublish (topic : string) (msg : message).

(** Serving requests one after the other.  An exception of [publish] goes
    to the caller and the client lives on; [None] when some [publish] does
    not finish within [fuel]. *)
Fixpoint serve (fuel : nat) (reqs : list request) (c : PubSubClient)
  : option (PubSubClient * list event) :=
  match reqs with
  | [] => Some (c, [])
  | ReqRegister topic cb :: rest => serve fuel rest (register_topic topic cb c)
  | ReqPublish topic msg :: rest =>
      match publish fuel topic msg c with
      | (OutOfFuel, _, _) => None
      | (_, c1, evs1) =>
          match serve fuel rest c1 with
          | Some (c2, evs2) => Some (c2, evs1 ++ evs2)
          | None => None
          end
      end
  end.

(** The topics that a list of requests registers. *)
Definition registered_topics (reqs : list request) : list string :=
  omap (λ req, match req with
               | ReqRegister topic _ => Some topic
               | ReqPublish _ _ => None
               end) reqs.

(** The cached response of [topic] after one more event. *)
Definition record_event (topic : string) (cached : option message) (ev : event)
  : option message :=
  match ev with
  | EvStored t response => if decide (t = topic) then Some response else cached
  | EvPublish _ _ => cached
  end.


(** The cache of the client of run [r] is the cache of [c] updated by the
    events of [r]. *)
Definition cache_follows (c : PubSubClient)
    (r : outcome message * PubSubClient * list event) : Prop :=
  ∀ t, _last_responses r.1.2 !! t = foldl (record_event t) (_last_responses c !! t) r.2.

(** [d] holds one instance per name of [classes], under that name. *)
Definition instances_of (classes : list ModelServiceClass) (d : pydict ModelService)
  : Prop :=
  NoDup (PyDict.keys d)
  ∧ (∀ k s, (k, s) ∈ d → ∃ cls, cls ∈ classes ∧ s = new_service cls ∧ k = cls_NAME cls)
  ∧ (∀ cls, cls ∈ classes → cls_NAME cls ∈ PyDict.keys d).

(** The messages of the [publish] calls on [topic] among [evs], in order. *)
Definition publishes_to (topic : string) (evs : list event) : list message :=
  omap (λ ev, match ev with
              | EvPublish t msg => if decide (t = topic) then Some msg else None
              | EvStored _ _ => None
              end) evs.

(** The topics of all [publish] calls among [evs], in order. *)
Definition published_topics (evs : list event) : list string :=
  omap (λ ev, match ev with
              | EvPublish t _ => Some t
              | EvStored _ _ => None
              end) evs.

(** The topics that a returning [publish] on [topic] goes through, read off
    the table of callbacks alone: a chained callback publishes to its
    target's topic, a bound [predict] ends the route. *)
Fixpoint route (queues : gmap string (option callback)) (fuel : nat) (topic : string)
  : option (list string) :=
  match fuel with
  | 0 => None
  | S fuel =>
      match queues !! topic with
      | Some (Some (BoundPredict _)) => Some [topic]
      | Some (Some (ChainedCallback _ target_service)) =>
          cons topic <$> route queues fuel (trigger_topic target_service)
      | _ => None
      end
  end.

(** ** A concrete deployment

    The three services with fixed stand-ins for the external models. *)
Module example.

Definition uuid4 : string := "3f2b8c1e-5d4a-4e0b-9c6f-7a1d2e3f4b5c".

Definition ner_pipeline (text : string) : result (list (string * string)) :=
  Ok [("Barack Obama", "PER"); ("Seattle", "LOC")].

Definition wikipedia_page (title : string) : services.wikipedia_outcome :=
  if decide (title = "Seattle") then services.PageError
  else services.WikipediaPage title ("https://en.wikipedia.org/wiki/" +:+ title)
                              "An article.".

Definition summarize_text (text : string) : result string := Ok "A summary.".

Definition recognition : ModelServiceClass :=
  services.EntityRecognitionModelService uuid4 ner_pipeline.
Definition linking : ModelServiceClass :=
  services.EntityLinkingModelService uuid4 wikipedia_page.
Definition summarization : ModelServiceClass :=
  services.EntitySummarizationModelService (Ok tt) summarize_text.

(** The summarization service when its model cannot be loaded. *)
Definition summarization_unloadable : ModelServiceClass :=
  services.EntitySummarizationModelService
    (Raise (OtherError "OSError" "facebook/bart-large-cnn")) summarize_text.

(** A service that declares the NER result schema as its output shape and
    whose inference step returns an [Entity]. *)
Definition first_entity_predict (model_input : BaseModel) : result BaseModel :=
  let? text := services.getattr (model_data model_input) "text" in
  model_validate schemas.Entity [("text", text); ("label", JStr "MISC")].

Definition first_entity : ModelServiceClass :=
  {| cls_NAME := "first-entity";
     cls_get_input_schema := schemas.EntityRecognitionInputSchema uuid4;
     cls_get_output_schema := schemas.EntityRecognitionResultSchema uuid4;
     cls_predict := first_entity_predict |}.

Definition document : message :=
  [("id", JStr "doc1"); ("text", JStr "Barack Obama visited Seattle.")].

(** What the recognition service returns on [document]. *)
Definition recognized : message :=
  [("id", JStr "doc1");
   ("text", JStr "Barack Obama visited Seattle.");
   ("entities",
    JList [JDict [("text", JStr "Barack Obama"); ("label", JStr "PER")];
           JDict [("text", JStr "Seattle"); ("label", JStr "LOC")]])].

(** What the linking service returns on [recognized]. *)
Definition linked : message :=
  [("id", JStr "doc1");
   ("text", JStr "Barack Obama visited Seattle.");
   ("linked_entities",
    JList [JDict [("text", JStr "Barack Obama");
                  ("wikipedia_entries_found", JBool true);
                  ("title", JStr "Barack Obama");
                  ("url", JStr "https://en.wikipedia.org/wiki/Barack Obama");
                  ("content", JStr "An article....")];
           JDict [("text", JStr "Seattle");
                  ("wikipedia_entries_found", JBool false)]])].

(** What the summarization service returns on [linked]. *)
Definition summarized : message :=
  [("id", JStr "doc1");
   ("text", JStr "Barack Obama visited Seattle.");
   ("summarized_entities",
    JList [JDict [("text", JStr "Barack Obama");
                  ("wikipedia_entries_found", JBool true);
                  ("title", JStr "Barack Obama");
                  ("url", JStr "https://en.wikipedia.org/wiki/Barack Obama");
                  ("content", JStr "An article....");
                  ("summary", JStr "A summary.")];
           JDict [("text", JStr "Seattle");
                  ("wikipedia_entries_found", JBool false)]])].

(** [linked] as a client may send it, with [1] and [0] for the booleans. *)
Definition linked_with_integer_tags : message :=
  [("id", JStr "doc1");
   ("text", JStr "Barack Obama visited Seattle.");
   ("linked_entities",
    JList [JDict [("text", JStr "Barack Obama");
                  ("wikipedia_entries_found", JInt 1);
                  ("title", JStr "Barack Obama");
                  ("url", JStr "https://en.wikipedia.org/wiki/Barack Obama");
                  ("content", JStr "An article....")];
           JDict [("text", JStr "Seattle");
                  ("wikipedia_entries_found", JInt 0)]])].


(** A client wired by a registry over the catalogue [cls]. *)
Definition wired (cls : ModelRegistryClass) : PubSubClient :=
  (ModelRegistry_init cls PubSubClient_init).1.2.

Definition catalogue : ModelRegistryClass :=
  loaded_services summarization linking recognition.

Definition catalogue_unloadable : ModelRegistryClass :=
  loaded_services summarization_unloadable linking recognition.

(** The registry object that construction over [cls] yields. *)
Definition constructed (cls : ModelRegistryClass) : ModelRegistry :=
  {| _service_instances := create_instances (_model_services cls) |}.

(** Entity linking is registered and chained to a summarization service
    that is not registered. *)
Definition catalogue_dangling : ModelRegistryClass :=
  register linking (chain_to summarization linking no_services).

End example.

(** ** Catalogues

    The class-level states that the two decorators produce, starting from
    the empty catalogue. *)
Inductive decorated : ModelRegistryClass → Prop :=
| decorated_none : decorated no_services
| decorated_register model_service_class cls :
    decorated cls → decorated (register model_service_class cls)
| decorated_chain_to target_service_class source_service_class cls :
    decorated cls → decorated (chain_to target_service_class source_service_class cls).

(** Every chain of a catalogued class leads to a catalogued name. *)
Definition chains_closed (cls : ModelRegistryClass) : Prop :=
  ∀ source target,
    source ∈ PyDict.values (_model_services cls) →
    _chains cls !! cls_NAME source = Some target →
    ∃ k, k ∈ PyDict.values (_model_services cls) ∧ cls_NAME k = target.

(** ** Validators that accept what they return *)

(** [v] accepts each value it returns and returns it unchanged. *)
Definition stable (v : validator) : Prop :=
  ∀ j j', v j = Some j' → v j' = Some j'.

(** The annotation of [f] is stable and accepts the default of [f]. *)
Definition stable_field (f : FieldInfo) : Prop :=
  stable (field_type f) ∧ ∀ d, field_default f = Some d → field_type f d = Some d.

Definition stable_fields (fields : list FieldInfo) : Prop :=
  NoDup (field_name <$> fields) ∧ Forall stable_field fields.

(** Two lists of fields with the same names and annotations, in the same
    order; the defaults may differ. *)
Definition same_shape (fields fields' : list FieldInfo) : Prop :=
  Forall2 (λ f g, field_name f = field_name g ∧ field_type f = field_type g)
          fields fields'.

(** No value that [b] returns is accepted by [a]. *)
Definition exclusive (a b : validator) : Prop :=
  ∀ j j', b j = Some j' → a j' = None.

(** ** The shape of entities *)

(** [entity.text] of an entity given as a JSON object. *)
Definition entity_text (entity : json) : option json :=
  match entity with
  | JDict fields => PyDict.get "text" fields
  | _ => None
  end.

(** What the linking service returns for an entity with text [text]: the
    not-found entry, or the found entry of some page. *)
Definition linked_entity_of (text : json) (linked : json) : Prop :=
  linked = JDict (services.not_found_entry text)
  ∨ ∃ title url content, linked = JDict (services.found_entry text title url content).

(** An entity as the NER service builds it from one pipeline result. *)
Definition recognized_entity (r : string * string) : json :=
  JDict [("text", JStr r.1); ("label", JStr r.2)].

(** A found entity as a validated instance holds it. *)
Definition found_entity (text title url content : string) : message :=
  [("text", JStr text);
   ("wikipedia_entries_found", JBool true);
   ("title", JStr title);
   ("url", JStr url);
   ("content", JStr content)].

(** What the summarization service returns for a validated linked entity:
    a not-found entity as it is, a found entity with the summary of its
    content as one more field. *)
Definition summarized_entity_of (summarize_text : string → result string)
    (linked summarized : json) : Prop :=
  (∃ text, linked = JDict (services.not_found_entry text) ∧ summarized = linked)
  ∨ (∃ text title url content summary,
        linked = JDict (found_entity text title url content)
        ∧ summarize_text content = Ok summary
        ∧ summarized
          = JDict (found_entity text title url content ++ [("summary", JStr summary)])).

(** ** [main.py]: the HTTP layer

    The endpoints as functions of the request's parsed parts; the routing,
    the parsing of request bodies and the logging are FastAPI's and are not
    modelled.  The module-level [pubsub_client] is the client that [M]
    threads, the module-level [model_registry] is a parameter. *)
Module main.

(** The [detail] of an [HTTPException]: a fixed text, or [str(e)] of the
    exception that was caught. *)
Inductive detail :=
| Text (s : string)
| StrOf (e : exn).

(** What the body of a [try] raises: an exception of the core, or a
    [fastapi.HTTPException]. *)
Inductive raised :=
| CoreError (e : exn)
| HTTPException (status_code : nat) (d : detail).

(** How the body of a [try] ends. *)
Inductive tried (A : Type) :=
| Returned (a : A)
| Raised (r : raised).
Arguments Returned {A} a.
Arguments Raised {A} r.

(** How an endpoint ends: with the body of a 200 response, or with the
    [HTTPException] that FastAPI turns into an error response. *)
Inductive reply (A : Type) :=
| Reply (body : A)
| Error (status_code : nat) (d : detail).
Arguments Reply {A} body.
Arguments Error {A} status_code d.

Definition of_result {A} (r : result A) : tried A :=
  match r with
  | Ok a => Returned a
  | Raise e => Raised (CoreError e)
  end.

Section Server.

(** Whether the exception class named by an [OtherError] derives from
    [ValueError]. *)
Variable derives_from_ValueError : string → bool.

(** [isinstance(e, ValueError)]: pydantic's [ValidationError] derives from
    [ValueError], [KeyError] does not. *)
Definition is_ValueError (e : exn) : bool :=
  match e with
  | ValidationError _ _ => true
  | ValueError _ => true
  | KeyError _ => false
  | OtherError type_name _ => derives_from_ValueError type_name
  end.

(** [try: body] with the two handlers
    [except ValueError as e: raise HTTPException(status_code, detail=str(e))] and
    [except Exception: raise HTTPException(500, "Internal Server Error")].
    An [HTTPException] raised by the body is an [Exception] and no
    [ValueError]. *)
Definition except_ValueError_Exception {A} (status_code : nat) (body : tried A)
  : reply A :=
  match body with
  | Returned a => Reply a
  | Raised (CoreError e) =>
      if is_ValueError e then Error status_code (StrOf e)
      else Error 500 (Text "Internal Server Error")
  | Raised (HTTPException _ _) => Error 500 (Text "Internal Server Error")
  end.

(** [try: body] with the one handler
    [except Exception: raise HTTPException(500, "Internal Server Error")]. *)
Definition except_Exception {A} (body : tried A) : reply A :=
  match body with
  | Returned a => Reply a
  | Raised _ => Error 500 (Text "Internal Server Error")
  end.

(** [GET /ping] *)
Definition ping : message := [("message", JStr "Pong!")].

(** [GET /models] *)
Definition list_models (cls : ModelRegistryClass) : reply message :=
  except_Exception (Returned [("models", JList (JStr <$> model_names cls))]).

(** [POST /publish]; [message_id] is the string of the [uuid4] drawn for
    the request and [timestamp] is [ts.isoformat()]. *)
Definition publish (fuel : nat) (message_id topic : string) (payload : message)
    (timestamp : string) : M (reply message) :=
  λ c, match publish fuel topic payload c with
       | (Returns _, c', evs) =>
           (Returns (Reply [("message_id", JStr message_id);
                            ("topic", JStr topic);
                            ("payload", JDict payload);
                            ("timestamp", JStr timestamp)]), c', evs)
       | (Raises e, c', evs) =>
           (Returns (except_ValueError_Exception 400 (Raised (CoreError e))), c', evs)
       | (OutOfFuel, c', evs) => (OutOfFuel, c', evs)
       end.

(** [GET /{topic}/last_response] *)
Definition last_response (topic : string) (c : PubSubClient) : reply message :=
  except_Exception
    (let response := get_last_response topic c in
     match response with
     | [] => Raised (HTTPException 404 (Text "No response found"))
     | _ :: _ => Returned response
     end).

(** [POST /{model_name}/predict]; the request body is a JSON object. *)
Definition predict (registry : ModelRegistry) (model_name : string)
    (model_input : message) : reply message :=
  except_ValueError_Exception 404
    (of_result (let? model_service := get_model registry model_name in
                predict model_service model_input)).

End Server.
End main.

(** * Properties *)

(** ** How [publish] and the callbacks run *)

Lemma publish_unregistered fuel topic msg c :
  _message_queues c !! topic = None →
  publish (S fuel) topic msg c = (Raises (UnknownTopicError topic), c, [EvPublish topic msg]).
Proof.
  intros Hq. cbn [publish]. unfold bind, tell, get_client.
  rewrite Hq. reflexivity.
Qed.

Lemma publish_no_callback fuel topic msg c :
  _message_queues c !! topic = Some None →
  publish (S fuel) topic msg c = (Raises (NoHandlerError topic), c, [EvPublish topic msg]).
Proof.
  intros Hq. cbn [publish]. unfold bind, tell, get_client.
  rewrite Hq. reflexivity.
Qed.

Lemma publish_registered fuel topic msg c cb :
  _message_queues c !! topic = Some (Some cb) →
  publish (S fuel) topic msg c = finish_publish topic msg (call (publish fuel) cb msg c).
Proof.
  intros Hq. cbn [publish]. unfold bind, tell, get_client.
  rewrite Hq. unfold finish_publish, modify, ret.
  destruct (call (publish fuel) cb msg c) as [[[r | e |] c1] evs]; cbn;
    by rewrite ?app_nil_r.
Qed.

Lemma call_bound_predict pub service msg c :
  call pub (BoundPredict service) msg c =
  match predict service msg with
  | Ok response => (Returns response, c, [])
  | Raise e => (Raises e, c, [])
  end.
Proof. cbn. by destruct (predict service msg). Qed.

Lemma call_chained pub source target msg c :
  call pub (ChainedCallback source target) msg c =
  match predict source msg with
  | Raise e => (Raises e, c, [])
  | Ok source_output =>
      match pub (trigger_topic target) source_output c with
      | (Returns _, c1, evs) => (Returns source_output, c1, evs)
      | (Raises e, c1, evs) => (Raises e, c1, evs)
      | (OutOfFuel, c1, evs) => (OutOfFuel, c1, evs)
      end
  end.
Proof.
  cbn. unfold chained_callback, bind.
  destruct (predict source msg) as [y | e]; cbn; [| reflexivity].
  destruct (pub (trigger_topic target) y c) as [[[r | e |] c1] evs]; cbn;
    rewrite ?app_nil_r; reflexivity.
Qed.

(** [publish] never touches the table of callbacks. *)
Lemma publish_message_queues fuel : ∀ topic msg c,
  _message_queues (publish fuel topic msg c).1.2 = _message_queues c.
Proof.
  induction fuel as [| fuel IH]; intros topic msg c; [reflexivity |].
  destruct (_message_queues c !! topic) as [[cb |] |] eqn:Hq.
  - rewrite (publish_registered _ _ _ _ _ Hq).
    assert (_message_queues (call (publish fuel) cb msg c).1.2 = _message_queues c) as Hcall.
    { destruct cb as [s | s t].
      - rewrite call_bound_predict. by destruct (predict s msg).
      - rewrite call_chained. destruct (predict s msg) as [y | e]; [| done].
        specialize (IH (trigger_topic t) y c).
        by destruct (publish fuel (trigger_topic t) y c) as [[[r | e |] c1] evs]. }
    by destruct (call (publish fuel) cb msg c) as [[[r | e |] c1] evs].
  - by rewrite (publish_no_callback _ _ _ _ Hq).
  - by rewrite (publish_unregistered _ _ _ _ Hq).
Qed.

(** Closes [ev ∉ l] for an explicit list [l] of other events. *)
Ltac not_among :=
  let Hin := fresh "Hin" in
  intros Hin;
  repeat (apply elem_of_cons in Hin as [Hin | Hin]; [discriminate Hin |]);
  by apply elem_of_nil in Hin.

(** A [publish] that raises leaves the client as it found it and has
    stored no response. *)
Lemma publish_raises_unchanged fuel : ∀ topic msg c e c' evs,
  publish fuel topic msg c = (Raises e, c', evs) →
  c' = c ∧ ∀ t r, EvStored t r ∉ evs.
Proof.
  induction fuel as [| fuel IH]; intros topic msg c e c' evs Hp; [discriminate |].
  destruct (_message_queues c !! topic) as [[cb |] |] eqn:Hq.
  - rewrite (publish_registered _ _ _ _ _ Hq) in Hp.
    destruct cb as [s | s t].
    + rewrite call_bound_predict in Hp.
      destruct (predict s msg); simplify_eq/=.
      split; [done |]. intros t r. not_among.
    + rewrite call_chained in Hp.
      destruct (predict s msg) as [y | e0]; simplify_eq/=.
      * destruct (publish fuel (trigger_topic t) y c) as [[[r | e0 |] c1] evs1] eqn:Hin;
          simplify_eq/=.
        destruct (IH _ _ _ _ _ _ Hin) as [-> Hevs].
        split; [done |]. intros t0 r0 [|]%elem_of_cons; [done |]. by eapply Hevs.
      * split; [done |]. intros t0 r0. not_among.
  - rewrite (publish_no_callback _ _ _ _ Hq) in Hp. simplify_eq.
    split; [done |]. intros t r. not_among.
  - rewrite (publish_unregistered _ _ _ _ Hq) in Hp. simplify_eq.
    split; [done |]. intros t r. not_among.
Qed.

(** ** The broker: registration and the last-response cache *)

Lemma register_topic_last_responses topic cb self :
  _last_responses (register_topic topic cb self) = _last_responses self.
Proof. unfold register_topic. by destruct (_message_queues self !! topic). Qed.

(** C10: [register_topic] leaves the last-response cache of every topic as
    it was, the registered topic included; what [get_last_response]
    returned before the registration, it returns after it. *)
Theorem register_topic_keeps_last_responses topic cb self :
  _last_responses (register_topic topic cb self) = _last_responses self
  ∧ ∀ t, get_last_response t (register_topic topic cb self) = get_last_response t self.
Proof.
  split; [apply register_topic_last_responses |].
  intros t. unfold get_last_response. by rewrite register_topic_last_responses.
Qed.

Lemma register_topic_lookup topic cb self :
  _message_queues (register_topic topic cb self) !! topic = Some (Some cb).
Proof. unfold register_topic. cbn. apply lookup_insert_eq. Qed.

Lemma register_topic_lookup_ne topic cb self t :
  t ≠ topic →
  _message_queues (register_topic topic cb self) !! t = _message_queues self !! t.
Proof.
  intros Hne. unfold register_topic.
  destruct (_message_queues self !! topic); cbn;
    rewrite !lookup_insert_ne by done; reflexivity.
Qed.

Lemma register_topic_twice topic A B self :
  register_topic topic B (register_topic topic A self) = register_topic topic B self.
Proof.
  unfold register_topic at 1. rewrite register_topic_lookup.
  unfold register_topic, set_message_queue.
  destruct (_message_queues self !! topic); cbn; by rewrite !insert_insert_eq.
Qed.

(** C5: a topic has one callback; registering [A] and then [B] under the
    same topic gives the client that registering [B] alone gives, with [B]
    as the topic's callback, and a publish to the topic runs [B] and
    returns and caches [B]'s response. *)
Theorem register_topic_replaces topic A B self fuel msg :
  let c := register_topic topic B (register_topic topic A self) in
  c = register_topic topic B self
  ∧ _message_queues c !! topic = Some (Some B)
  ∧ publish (S fuel) topic msg c = finish_publish topic msg (call (publish fuel) B msg c)
  ∧ ∀ response c1 evs,
      call (publish fuel) B msg c = (Returns response, c1, evs) →
      (publish (S fuel) topic msg c).1.1 = Returns response
      ∧ get_last_response topic (publish (S fuel) topic msg c).1.2 = response.
Proof.
  intros c. subst c.
  split; [apply register_topic_twice |].
  split; [apply register_topic_lookup |].
  assert (publish (S fuel) topic msg (register_topic topic B (register_topic topic A self))
          = finish_publish topic msg
              (call (publish fuel) B msg
                    (register_topic topic B (register_topic topic A self)))) as Hp.
  { apply publish_registered, register_topic_lookup. }
  split; [exact Hp |].
  intros response c1 evs Hcall. rewrite Hp, Hcall. cbn.
  split; [reflexivity |].
  unfold get_last_response. cbn. by rewrite lookup_insert_eq.
Qed.

(** Registering [predict] of the recognition service and then [predict] of
    [first_entity] under one topic: a publish returns the latter's output. *)
Lemma register_topic_replaces_witness :
  let A := BoundPredict (new_service example.recognition) in
  let B := BoundPredict (new_service example.first_entity) in
  let c := register_topic "t" B (register_topic "t" A PubSubClient_init) in
  (publish 1 "t" example.document c).1.1
  = Returns [("text", JStr "Barack Obama visited Seattle."); ("label", JStr "MISC")]
  ∧ get_last_response "t" (publish 1 "t" example.document c).1.2
    = [("text", JStr "Barack Obama visited Seattle."); ("label", JStr "MISC")].
Proof.
  intros A B c.
  apply (register_topic_replaces "t" A B PubSubClient_init 0 example.document)
    with (c1 := c) (evs := []).
  vm_compute. reflexivity.
Defined.

Lemma serve_publish_inv fuel topic msg reqs c c' evs :
  serve fuel (ReqPublish topic msg :: reqs) c = Some (c', evs) →
  ∃ o c1 evs1 evs2,
    publish fuel topic msg c = (o, c1, evs1)
    ∧ o ≠ OutOfFuel
    ∧ serve fuel reqs c1 = Some (c', evs2)
    ∧ evs = evs1 ++ evs2.
Proof.
  cbn. destruct (publish fuel topic msg c) as [[o c1] evs1]. intros Hs.
  exists o, c1, evs1.
  destruct o; [| | discriminate Hs];
    (destruct (serve fuel reqs c1) as [[c2 evs2] |]; [| discriminate Hs]);
    simplify_eq; eauto.
Qed.

(** Only [register_topic] adds a topic to the table of callbacks. *)
Lemma serve_unregistered fuel topic : ∀ reqs c c' evs,
  serve fuel reqs c = Some (c', evs) →
  topic ∉ registered_topics reqs →
  _message_queues c !! topic = None →
  _message_queues c' !! topic = None.
Proof.
  induction reqs as [| [t cb | t msg] reqs IH]; intros c c' evs Hs Hnot Hc.
  - cbn in Hs. by simplify_eq.
  - cbn in Hs, Hnot. apply not_elem_of_cons in Hnot as [Hne Hnot].
    eapply IH; [exact Hs | exact Hnot |].
    by rewrite register_topic_lookup_ne.
  - apply serve_publish_inv in Hs as (o & c1 & evs1 & evs2 & Hp & _ & Hrest & _).
    pose proof (publish_message_queues fuel t msg c) as Hq.
    rewrite Hp in Hq. cbn in Hq.
    eapply IH; [exact Hrest | exact Hnot | by rewrite Hq].
Qed.

Lemma unknown_topic_is_not_no_handler topic :
  UnknownTopicError topic ≠ NoHandlerError topic.
Proof. unfold UnknownTopicError, NoHandlerError. intros Heq. by inversion Heq. Qed.

(** C4: after any requests served by a fresh client none of which
    registers [topic], [publish] on [topic] raises the unknown-topic error
    and changes nothing; on a client whose table holds [topic] with no
    callback, it raises the no-handler error and changes nothing.  The two
    errors are different. *)
Theorem publish_rejects_unknown_topic fuel topic msg :
  (∀ n reqs c evs,
      serve n reqs PubSubClient_init = Some (c, evs) →
      topic ∉ registered_topics reqs →
      publish (S fuel) topic msg c
      = (Raises (UnknownTopicError topic), c, [EvPublish topic msg]))
  ∧ (∀ c,
      _message_queues c !! topic = Some None →
      publish (S fuel) topic msg c
      = (Raises (NoHandlerError topic), c, [EvPublish topic msg]))
  ∧ UnknownTopicError topic ≠ NoHandlerError topic.
Proof.
  split; [| split].
  - intros n reqs c evs Hs Hnot. apply publish_unregistered.
    eapply serve_unregistered; [exact Hs | exact Hnot | apply lookup_empty].
  - intros c Hq. by apply publish_no_callback.
  - apply unknown_topic_is_not_no_handler.
Qed.

(** After one registration and one publish, a publish to a topic that
    nobody registered raises; so does a publish to a topic whose callback
    is absent. *)
Lemma publish_rejects_unknown_topic_witness :
  let reqs :=
    [ReqRegister "entity-summarization-trigger"
                 (BoundPredict (new_service example.summarization));
     ReqPublish "entity-recognition-trigger" example.document] in
  let absent :=
    {| _message_queues := {["summaries" := None]}; _last_responses := ∅ |} in
  (∃ c evs,
      serve 3 reqs PubSubClient_init = Some (c, evs)
      ∧ publish 1 "summaries" example.document c
        = (Raises (ValueError "Topic summaries not registered."), c,
           [EvPublish "summaries" example.document]))
  ∧ publish 1 "summaries" example.document absent
    = (Raises (ValueError "No callback registered for topic summaries."), absent,
       [EvPublish "summaries" example.document]).
Proof.
  intros reqs absent.
  destruct (serve 3 reqs PubSubClient_init) as [[c evs] |] eqn:Hs;
    [| vm_compute in Hs; discriminate Hs].
  split.
  - exists c, evs. split; [reflexivity |].
    apply (proj1 (publish_rejects_unknown_topic 0 "summaries" example.document) 3 reqs c evs Hs).
    vm_compute. not_among.
  - apply (proj1 (proj2 (publish_rejects_unknown_topic 0 "summaries" example.document))).
    vm_compute. reflexivity.
Defined.

(** ** Failing publishes *)

(** C9: a [publish] that raises, whether its own callback failed or a
    chained publish further down did, returns the client exactly as it was:
    no last-response entry of any topic is written, and no response was
    stored on the way. *)
Theorem publish_raises_updates_no_cache fuel topic msg c e c' evs :
  publish fuel topic msg c = (Raises e, c', evs) →
  _last_responses c' = _last_responses c
  ∧ (∀ t, get_last_response t c' = get_last_response t c)
  ∧ (∀ t response, EvStored t response ∉ evs).
Proof.
  intros Hp. destruct (publish_raises_unchanged _ _ _ _ _ _ _ Hp) as [-> Hevs].
  auto.
Qed.

(** With a summarization model that cannot be loaded, a publish to the
    linking topic raises out of the chained publish and no cache entry
    changes, although the linking prediction itself succeeded. *)
Lemma publish_raises_updates_no_cache_witness :
  let c := example.wired example.catalogue_unloadable in
  let run := publish 3 "entity-linking-trigger" example.recognized c in
  predict (new_service example.linking) example.recognized = Ok example.linked
  ∧ run.1.1 = Raises (OtherError "OSError" "facebook/bart-large-cnn")
  ∧ run.2 = [EvPublish "entity-linking-trigger" example.recognized;
             EvPublish "entity-summarization-trigger" example.linked]
  ∧ _last_responses run.1.2 = _last_responses c
  ∧ (∀ t, get_last_response t run.1.2 = get_last_response t c)
  ∧ (∀ t response, EvStored t response ∉ run.2).
Proof.
  intros c run.
  split; [vm_compute; reflexivity |].
  split; [vm_compute; reflexivity |].
  split; [vm_compute; reflexivity |].
  apply (publish_raises_updates_no_cache 3 "entity-linking-trigger" example.recognized c
           (OtherError "OSError" "facebook/bart-large-cnn")).
  vm_compute. reflexivity.
Defined.

(** ** Validation at the boundary of [predict] *)

Lemma validate_fields_missing f data : ∀ fields,
  f ∈ fields →
  field_default f = None →
  PyDict.get (field_name f) data = None →
  (field_name f, missing) ∈ (validate_fields fields data).2.
Proof.
  induction fields as [| g fields IH]; intros Hin Hreq Hget.
  - by apply elem_of_nil in Hin.
  - cbn. destruct (validate_fields fields data) as [vals errs] eqn:Hrest. cbn in IH.
    apply elem_of_cons in Hin as [<- | Hin].
    + rewrite Hget, Hreq. cbn. apply elem_of_cons. by left.
    + specialize (IH Hin Hreq Hget).
      destruct (PyDict.get (field_name g) data) as [v |].
      * destruct (field_type g v); cbn; [done | apply elem_of_cons; by right].
      * destruct (field_default g); cbn; [done | apply elem_of_cons; by right].
Qed.

Lemma model_validate_missing cls data f :
  f ∈ model_fields cls →
  field_default f = None →
  PyDict.get (field_name f) data = None →
  ∃ errors,
    (field_name f, missing) ∈ errors
    ∧ model_validate cls data = Raise (ValidationError (class_name cls) errors).
Proof.
  intros Hin Hreq Hget.
  pose proof (validate_fields_missing f data _ Hin Hreq Hget) as Herr.
  unfold model_validate.
  destruct (validate_fields (model_fields cls) data) as [vals errs]. cbn in Herr.
  destruct errs as [| err errs]; [by apply elem_of_nil in Herr |].
  eauto.
Qed.

(** C6: when the input lacks a field that the input schema requires,
    [predict] raises a [ValidationError] that reports the field as missing;
    run as a callback it leaves the client untouched, and a publish to a
    topic whose callback is this service's [predict], plain or chained,
    raises the same error and writes no last-response entry. *)
Theorem predict_rejects_missing_field self model_input f :
  f ∈ model_fields (get_input_schema self) →
  field_default f = None →
  PyDict.get (field_name f) model_input = None →
  ∃ errors,
    let e := ValidationError (class_name (get_input_schema self)) errors in
    (field_name f, missing) ∈ errors
    ∧ predict self model_input = Raise e
    ∧ (∀ fuel c,
         call (publish fuel) (BoundPredict self) model_input c = (Raises e, c, []))
    ∧ (∀ fuel c topic cb,
         _message_queues c !! topic = Some (Some cb) →
         cb = BoundPredict self ∨ (∃ target, cb = ChainedCallback self target) →
         publish (S fuel) topic model_input c = (Raises e, c, [EvPublish topic model_input])).
Proof.
  intros Hin Hreq Hget.
  destruct (model_validate_missing _ _ _ Hin Hreq Hget) as (errors & Herr & Hval).
  exists errors. cbn zeta.
  assert (predict self model_input
          = Raise (ValidationError (class_name (get_input_schema self)) errors)) as Hpred.
  { unfold predict. by rewrite Hval. }
  split; [exact Herr |]. split; [exact Hpred |]. split.
  - intros fuel c. by rewrite call_bound_predict, Hpred.
  - intros fuel c topic cb Hq [-> | [target ->]];
      rewrite (publish_registered _ _ _ _ _ Hq).
    + by rewrite call_bound_predict, Hpred.
    + by rewrite call_chained, Hpred.
Qed.

(** The recognition service on a document without [text]. *)
Lemma predict_rejects_missing_field_witness :
  let self := new_service example.recognition in
  let model_input := [("id", JStr "doc1")] in
  PyDict.get "text" model_input = None
  ∧ ∃ errors,
      let e := ValidationError "EntityRecognitionInputSchema" errors in
      ("text", missing) ∈ errors
      ∧ predict self model_input = Raise e
      ∧ (∀ fuel c,
           call (publish fuel) (BoundPredict self) model_input c = (Raises e, c, []))
      ∧ (∀ fuel c topic cb,
           _message_queues c !! topic = Some (Some cb) →
           cb = BoundPredict self ∨ (∃ target, cb = ChainedCallback self target) →
           publish (S fuel) topic model_input c
           = (Raises e, c, [EvPublish topic model_input])).
Proof.
  intros self model_input. split; [reflexivity |].
  apply (predict_rejects_missing_field self model_input (required "text" v_str)).
  - apply elem_of_cons. right. apply elem_of_cons. by left.
  - reflexivity.
  - reflexivity.
Defined.

(** ** The last-response cache follows the successful publishes *)

Lemma cache_follows_refl c o : cache_follows c (o, c, []).
Proof. by intros t. Qed.

Lemma cache_follows_finish topic msg c r :
  cache_follows c r → cache_follows c (finish_publish topic msg r).
Proof.
  destruct r as [[[response | e |] c1] evs]; intros Hr t; specialize (Hr t);
    cbn in Hr |- *; [| done | done].
  rewrite foldl_app. cbn. rewrite <- Hr.
  destruct (decide (topic = t)) as [-> | Hne].
  - by rewrite lookup_insert_eq.
  - by rewrite lookup_insert_ne.
Qed.

Lemma publish_cache_follows fuel : ∀ topic msg c,
  cache_follows c (publish fuel topic msg c).
Proof.
  induction fuel as [| fuel IH]; intros topic msg c; [apply cache_follows_refl |].
  destruct (_message_queues c !! topic) as [[cb |] |] eqn:Hq.
  - rewrite (publish_registered _ _ _ _ _ Hq). apply cache_follows_finish.
    destruct cb as [s | s t].
    + rewrite call_bound_predict. destruct (predict s msg); apply cache_follows_refl.
    + rewrite call_chained. destruct (predict s msg) as [y | e];
        [| apply cache_follows_refl].
      specialize (IH (trigger_topic t) y c).
      by destruct (publish fuel (trigger_topic t) y c) as [[[r | e |] c1] evs].
  - rewrite (publish_no_callback _ _ _ _ Hq). by intros t.
  - rewrite (publish_unregistered _ _ _ _ Hq). by intros t.
Qed.


(** A [publish] that returns ends by storing the response it returns. *)
Lemma publish_returns_stored fuel topic msg c response c' evs :
  publish fuel topic msg c = (Returns response, c', evs) →
  last evs = Some (EvStored topic response) ∧ get_last_response topic c' = response.
Proof.
  destruct fuel as [| fuel]; [discriminate |].
  destruct (_message_queues c !! topic) as [[cb |] |] eqn:Hq.
  - rewrite (publish_registered _ _ _ _ _ Hq).
    destruct (call (publish fuel) cb msg c) as [[[r | e |] c1] evs1]; cbn;
      intros Heq; simplify_eq.
    split.
    + by rewrite last_cons, last_snoc.
    + unfold get_last_response. cbn. by rewrite lookup_insert_eq.
  - by rewrite (publish_no_callback _ _ _ _ Hq).
  - by rewrite (publish_unregistered _ _ _ _ Hq).
Qed.



(** ** Insertion-ordered dictionaries *)

Lemma pydict_get_elem {V} k (v : V) (d : pydict V) :
  PyDict.get k d = Some v → (k, v) ∈ d.
Proof.
  induction d as [| [k' v'] d IH]; cbn; [done |].
  destruct (decide (k = k')) as [-> | Hne]; intros Hg.
  - simplify_eq. apply elem_of_cons. by left.
  - apply elem_of_cons. right. by apply IH.
Qed.

Lemma pydict_get_None {V} k (d : pydict V) :
  PyDict.get k d = None ↔ k ∉ PyDict.keys d.
Proof.
  induction d as [| [k' v'] d IH]; cbn.
  - split; [intros _; by intros ?%elem_of_nil | done].
  - rewrite not_elem_of_cons. destruct (decide (k = k')) as [-> | Hne]; naive_solver.
Qed.

Lemma pydict_elem_get {V} k (v : V) (d : pydict V) :
  NoDup (PyDict.keys d) → (k, v) ∈ d → PyDict.get k d = Some v.
Proof.
  induction d as [| [k' v'] d IH]; cbn; intros Hnd Hin.
  - by apply elem_of_nil in Hin.
  - apply NoDup_cons in Hnd as [Hk' Hnd].
    apply elem_of_cons in Hin as [Heq | Hin].
    + simplify_eq. by rewrite decide_True.
    + destruct (decide (k = k')) as [-> | Hne]; [| by apply IH].
      exfalso. apply Hk'. apply list_elem_of_fmap. by exists (k', v).
Qed.

Lemma pydict_set_elem {V} k (v : V) (d : pydict V) k' v' :
  (k', v') ∈ PyDict.set k v d → (k', v') = (k, v) ∨ (k', v') ∈ d.
Proof.
  induction d as [| [k0 v0] d IH]; cbn.
  - intros [-> | []%elem_of_nil]%elem_of_cons. by left.
  - destruct (decide (k = k0)) as [-> | Hne];
      intros [Heq | Hin]%elem_of_cons.
    + by left.
    + right. apply elem_of_cons. by right.
    + right. apply elem_of_cons. by left.
    + destruct (IH Hin) as [? | ?]; [by left |]. right. apply elem_of_cons. by right.
Qed.

Lemma pydict_set_keys {V} k (v : V) (d : pydict V) k' :
  k' ∈ PyDict.keys (PyDict.set k v d) ↔ k' = k ∨ k' ∈ PyDict.keys d.
Proof.
  induction d as [| [k0 v0] d IH]; cbn.
  - rewrite elem_of_cons. naive_solver.
  - destruct (decide (k = k0)) as [-> | Hne]; cbn; rewrite !elem_of_cons.
    + naive_solver.
    + unfold PyDict.keys in IH. rewrite IH. naive_solver.
Qed.

Lemma pydict_set_NoDup {V} k (v : V) (d : pydict V) :
  NoDup (PyDict.keys d) → NoDup (PyDict.keys (PyDict.set k v d)).
Proof.
  induction d as [| [k0 v0] d IH]; cbn; intros Hnd.
  - apply NoDup_singleton.
  - apply NoDup_cons in Hnd as [Hk0 Hnd].
    destruct (decide (k = k0)) as [-> | Hne]; cbn.
    + by apply NoDup_cons.
    + apply NoDup_cons. split; [| by apply IH].
      intros [? | ?]%(pydict_set_keys k v d k0); [congruence | done].
Qed.

(** ** The registry: instances and wiring *)

Lemma instances_of_set seen acc cls :
  instances_of seen acc →
  instances_of (seen ++ [cls])
               (PyDict.set (name (new_service cls)) (new_service cls) acc).
Proof.
  intros (Hnd & Hfrom & Hall). cbn. split; [| split].
  - by apply pydict_set_NoDup.
  - intros k s [Heq | Hin]%pydict_set_elem.
    + simplify_eq. exists cls. split; [| done]. apply elem_of_app. right.
      apply elem_of_cons. by left.
    + destruct (Hfrom k s Hin) as (cls' & ? & ? & ?). exists cls'.
      split; [| done]. apply elem_of_app. by left.
  - intros cls' [Hin | Hin]%elem_of_app; apply pydict_set_keys.
    + right. by apply Hall.
    + left. apply elem_of_cons in Hin as [-> | []%elem_of_nil]. done.
Qed.

Lemma instances_of_foldl : ∀ l seen acc,
  instances_of seen acc →
  instances_of (seen ++ l)
    (foldl (λ instances service_class,
              let service := new_service service_class in
              PyDict.set (name service) service instances) acc l).
Proof.
  induction l as [| cls l IH]; intros seen acc Hacc; cbn.
  - by rewrite app_nil_r.
  - replace (seen ++ cls :: l) with ((seen ++ [cls]) ++ l) by by rewrite <- app_assoc.
    apply IH. by apply instances_of_set.
Qed.

(** The first loop of [_initialize_services] builds one instance per
    catalogued name. *)
Lemma create_instances_spec model_services :
  instances_of (PyDict.values model_services) (create_instances model_services).
Proof.
  unfold create_instances.
  apply (instances_of_foldl (PyDict.values model_services) [] PyDict.empty).
  split; [apply NoDup_nil_2 |]. split.
  - intros k s []%elem_of_nil.
  - intros cls []%elem_of_nil.
Qed.

Lemma for_each_setup_cons chains instances k s rest c :
  for_each (setup_topic chains instances) ((k, s) :: rest) c =
  match effective_callback chains instances k s with
  | Raise e => (Raises e, c, [])
  | Ok cb =>
      for_each (setup_topic chains instances) rest (register_topic (trigger_topic s) cb c)
  end.
Proof.
  cbn. unfold bind.
  destruct (effective_callback chains instances k s) as [cb | e]; cbn; [| done].
  by destruct (for_each _ rest _) as [[[[] | e |] c2] evs2].
Qed.

Lemma effective_callback_raises chains instances k s e :
  effective_callback chains instances k s = Raise e →
  ∃ target,
    chains !! k = Some target ∧ PyDict.get target instances = None ∧ e = KeyError target.
Proof.
  unfold effective_callback. destruct (chains !! k) as [target |]; [| done].
  destruct (PyDict.get target instances) eqn:Hg; [done |].
  intros [= <-]. eauto.
Qed.

(** The second loop raises [KeyError] as soon as it meets a service whose
    successor has no instance. *)
Lemma for_each_setup_raises chains instances : ∀ l c k s target,
  (k, s) ∈ l →
  chains !! k = Some target →
  PyDict.get target instances = None →
  ∃ source missing_target c' evs,
    chains !! source = Some missing_target
    ∧ PyDict.get missing_target instances = None
    ∧ for_each (setup_topic chains instances) l c
      = (Raises (KeyError missing_target), c', evs).
Proof.
  induction l as [| [k0 s0] l IH]; intros c k s target Hin Hch Hg.
  - by apply elem_of_nil in Hin.
  - rewrite for_each_setup_cons.
    destruct (effective_callback chains instances k0 s0) as [cb | e] eqn:Hcb.
    + apply elem_of_cons in Hin as [Heq | Hin].
      * simplify_eq. unfold effective_callback in Hcb. by rewrite Hch, Hg in Hcb.
      * by eapply IH.
    + apply effective_callback_raises in Hcb as (t & ? & ? & ->). by exists k0, t, c, [].
Qed.

(** When the second loop returns, it has registered nothing but callbacks:
    no event, no cache entry, and every service's topic holds the callback
    computed for it, provided the topics of the services differ. *)
Lemma for_each_setup_returns chains instances : ∀ l c c' evs,
  for_each (setup_topic chains instances) l c = (Returns tt, c', evs) →
  evs = []
  ∧ _last_responses c' = _last_responses c
  ∧ (∀ t, t ∉ (trigger_topic ∘ snd) <$> l → _message_queues c' !! t = _message_queues c !! t)
  ∧ (NoDup ((trigger_topic ∘ snd) <$> l) →
     ∀ k s, (k, s) ∈ l →
       ∃ cb, effective_callback chains instances k s = Ok cb
             ∧ _message_queues c' !! trigger_topic s = Some (Some cb)).
Proof.
  induction l as [| [k0 s0] l IH]; intros c c' evs Hrun.
  - cbn in Hrun. unfold ret in Hrun. simplify_eq.
    do 3 (split; [done |]). intros _ k s []%elem_of_nil.
  - rewrite for_each_setup_cons in Hrun.
    destruct (effective_callback chains instances k0 s0) as [cb0 | e] eqn:Hcb; [| done].
    destruct (IH _ _ _ Hrun) as (-> & Hcache & Hframe & Hwired).
    split; [done |]. split; [| split].
    + rewrite Hcache. apply register_topic_last_responses.
    + intros t [Hne Hnot]%not_elem_of_cons. rewrite (Hframe t Hnot).
      by apply register_topic_lookup_ne.
    + intros [Hfresh Hnd]%NoDup_cons k s [Heq | Hin]%elem_of_cons.
      * simplify_eq. exists cb0. split; [done |].
        rewrite (Hframe (trigger_topic s0) Hfresh). apply register_topic_lookup.
      * by apply Hwired.
Qed.

Lemma string_length_app (s t : string) :
  String.length (s +:+ t) = String.length s + String.length t.
Proof. induction s as [| a s IH]; simpl; [done | by f_equal]. Qed.

(** Different names give different trigger topics. *)
Lemma append_suffix_inj (t : string) : ∀ s1 s2, s1 +:+ t = s2 +:+ t → s1 = s2.
Proof.
  induction s1 as [| a s1 IH]; intros [| b s2] Heq.
  - done.
  - apply (f_equal String.length) in Heq.
    rewrite !string_length_app in Heq. simpl in Heq. lia.
  - apply (f_equal String.length) in Heq.
    rewrite !string_length_app in Heq. simpl in Heq. lia.
  - simpl in Heq. injection Heq as -> Heq. f_equal. by apply IH.
Qed.

Lemma instances_topics_NoDup classes (d : pydict ModelService) :
  instances_of classes d → NoDup ((trigger_topic ∘ snd) <$> PyDict.items d).
Proof.
  intros (Hnd & Hfrom & _). unfold PyDict.items, PyDict.keys in *.
  induction d as [| [k s] d IH]; cbn in *; [apply NoDup_nil_2 |].
  apply NoDup_cons in Hnd as [Hk Hnd]. apply NoDup_cons. split.
  - intros ([k' s'] & Heq & Hin)%list_elem_of_fmap. cbn in Heq. apply Hk.
    destruct (Hfrom k s) as (cls & _ & -> & ->); [apply elem_of_cons; by left |].
    destruct (Hfrom k' s') as (cls' & _ & -> & ->); [apply elem_of_cons; by right |].
    cbn in Heq. apply append_suffix_inj in Heq. rewrite Heq.
    apply list_elem_of_fmap. by exists (cls_NAME cls', new_service cls').
  - apply IH; [done |]. intros k' s' Hin. apply Hfrom. apply elem_of_cons. by right.
Qed.

(** What a registry that was constructed has done to the client: every
    instance's trigger topic holds the callback computed for the instance;
    nothing was published and no cache entry was written. *)
Lemma ModelRegistry_init_wires cls c registry c' evs :
  ModelRegistry_init cls c = (Returns registry, c', evs) →
  _service_instances registry = create_instances (_model_services cls)
  ∧ evs = []
  ∧ _last_responses c' = _last_responses c
  ∧ ∀ service_name service,
      PyDict.get service_name (_service_instances registry) = Some service →
      ∃ cb,
        effective_callback (_chains cls) (_service_instances registry)
                           service_name service = Ok cb
        ∧ _message_queues c' !! trigger_topic service = Some (Some cb).
Proof.
  unfold ModelRegistry_init, _initialize_services, bind, ret.
  destruct (for_each _ _ c) as [[[[] | e |] c1] evs1] eqn:Hrun; cbn; [| done | done].
  intros Heq. simplify_eq. cbn.
  destruct (for_each_setup_returns _ _ _ _ _ _ Hrun) as (-> & Hcache & _ & Hwired).
  pose proof (create_instances_spec (_model_services cls)) as Hinst.
  repeat split; [done |].
  intros service_name service Hget.
  apply Hwired; [by eapply instances_topics_NoDup | by apply pydict_get_elem].
Qed.

(** C7: when a catalogued service class is chained to a name under which
    no class is catalogued, constructing the registry raises [KeyError] for
    a successor name that is missing from the catalogue, whatever the
    client; no registry is returned. *)
Theorem registry_construction_fails_fast cls c source target :
  source ∈ PyDict.values (_model_services cls) →
  _chains cls !! cls_NAME source = Some target →
  (∀ k, k ∈ PyDict.values (_model_services cls) → cls_NAME k ≠ target) →
  ∃ chained missing c' evs,
    ModelRegistry_init cls c = (Raises (KeyError missing), c', evs)
    ∧ _chains cls !! chained = Some missing
    ∧ ∀ k, k ∈ PyDict.values (_model_services cls) → cls_NAME k ≠ missing.
Proof.
  intros Hsrc Hch Hnone.
  destruct (create_instances_spec (_model_services cls)) as (Hnd & Hfrom & Hall).
  assert (∀ t, (∀ k, k ∈ PyDict.values (_model_services cls) → cls_NAME k ≠ t) ↔
               PyDict.get t (create_instances (_model_services cls)) = None) as Hmiss.
  { intros t. rewrite pydict_get_None. split.
    - intros Hno ([k s] & -> & Hin)%list_elem_of_fmap. cbn in Hno.
      destruct (Hfrom k s Hin) as (k' & Hk' & _ & ->). by eapply Hno.
    - intros Hno k Hk <-. by apply Hno, Hall. }
  apply Hall in Hsrc as ([k s] & Hk & Hin)%list_elem_of_fmap. cbn in Hk. subst k.
  destruct (for_each_setup_raises (_chains cls) _ _ c _ _ _ Hin Hch (proj1 (Hmiss _) Hnone))
    as (chained & missing & c' & evs & Hch' & Hget & Hrun).
  exists chained, missing, c', evs. split; [| split].
  - unfold ModelRegistry_init, _initialize_services, bind.
    unfold PyDict.items in Hrun |- *. by rewrite Hrun.
  - exact Hch'.
  - by apply Hmiss.
Qed.

(** Entity linking catalogued and chained to the summarization service,
    which is not catalogued: construction raises
    [KeyError("entity-summarization")]. *)
Lemma registry_construction_fails_fast_witness :
  _chains example.catalogue_dangling !! "entity-linking" = Some "entity-summarization"
  ∧ model_names example.catalogue_dangling = ["entity-linking"]
  ∧ ModelRegistry_init example.catalogue_dangling PubSubClient_init
    = (Raises (KeyError "entity-summarization"), PubSubClient_init, [])
  ∧ ∃ chained missing c' evs,
      ModelRegistry_init example.catalogue_dangling PubSubClient_init
      = (Raises (KeyError missing), c', evs)
      ∧ _chains example.catalogue_dangling !! chained = Some missing
      ∧ ∀ k, k ∈ PyDict.values (_model_services example.catalogue_dangling) →
             cls_NAME k ≠ missing.
Proof.
  split; [vm_compute; reflexivity |].
  split; [vm_compute; reflexivity |].
  split; [vm_compute; reflexivity |].
  apply (registry_construction_fails_fast example.catalogue_dangling PubSubClient_init
           example.linking "entity-summarization").
  - apply elem_of_cons. by left.
  - vm_compute. reflexivity.
  - intros k [-> | []%elem_of_nil]%elem_of_cons. discriminate.
Defined.

(** ** Services without a successor *)

(** C8: once a registry is constructed, the topic of a service without a
    declared successor holds the service's own [predict]; running that
    callback on any client, with any input, publishes nothing and returns
    the client as it was, callbacks and cached responses alike, with the
    outcome of [predict]. *)
Theorem unchained_service_publishes_nothing cls c0 registry c evs0 service_name service :
  ModelRegistry_init cls c0 = (Returns registry, c, evs0) →
  PyDict.get service_name (_service_instances registry) = Some service →
  _chains cls !! service_name = None →
  _message_queues c !! trigger_topic service = Some (Some (BoundPredict service))
  ∧ ∀ fuel msg c1,
      call (publish fuel) (BoundPredict service) msg c1
      = (outcome_of (predict service msg), c1, []).
Proof.
  intros Hinit Hget Hch.
  destruct (ModelRegistry_init_wires _ _ _ _ _ Hinit) as (_ & _ & _ & Hwired).
  destruct (Hwired _ _ Hget) as (cb & Hcb & Hq).
  unfold effective_callback in Hcb. rewrite Hch in Hcb. simplify_eq.
  split; [exact Hq |].
  intros fuel msg c1. rewrite call_bound_predict. by destruct (predict service msg).
Qed.

(** The summarization service of the deployment has no successor. *)
Lemma unchained_service_publishes_nothing_witness :
  let service := new_service example.summarization in
  let c := example.wired example.catalogue in
  ModelRegistry_init example.catalogue PubSubClient_init
  = (Returns (example.constructed example.catalogue), c, [])
  ∧ _chains example.catalogue !! "entity-summarization" = None
  ∧ _message_queues c !! "entity-summarization-trigger" = Some (Some (BoundPredict service))
  ∧ ∀ fuel msg c1,
      call (publish fuel) (BoundPredict service) msg c1
      = (outcome_of (predict service msg), c1, []).
Proof.
  intros service c.
  assert (ModelRegistry_init example.catalogue PubSubClient_init
          = (Returns (example.constructed example.catalogue), c, [])) as Hinit
    by (vm_compute; reflexivity).
  split; [exact Hinit |].
  split; [vm_compute; reflexivity |].
  apply (unchained_service_publishes_nothing example.catalogue PubSubClient_init
           (example.constructed example.catalogue) c [] "entity-summarization" service Hinit).
  - vm_compute. reflexivity.
  - vm_compute. reflexivity.
Defined.

(** ** Chained services *)

(** More fuel does not change a run that finished. *)
Lemma publish_fuel_mono fuel : ∀ topic msg c o c' evs,
  publish fuel topic msg c = (o, c', evs) →
  o ≠ OutOfFuel →
  publish (S fuel) topic msg c = (o, c', evs).
Proof.
  induction fuel as [| fuel IH]; intros topic msg c o c' evs Hp Ho.
  - cbn in Hp. unfold out_of_fuel in Hp. by simplify_eq.
  - destruct (_message_queues c !! topic) as [[cb |] |] eqn:Hq.
    + rewrite (publish_registered fuel _ _ _ _ Hq) in Hp.
      rewrite (publish_registered (S fuel) _ _ _ _ Hq).
      destruct cb as [s | s t].
      * by rewrite call_bound_predict in Hp |- *.
      * rewrite call_chained in Hp. rewrite call_chained.
        destruct (predict s msg) as [y | e]; [| done].
        destruct (publish fuel (trigger_topic t) y c) as [[o1 c1] evs1] eqn:Hin.
        assert (o1 ≠ OutOfFuel) as Ho1.
        { intros ->. cbn in Hp. by simplify_eq. }
        by rewrite (IH _ _ _ _ _ _ Hin Ho1).
    + rewrite (publish_no_callback fuel _ _ _ Hq) in Hp.
      by rewrite (publish_no_callback (S fuel) _ _ _ Hq).
    + rewrite (publish_unregistered fuel _ _ _ Hq) in Hp.
      by rewrite (publish_unregistered (S fuel) _ _ _ Hq).
Qed.

Lemma published_topics_app evs1 evs2 :
  published_topics (evs1 ++ evs2) = published_topics evs1 ++ published_topics evs2.
Proof. unfold published_topics. apply omap_app. Qed.

(** The [publish] calls of a run that returns are those of the route that
    the table of callbacks lays out, and the first one is the call itself. *)
Lemma publish_returns_route fuel : ∀ topic msg c r c' evs,
  publish fuel topic msg c = (Returns r, c', evs) →
  route (_message_queues c) fuel topic = Some (published_topics evs)
  ∧ ∃ evs', evs = EvPublish topic msg :: evs'.
Proof.
  induction fuel as [| fuel IH]; intros topic msg c r c' evs Hp; [discriminate |].
  destruct (_message_queues c !! topic) as [[cb |] |] eqn:Hq.
  - rewrite (publish_registered _ _ _ _ _ Hq) in Hp. cbn [route]. rewrite Hq.
    destruct cb as [s | s t].
    + rewrite call_bound_predict in Hp.
      destruct (predict s msg); cbn in Hp; simplify_eq. split; [done | eauto].
    + rewrite call_chained in Hp.
      destruct (predict s msg) as [y | e]; [| by cbn in Hp].
      destruct (publish fuel (trigger_topic t) y c) as [[[r1 | e |] c1] evs1] eqn:Hin;
        cbn in Hp; simplify_eq.
      destruct (IH _ _ _ _ _ _ Hin) as [Hroute _]. rewrite Hroute. split; [| eauto].
      cbn. f_equal. change (EvPublish topic msg :: evs1 ++ [EvStored topic r])
        with ([EvPublish topic msg] ++ evs1 ++ [EvStored topic r]).
      rewrite !published_topics_app. cbn. by rewrite app_nil_r.
  - by rewrite (publish_no_callback _ _ _ _ Hq) in Hp.
  - by rewrite (publish_unregistered _ _ _ _ Hq) in Hp.
Qed.

Lemma route_mono queues : ∀ (n m : nat) topic l,
  (n ≤ m)%nat → route queues n topic = Some l → route queues m topic = Some l.
Proof.
  induction n as [| n IH]; intros m topic l Hle Hr; [discriminate |].
  destruct m as [| m]; [lia |]. cbn in Hr |- *.
  destruct (queues !! topic) as [[[s | s t] |] |]; try done.
  destruct (route queues n (trigger_topic t)) as [l' |] eqn:Hin; [| done].
  rewrite (IH m _ l'); [done | lia | done].
Qed.

(** Every later stop of a route starts the rest of the route. *)
Lemma route_suffix queues : ∀ n topic l k x,
  route queues n topic = Some l →
  l !! k = Some x →
  route queues (n - k) x = Some (drop k l).
Proof.
  induction n as [| n IH]; intros topic l k x Hr Hk; [discriminate |].
  destruct k as [| k].
  - cbn [drop]. replace (S n - 0) with (S n) by lia.
    assert (x = topic) as ->; [| done].
    cbn in Hr. destruct (queues !! topic) as [[[s | s t] |] |]; try done.
    + by simplify_eq/=.
    + destruct (route queues n (trigger_topic t)); by simplify_eq/=.
  - cbn in Hr. destruct (queues !! topic) as [[[s | s t] |] |]; try done.
    + by simplify_eq/=.
    + destruct (route queues n (trigger_topic t)) as [l' |] eqn:Hin; [| done].
      cbn in Hr. simplify_eq. cbn in Hk |- *. by eapply IH.
Qed.

(** A route passes through no topic twice. *)
Lemma route_NoDup queues : ∀ n topic l,
  route queues n topic = Some l → NoDup l.
Proof.
  induction n as [| n IH]; intros topic l Hr; [discriminate |].
  pose proof Hr as Hr0. cbn in Hr.
  destruct (queues !! topic) as [[[s | s t] |] |]; try done.
  - simplify_eq. apply NoDup_singleton.
  - destruct (route queues n (trigger_topic t)) as [l' |] eqn:Hin; [| done].
    cbn in Hr. simplify_eq. apply NoDup_cons. split; [| by eapply IH].
    intros [k Hk]%list_elem_of_lookup.
    pose proof (route_suffix queues (S n) topic (topic :: l') (S k) topic Hr0 Hk) as Hs.
    apply (route_mono _ _ (S n)) in Hs; [| lia].
    rewrite Hr0 in Hs. injection Hs as Hs.
    apply (f_equal length) in Hs. rewrite length_drop in Hs.
    apply lookup_lt_Some in Hk. cbn in Hs. lia.
Qed.

Lemma publishes_to_unpublished topic evs :
  topic ∉ published_topics evs → publishes_to topic evs = [].
Proof.
  induction evs as [| [t m | t r] evs IH]; cbn; [done | | done].
  intros [Hne Hnot]%not_elem_of_cons. rewrite decide_False by done. by apply IH.
Qed.

(** A [publish] that returns has published to its own topic exactly once,
    with its own message. *)
Lemma publish_returns_once fuel topic msg c r c' evs :
  publish fuel topic msg c = (Returns r, c', evs) →
  publishes_to topic evs = [msg].
Proof.
  intros Hp. destruct (publish_returns_route _ _ _ _ _ _ _ Hp) as [Hroute [evs' ->]].
  apply route_NoDup in Hroute. cbn in Hroute |- *.
  apply NoDup_cons in Hroute as [Hnot _].
  rewrite decide_True by done. f_equal. by apply publishes_to_unpublished.
Qed.

Lemma publish_first_event fuel topic msg c :
  ∃ evs', (publish (S fuel) topic msg c).2 = EvPublish topic msg :: evs'.
Proof.
  destruct (_message_queues c !! topic) as [[cb |] |] eqn:Hq.
  - rewrite (publish_registered _ _ _ _ _ Hq).
    destruct (call (publish fuel) cb msg c) as [[[r | e |] c1] evs1]; cbn; eauto.
  - rewrite (publish_no_callback _ _ _ _ Hq). cbn. eauto.
  - rewrite (publish_unregistered _ _ _ _ Hq). cbn. eauto.
Qed.

(** C2, as the code has it: in a constructed registry the topic of a
    service chained to a successor holds the chained callback.  Run on an
    input for which the service's [predict] yields [Y], the callback does
    what the publish of [Y] to the successor's trigger topic does, that
    publish being its first action: if the publish returns, the callback
    returns [Y], and the run made exactly one publish to the successor's
    topic, with message [Y]; if the publish raises, the callback raises the
    same error and returns nothing. *)
Theorem chained_service_forwards_output cls c0 registry c evs0 source_name source target_name :
  ModelRegistry_init cls c0 = (Returns registry, c, evs0) →
  PyDict.get source_name (_service_instances registry) = Some source →
  _chains cls !! source_name = Some target_name →
  ∃ target,
    PyDict.get target_name (_service_instances registry) = Some target
    ∧ _message_queues c !! trigger_topic source
      = Some (Some (ChainedCallback source target))
    ∧ ∀ fuel X Y c1 o c2 evs,
        predict source X = Ok Y →
        publish fuel (trigger_topic target) Y c1 = (o, c2, evs) →
        call (publish fuel) (ChainedCallback source target) X c1
        = (match o with
           | Returns _ => Returns Y
           | Raises e => Raises e
           | OutOfFuel => OutOfFuel
           end, c2, evs)
        ∧ (fuel ≠ 0 → ∃ evs', evs = EvPublish (trigger_topic target) Y :: evs')
        ∧ (∀ r, o = Returns r → publishes_to (trigger_topic target) evs = [Y]).
Proof.
  intros Hinit Hget Hch.
  destruct (ModelRegistry_init_wires _ _ _ _ _ Hinit) as (_ & _ & _ & Hwired).
  destruct (Hwired _ _ Hget) as (cb & Hcb & Hq).
  unfold effective_callback in Hcb. rewrite Hch in Hcb.
  destruct (PyDict.get target_name (_service_instances registry)) as [target |];
    [| done].
  simplify_eq. exists target. split; [done |]. split; [exact Hq |].
  intros fuel X Y c1 o c2 evs Hpred Hpub. split; [| split].
  - rewrite call_chained, Hpred, Hpub. by destruct o.
  - destruct fuel as [| fuel]; [done |]. intros _.
    destruct (publish_first_event fuel (trigger_topic target) Y c1) as [evs' Hev].
    rewrite Hpub in Hev. eauto.
  - intros r ->. by eapply publish_returns_once.
Qed.

(** In the deployment, entity linking is chained to summarization: on the
    recognised document the chained callback publishes the linked document
    once and returns it. *)
Lemma chained_service_forwards_output_witness :
  let cls := example.catalogue in
  let c := example.wired cls in
  let source := new_service example.linking in
  let run := publish 1 "entity-summarization-trigger" example.linked c in
  ModelRegistry_init cls PubSubClient_init = (Returns (example.constructed cls), c, [])
  ∧ _chains cls !! "entity-linking" = Some "entity-summarization"
  ∧ predict source example.recognized = Ok example.linked
  ∧ ∃ target,
      PyDict.get "entity-summarization" (create_instances (_model_services cls))
      = Some target
      ∧ _message_queues c !! "entity-linking-trigger"
        = Some (Some (ChainedCallback source target))
      ∧ (call (publish 1) (ChainedCallback source target) example.recognized c).1.1
        = Returns example.linked
      ∧ publishes_to (trigger_topic target) run.2 = [example.linked].
Proof.
  intros cls c source run.
  assert (ModelRegistry_init cls PubSubClient_init
          = (Returns (example.constructed cls), c, [])) as Hinit
    by (vm_compute; reflexivity).
  assert (predict source example.recognized = Ok example.linked) as Hpred
    by (vm_compute; reflexivity).
  split; [exact Hinit |]. split; [vm_compute; reflexivity |]. split; [exact Hpred |].
  destruct (chained_service_forwards_output cls PubSubClient_init
              (example.constructed cls) c [] "entity-linking" source
              "entity-summarization" Hinit)
    as (target & Hget & Hq & Hrun); [vm_compute; reflexivity | vm_compute; reflexivity |].
  exists target. split; [exact Hget |]. split; [exact Hq |].
  assert (target = new_service example.summarization) as Htarget.
  { vm_compute in Hget. by injection Hget as <-. }
  destruct (Hrun 1 example.recognized example.linked c run.1.1 run.1.2 run.2 Hpred)
    as (Hcall & _ & Honce).
  { rewrite Htarget. change (run = (run.1.1, run.1.2, run.2)).
    generalize run. by intros [[o c2] evs]. }
  split.
  - rewrite Hcall. vm_compute. reflexivity.
  - apply (Honce example.summarized). vm_compute. reflexivity.
Defined.

(** With a summarization model that cannot be loaded, entity linking is
    still chained to summarization and accepts the recognised document, its
    [predict] yields the linked document, and yet the chained callback
    raises instead of returning it, whatever the fuel. *)
Lemma chained_callback_raises_when_successor_fails :
  let cls := example.catalogue_unloadable in
  let c := example.wired cls in
  let A := new_service example.linking in
  let B := new_service example.summarization_unloadable in
  ModelRegistry_init cls PubSubClient_init = (Returns (example.constructed cls), c, [])
  ∧ _chains cls !! name A = Some (name B)
  ∧ _message_queues c !! trigger_topic A = Some (Some (ChainedCallback A B))
  ∧ conforms (get_input_schema A) example.recognized = true
  ∧ predict A example.recognized = Ok example.linked
  ∧ ∀ fuel,
      call (publish (S fuel)) (ChainedCallback A B) example.recognized c
      = (Raises (OtherError "OSError" "facebook/bart-large-cnn"), c,
         [EvPublish (trigger_topic B) example.linked]).
Proof.
  intros cls c A B.
  assert (predict A example.recognized = Ok example.linked) as Hpred
    by (vm_compute; reflexivity).
  split; [vm_compute; reflexivity |]. split; [vm_compute; reflexivity |].
  split; [vm_compute; reflexivity |]. split; [vm_compute; reflexivity |].
  split; [exact Hpred |].
  intros fuel. rewrite call_chained, Hpred.
  assert (_message_queues c !! trigger_topic B = Some (Some (BoundPredict B))) as Hq
    by (vm_compute; reflexivity).
  rewrite (publish_registered fuel _ _ _ _ Hq), call_bound_predict.
  assert (predict B example.linked
          = Raise (OtherError "OSError" "facebook/bart-large-cnn")) as ->
    by (vm_compute; reflexivity).
  reflexivity.
Defined.

(** ** The schema of an inference result *)

Lemma model_validate_class cls data instance :
  model_validate cls data = Ok instance → model_class instance = class_name cls.
Proof.
  unfold model_validate. destruct (validate_fields (model_fields cls) data) as [vals errs].
  destruct errs; [| done]. by intros [= <-].
Qed.

(** Reads a chain of [let?] that ended in [Ok]. *)
Ltac bind_ok H :=
  repeat match type of H with
         | result_bind ?r _ = Ok _ =>
             let E := fresh "E" in
             destruct r eqn:E; cbn [result_bind] in H; [| discriminate H]
         end.

(** The inference steps of the three services of the repository build
    their result with the schema the service declares as its output. *)
Lemma services_return_declared_schema uuid4 ner wiki load summarize cls input out :
  cls ∈ [services.EntityRecognitionModelService uuid4 ner;
         services.EntityLinkingModelService uuid4 wiki;
         services.EntitySummarizationModelService load summarize] →
  cls_predict cls input = Ok out →
  model_class out = class_name (cls_get_output_schema cls).
Proof.
  intros Hcls Hout.
  repeat (apply elem_of_cons in Hcls as [-> | Hcls]); [| | | by apply elem_of_nil in Hcls];
    cbn in Hout |- *.
  - unfold services.EntityRecognition_predict in Hout. bind_ok Hout.
    by apply model_validate_class in Hout.
  - unfold services.EntityLinking_predict in Hout. bind_ok Hout.
    by apply model_validate_class in Hout.
  - unfold services.EntitySummarization_predict in Hout. bind_ok Hout.
    by apply model_validate_class in Hout.
Qed.

(** * Further properties *)

(** ** The registry: construction, lookup and the decorators *)

Lemma pydict_keys_elem {V} k (d : pydict V) :
  k ∈ PyDict.keys d ↔ ∃ v, (k, v) ∈ d.
Proof.
  unfold PyDict.keys. rewrite list_elem_of_fmap. split.
  - intros ([k' v] & -> & Hin). by exists v.
  - intros [v Hin]. by exists (k, v).
Qed.

Lemma pydict_get_is_Some {V} k (d : pydict V) :
  k ∈ PyDict.keys d → ∃ v, PyDict.get k d = Some v.
Proof.
  intros Hin. destruct (PyDict.get k d) as [v |] eqn:Hg; [by exists v |].
  by apply pydict_get_None in Hg.
Qed.

Lemma for_each_setup_ok chains instances : ∀ l c,
  (∀ k s, (k, s) ∈ l → ∃ cb, effective_callback chains instances k s = Ok cb) →
  ∃ c', for_each (setup_topic chains instances) l c = (Returns tt, c', []).
Proof.
  induction l as [| [k s] l IH]; intros c Hok.
  - by exists c.
  - rewrite for_each_setup_cons.
    destruct (Hok k s) as [cb ->]; [apply elem_of_cons; by left |].
    apply IH. intros k' s' Hin. apply Hok. apply elem_of_cons. by right.
Qed.

(** The name under which a successor is looked up has an instance exactly
    when a class of that name is catalogued. *)
Lemma create_instances_get_None model_services target :
  PyDict.get target (create_instances model_services) = None ↔
  ∀ k, k ∈ PyDict.values model_services → cls_NAME k ≠ target.
Proof.
  destruct (create_instances_spec model_services) as (Hnd & Hfrom & Hall).
  rewrite pydict_get_None. split.
  - intros Hno k Hk <-. by apply Hno, Hall.
  - intros Hno [s Hin]%pydict_keys_elem.
    destruct (Hfrom _ _ Hin) as (k & Hk & _ & ->). by eapply Hno.
Qed.

(** With the instances constructed, the wiring loop is the one step that
    can raise, and it raises exactly for a chain to a missing successor. *)
Lemma ModelRegistry_init_returns_iff cls c :
  (∃ registry c' evs, ModelRegistry_init cls c = (Returns registry, c', evs))
  ↔ chains_closed cls.
Proof.
  destruct (create_instances_spec (_model_services cls)) as (Hnd & Hfrom & Hall).
  split.
  - intros (registry & c' & evs & Hinit) source target Hsrc Hch.
    destruct (ModelRegistry_init_wires _ _ _ _ _ Hinit) as (Hreg & _ & _ & Hwired).
    destruct (pydict_get_is_Some _ _ (Hall _ Hsrc)) as [s Hs]. rewrite <- Hreg in Hs.
    destruct (Hwired _ _ Hs) as (cb & Hcb & _).
    unfold effective_callback in Hcb. rewrite Hch, Hreg in Hcb.
    destruct (PyDict.get target (create_instances (_model_services cls))) as [t |] eqn:Hg;
      [| done].
    apply pydict_get_elem in Hg. destruct (Hfrom _ _ Hg) as (k & Hk & _ & ->). eauto.
  - intros Hclosed.
    destruct (for_each_setup_ok (_chains cls) (create_instances (_model_services cls))
                (PyDict.items (create_instances (_model_services cls))) c) as [c' Hrun].
    { intros k s Hin. unfold effective_callback.
      destruct (_chains cls !! k) as [target |] eqn:Hch; [| eauto].
      destruct (Hfrom _ _ Hin) as (source & Hsrc & _ & ->).
      destruct (Hclosed _ _ Hsrc Hch) as (k & Hk & <-).
      destruct (pydict_get_is_Some _ _ (Hall _ Hk)) as [t ->]. eauto. }
    exists {| _service_instances := create_instances (_model_services cls) |}, c', [].
    unfold ModelRegistry_init, _initialize_services, bind. by rewrite Hrun.
Qed.

(** X1: when the construction of a registry returns, every chain declared
    for a catalogued class names a catalogued class; the registry holds one
    instance per catalogued name, nothing was published, no cached response
    was written, and the callback of every topic that is not the trigger
    topic of a catalogued name is as it was. *)
Theorem registry_construction_returns_closed cls c registry c' evs :
  ModelRegistry_init cls c = (Returns registry, c', evs) →
  chains_closed cls
  ∧ _service_instances registry = create_instances (_model_services cls)
  ∧ evs = []
  ∧ _last_responses c' = _last_responses c
  ∧ ∀ t, (∀ k, k ∈ PyDict.values (_model_services cls) →
               t ≠ cls_NAME k +:+ "-trigger") →
         _message_queues c' !! t = _message_queues c !! t.
Proof.
  intros Hinit.
  split; [apply (ModelRegistry_init_returns_iff cls c); eauto |].
  destruct (ModelRegistry_init_wires _ _ _ _ _ Hinit) as (Hreg & -> & Hcache & _).
  do 3 (split; [done |]). intros t Ht.
  revert Hinit. unfold ModelRegistry_init, _initialize_services, bind.
  destruct (for_each _ _ c) as [[[[] | e |] c1] evs1] eqn:Hrun; cbn; [| done | done].
  intros Heq. simplify_eq.
  destruct (for_each_setup_returns _ _ _ _ _ _ Hrun) as (_ & _ & Hframe & _).
  apply Hframe. intros ([k s] & -> & Hin)%list_elem_of_fmap.
  destruct (create_instances_spec (_model_services cls)) as (_ & Hfrom & _).
  destruct (Hfrom _ _ Hin) as (k' & Hk' & -> & _). by eapply Ht.
Qed.

(** The construction of the deployment's registry over a fresh client. *)
Lemma registry_construction_returns_closed_witness :
  let c := example.wired example.catalogue in
  ModelRegistry_init example.catalogue PubSubClient_init
  = (Returns (example.constructed example.catalogue), c, [])
  ∧ chains_closed example.catalogue
  ∧ _last_responses c = _last_responses PubSubClient_init
  ∧ _message_queues c !! "entity-linking" = _message_queues PubSubClient_init !! "entity-linking".
Proof.
  intros c.
  assert (ModelRegistry_init example.catalogue PubSubClient_init
          = (Returns (example.constructed example.catalogue), c, [])) as Hinit
    by (vm_compute; reflexivity).
  split; [exact Hinit |].
  destruct (registry_construction_returns_closed _ _ _ _ _ Hinit)
    as (Hclosed & _ & _ & Hcache & Hframe).
  split; [exact Hclosed |]. split; [exact Hcache |].
  apply Hframe. intros k Hk.
  repeat (apply elem_of_cons in Hk as [-> | Hk]; [discriminate |]).
  by apply elem_of_nil in Hk.
Defined.

Lemma decorated_services cls :
  decorated cls →
  NoDup (PyDict.keys (_model_services cls))
  ∧ ∀ k v, (k, v) ∈ _model_services cls → k = cls_NAME v.
Proof.
  induction 1 as [| c cls _ [Hnd Hkeys] | t s cls _ IH]; cbn.
  - split; [apply NoDup_nil_2 | intros k v []%elem_of_nil].
  - split; [by apply pydict_set_NoDup |].
    intros k v [Heq | Hin]%pydict_set_elem; [by simplify_eq | by apply Hkeys].
  - exact IH.
Qed.

(** Over a catalogue built by the decorators, the instance kept under a
    name is the fresh instance of the class catalogued under that name. *)
Lemma create_instances_get cls n :
  decorated cls →
  PyDict.get n (create_instances (_model_services cls))
  = new_service <$> PyDict.get n (_model_services cls).
Proof.
  intros [Hnd Hkeys]%decorated_services.
  destruct (create_instances_spec (_model_services cls)) as (Hnd' & Hfrom & Hall).
  destruct (PyDict.get n (_model_services cls)) as [k |] eqn:Hg; cbn.
  - apply pydict_get_elem in Hg. pose proof (Hkeys _ _ Hg) as ->.
    assert (k ∈ PyDict.values (_model_services cls)) as Hk.
    { apply list_elem_of_fmap. by exists (cls_NAME k, k). }
    destruct (pydict_get_is_Some _ _ (Hall _ Hk)) as [s Hs]. rewrite Hs.
    apply pydict_get_elem in Hs. destruct (Hfrom _ _ Hs) as (k' & Hk' & -> & Hname).
    apply list_elem_of_fmap in Hk' as ([n k''] & -> & Hin'). cbn in Hname.
    pose proof (Hkeys _ _ Hin') as ->. rewrite <- Hname in Hin'.
    apply (pydict_elem_get _ _ _ Hnd) in Hg, Hin'. by simplify_eq.
  - destruct (PyDict.get n (create_instances (_model_services cls)))
      as [s |] eqn:Hs; [| done].
    exfalso. apply pydict_get_elem in Hs. destruct (Hfrom _ _ Hs) as (k & Hk & _ & ->).
    apply list_elem_of_fmap in Hk as ([n k'] & -> & Hin). cbn in Hg.
    pose proof (Hkeys _ _ Hin) as ->.
    apply pydict_get_None in Hg. apply Hg. apply pydict_keys_elem. eauto.
Qed.

(** X2: over a catalogue built by the decorators, [model_names] lists each
    name once, and [get_model] on the constructed registry returns the fresh
    instance of the class catalogued under the requested name, or raises
    [ValueError] when no class is catalogued under it. *)
Theorem get_model_finds_catalogued cls model_name :
  decorated cls →
  NoDup (model_names cls)
  ∧ get_model {| _service_instances := create_instances (_model_services cls) |} model_name
    = match PyDict.get model_name (_model_services cls) with
      | Some model_service_class => Ok (new_service model_service_class)
      | None => Raise (ValueError ("Model service '" +:+ model_name +:+ "' not found."))
      end.
Proof.
  intros Hdec. split; [by apply decorated_services |].
  unfold get_model. cbn. rewrite (create_instances_get _ _ Hdec).
  by destruct (PyDict.get model_name (_model_services cls)).
Qed.

Lemma example_catalogue_decorated : decorated example.catalogue.
Proof. repeat constructor. Qed.

(** In the deployment, [get_model] finds the linking service and rejects a
    name that is not catalogued. *)
Lemma get_model_finds_catalogued_witness :
  decorated example.catalogue
  ∧ model_names example.catalogue
    = ["entity-summarization"; "entity-linking"; "entity-recognition"]
  ∧ get_model (example.constructed example.catalogue) "entity-linking"
    = Ok (new_service example.linking)
  ∧ get_model (example.constructed example.catalogue) "translation"
    = Raise (ValueError "Model service 'translation' not found.").
Proof.
  split; [exact example_catalogue_decorated |]. split; [reflexivity |].
  pose proof (λ n, proj2 (get_model_finds_catalogued example.catalogue n
                            example_catalogue_decorated)) as Hget.
  split; [exact (Hget "entity-linking") | exact (Hget "translation")].
Defined.

(** X3: the decorators compose as dictionary assignments do.  A second
    [chain_to] for the same source replaces the first; [register] and
    [chain_to] commute; registering a class under a name that is already
    catalogued replaces the class and leaves [model_names] as it was, and a
    new name goes last. *)
Theorem decorators_compose t1 t2 s k cls :
  chain_to t2 s (chain_to t1 s cls) = chain_to t2 s cls
  ∧ register k (chain_to t1 s cls) = chain_to t1 s (register k cls)
  ∧ PyDict.get (cls_NAME k) (_model_services (register k cls)) = Some k
  ∧ model_names (register k cls)
    = if decide (cls_NAME k ∈ model_names cls) then model_names cls
      else model_names cls ++ [cls_NAME k].
Proof.
  split; [| split; [| split]].
  - unfold chain_to. cbn. f_equal. apply insert_insert_eq.
  - reflexivity.
  - cbn. generalize (_model_services cls). intros d.
    induction d as [| [k0 v0] d IH]; cbn.
    + by rewrite decide_True.
    + destruct (decide (cls_NAME k = k0)) as [<- | Hne]; cbn.
      * by rewrite decide_True.
      * by rewrite decide_False.
  - unfold model_names. cbn. generalize (_model_services cls). intros d.
    induction d as [| [k0 v0] d IH]; cbn.
    + rewrite decide_False; [done | by intros ?%elem_of_nil].
    + destruct (decide (cls_NAME k = k0)) as [<- | Hne]; cbn.
      * rewrite decide_True; [done | apply elem_of_cons; by left].
      * unfold PyDict.keys in IH. rewrite IH.
        destruct (decide (cls_NAME k ∈ map fst d)) as [Hin | Hnin].
        -- rewrite decide_True; [done | apply elem_of_cons; by right].
        -- rewrite decide_False; [done |].
           intros [? | ?]%elem_of_cons; [done | by apply Hnin].
Qed.

(** What construction does to the table of callbacks, topic by topic. *)
Lemma ModelRegistry_init_table cls c registry c' evs :
  ModelRegistry_init cls c = (Returns registry, c', evs) →
  let instances := create_instances (_model_services cls) in
  _last_responses c' = _last_responses c
  ∧ (∀ t, t ∉ (trigger_topic ∘ snd) <$> instances →
          _message_queues c' !! t = _message_queues c !! t)
  ∧ (∀ k s, (k, s) ∈ instances →
       ∃ cb, effective_callback (_chains cls) instances k s = Ok cb
             ∧ _message_queues c' !! trigger_topic s = Some (Some cb)).
Proof.
  unfold ModelRegistry_init, _initialize_services, bind.
  destruct (for_each _ _ c) as [[[[] | e |] c1] evs1] eqn:Hrun; cbn; [| done | done].
  intros Heq. simplify_eq.
  destruct (for_each_setup_returns _ _ _ _ _ _ Hrun) as (_ & Hcache & Hframe & Hwired).
  split; [done |]. split; [exact Hframe |].
  apply Hwired. eapply instances_topics_NoDup, create_instances_spec.
Qed.

Lemma pydict_get_Permutation {V} (d1 d2 : pydict V) n :
  d1 ≡ₚ d2 → NoDup (PyDict.keys d1) → PyDict.get n d1 = PyDict.get n d2.
Proof.
  intros Hperm Hnd1.
  assert (NoDup (PyDict.keys d2)) as Hnd2.
  { unfold PyDict.keys in *. by rewrite <- Hperm. }
  destruct (PyDict.get n d1) as [v |] eqn:Hg.
  - symmetry. apply pydict_elem_get; [done |]. rewrite <- Hperm. by apply pydict_get_elem.
  - symmetry. apply pydict_get_None. apply pydict_get_None in Hg.
    unfold PyDict.keys in *. by rewrite <- Hperm.
Qed.

Lemma instances_elem_get cls k s :
  (k, s) ∈ create_instances (_model_services cls) ↔
  PyDict.get k (create_instances (_model_services cls)) = Some s.
Proof.
  split; [| apply pydict_get_elem].
  apply pydict_elem_get. apply create_instances_spec.
Qed.

(** X4: the order in which the classes were catalogued does not matter.
    Two catalogues built by the decorators that hold the same classes and
    the same chains construct alike: on the same client, both return or
    neither does, the clients they leave are equal, and [get_model] answers
    the same on both registries. *)
Theorem registry_construction_order_independent cls1 cls2 c registry1 c1 evs1 :
  decorated cls1 → decorated cls2 →
  _model_services cls1 ≡ₚ _model_services cls2 →
  _chains cls1 = _chains cls2 →
  ModelRegistry_init cls1 c = (Returns registry1, c1, evs1) →
  ∃ registry2,
    ModelRegistry_init cls2 c = (Returns registry2, c1, evs1)
    ∧ ∀ n, get_model registry2 n = get_model registry1 n.
Proof.
  intros Hdec1 Hdec2 Hperm Hchains Hinit1.
  assert (∀ n, PyDict.get n (create_instances (_model_services cls1))
               = PyDict.get n (create_instances (_model_services cls2))) as Hget.
  { intros n. rewrite !create_instances_get by done. f_equal.
    apply pydict_get_Permutation; [done | by apply decorated_services]. }
  assert (∀ k s, (k, s) ∈ create_instances (_model_services cls1) ↔
                 (k, s) ∈ create_instances (_model_services cls2)) as Hin.
  { intros k s. by rewrite !instances_elem_get, Hget. }
  assert (chains_closed cls2) as Hclosed.
  { assert (chains_closed cls1) as Hc1 by (apply (ModelRegistry_init_returns_iff cls1 c); eauto).
    intros source target Hsrc Hch. unfold PyDict.values in *.
    rewrite <- Hperm in Hsrc. rewrite <- Hchains in Hch.
    destruct (Hc1 _ _ Hsrc Hch) as (k & Hk & <-). exists k. by rewrite <- Hperm. }
  apply (ModelRegistry_init_returns_iff cls2 c) in Hclosed
    as (registry2 & c2 & evs2 & Hinit2).
  destruct (ModelRegistry_init_wires _ _ _ _ _ Hinit1) as (Hreg1 & -> & _).
  destruct (ModelRegistry_init_wires _ _ _ _ _ Hinit2) as (Hreg2 & -> & _).
  destruct (ModelRegistry_init_table _ _ _ _ _ Hinit1) as (Hcache1 & Hframe1 & Hwired1).
  destruct (ModelRegistry_init_table _ _ _ _ _ Hinit2) as (Hcache2 & Hframe2 & Hwired2).
  assert (c2 = c1) as ->.
  { destruct c1 as [q1 r1], c2 as [q2 r2]. cbn in *. f_equal; [| congruence].
    apply map_eq. intros t.
    destruct (decide (t ∈ (trigger_topic ∘ snd) <$> create_instances (_model_services cls1)))
      as [Ht | Ht].
    - apply list_elem_of_fmap in Ht as ([k s] & -> & Hks). cbn.
      destruct (Hwired1 _ _ Hks) as (cb1 & Hcb1 & ->).
      destruct (Hwired2 _ _ (proj1 (Hin _ _) Hks)) as (cb2 & Hcb2 & ->).
      unfold effective_callback in Hcb1, Hcb2. rewrite <- Hchains in Hcb2.
      destruct (_chains cls1 !! k) as [target |]; [| congruence].
      rewrite <- Hget in Hcb2. congruence.
    - rewrite (Hframe1 _ Ht). apply Hframe2.
      intros ([k s] & -> & Hks)%list_elem_of_fmap. apply Ht.
      apply list_elem_of_fmap. exists (k, s). split; [done |]. by apply Hin. }
  exists registry2. split; [done |].
  intros n. unfold get_model. by rewrite Hreg1, Hreg2, Hget.
Qed.

(** The deployment's classes catalogued in the opposite order. *)
Lemma registry_construction_order_independent_witness :
  let reversed :=
    register example.summarization
      (register example.linking
         (chain_to example.summarization example.linking
            (register example.recognition
               (chain_to example.linking example.recognition no_services)))) in
  model_names reversed = ["entity-recognition"; "entity-linking"; "entity-summarization"]
  ∧ model_names example.catalogue
    = ["entity-summarization"; "entity-linking"; "entity-recognition"]
  ∧ ∃ registry2,
      ModelRegistry_init reversed PubSubClient_init
      = (Returns registry2, example.wired example.catalogue, [])
      ∧ ∀ n, get_model registry2 n
             = get_model (example.constructed example.catalogue) n.
Proof.
  intros reversed. split; [reflexivity |]. split; [reflexivity |].
  apply (registry_construction_order_independent example.catalogue reversed
           PubSubClient_init (example.constructed example.catalogue)).
  - exact example_catalogue_decorated.
  - repeat constructor.
  - vm_compute. etrans; [apply Permutation_swap |].
    etrans; [apply perm_skip, Permutation_swap |]. apply Permutation_swap.
  - vm_compute. reflexivity.
  - vm_compute. reflexivity.
Defined.

(** ** The broker: what a publish touches *)

(** Every response stored during a publish belongs to a topic that was
    published to during it. *)
Lemma stored_topic_published fuel : ∀ topic msg c t r,
  EvStored t r ∈ (publish fuel topic msg c).2 →
  t ∈ published_topics (publish fuel topic msg c).2.
Proof.
  induction fuel as [| fuel IH]; intros topic msg c t r; [by intros ?%elem_of_nil |].
  destruct (_message_queues c !! topic) as [[cb |] |] eqn:Hq.
  - rewrite (publish_registered _ _ _ _ _ Hq).
    assert (EvStored t r ∈ (call (publish fuel) cb msg c).2 →
            t ∈ published_topics (call (publish fuel) cb msg c).2) as Hcall.
    { destruct cb as [s | s target].
      - rewrite call_bound_predict. destruct (predict s msg); by intros ?%elem_of_nil.
      - rewrite call_chained. destruct (predict s msg) as [y | e];
          [| by intros ?%elem_of_nil].
        specialize (IH (trigger_topic target) y c t r).
        by destruct (publish fuel (trigger_topic target) y c) as [[[r1 | e |] c1] evs1]. }
    destruct (call (publish fuel) cb msg c) as [[[r1 | e |] c1] evs1]; cbn in *.
    + intros [Heq | [Hin | Hin]%elem_of_app]%elem_of_cons; [done | |].
      * apply elem_of_cons. right. rewrite published_topics_app.
        apply elem_of_app. left. by apply Hcall.
      * apply elem_of_cons in Hin as [Heq | []%elem_of_nil]. simplify_eq.
        apply elem_of_cons. by left.
    + intros [Heq | Hin]%elem_of_cons; [done |]. apply elem_of_cons. right. by apply Hcall.
    + intros [Heq | Hin]%elem_of_cons; [done |]. apply elem_of_cons. right. by apply Hcall.
  - rewrite (publish_no_callback _ _ _ _ Hq). cbn. by not_among.
  - rewrite (publish_unregistered _ _ _ _ Hq). cbn. by not_among.
Qed.

Lemma record_event_unstored t cached evs :
  (∀ r, EvStored t r ∉ evs) → foldl (record_event t) cached evs = cached.
Proof.
  revert cached. induction evs as [| [t' m | t' r'] evs IH]; intros cached Hno; cbn.
  - done.
  - apply IH. intros r Hin. apply (Hno r). apply elem_of_cons. by right.
  - destruct (decide (t' = t)) as [-> | Hne].
    + exfalso. apply (Hno r'). apply elem_of_cons. by left.
    + apply IH. intros r Hin. apply (Hno r). apply elem_of_cons. by right.
Qed.

(** X5: whatever its outcome, [publish] leaves the table of callbacks as it
    was, and it leaves the cached response of every topic that was not
    published to during the call as it was. *)
Theorem publish_touches_only_published_topics fuel topic msg c :
  _message_queues (publish fuel topic msg c).1.2 = _message_queues c
  ∧ ∀ t, t ∉ published_topics (publish fuel topic msg c).2 →
         get_last_response t (publish fuel topic msg c).1.2 = get_last_response t c.
Proof.
  split; [apply publish_message_queues |].
  intros t Ht. unfold get_last_response.
  rewrite (publish_cache_follows fuel topic msg c t).
  rewrite record_event_unstored; [done |].
  intros r Hin. by apply Ht, (stored_topic_published fuel topic msg c t r).
Qed.

Lemma route_head queues fuel topic l :
  route queues fuel topic = Some l → ∃ l', l = topic :: l'.
Proof.
  destruct fuel as [| fuel]; [done |]. cbn.
  destruct (queues !! topic) as [[[s | s t] |] |]; try done.
  - intros [= <-]. eauto.
  - destruct (route queues fuel (trigger_topic t)); cbn; [| done]. intros [= <-]. eauto.
Qed.

(** X6: a [publish] that returns has published to each topic at most once.
    In particular the callback of its topic is not chained back to that
    topic: a publish into a cycle of chained callbacks does not return. *)
Theorem returning_publish_visits_topics_once fuel topic msg c response c' evs :
  publish fuel topic msg c = (Returns response, c', evs) →
  NoDup (published_topics evs)
  ∧ ∀ source target,
      _message_queues c !! topic = Some (Some (ChainedCallback source target)) →
      trigger_topic target ≠ topic.
Proof.
  intros Hp. destruct (publish_returns_route _ _ _ _ _ _ _ Hp) as [Hroute _].
  pose proof (route_NoDup _ _ _ _ Hroute) as Hnd. split; [exact Hnd |].
  intros source target Hq Heq.
  destruct fuel as [| fuel]; [done |]. cbn in Hroute. rewrite Hq in Hroute.
  destruct (route (_message_queues c) fuel (trigger_topic target)) as [l |] eqn:Hr;
    [| done].
  cbn in Hroute. injection Hroute as Hl. rewrite <- Hl in Hnd.
  apply route_head in Hr as [l' ->]. apply NoDup_cons in Hnd as [Hnot _].
  apply Hnot. rewrite Heq. apply elem_of_cons. by left.
Qed.

(** A publish down the deployment's chain from the linking topic. *)
Lemma returning_publish_visits_topics_once_witness :
  let c := example.wired example.catalogue in
  let run := publish 2 "entity-linking-trigger" example.recognized c in
  run.1.1 = Returns example.linked
  ∧ published_topics run.2 = ["entity-linking-trigger"; "entity-summarization-trigger"]
  ∧ NoDup (published_topics run.2)
  ∧ ∀ source target,
      _message_queues c !! "entity-linking-trigger"
      = Some (Some (ChainedCallback source target)) →
      trigger_topic target ≠ "entity-linking-trigger".
Proof.
  intros c run. split; [vm_compute; reflexivity |]. split; [vm_compute; reflexivity |].
  apply (returning_publish_visits_topics_once 2 "entity-linking-trigger"
           example.recognized c example.linked run.1.2 run.2).
  vm_compute. reflexivity.
Defined.

(** ** The deployment: the three-stage pipeline *)

Lemma pipeline_run uuid4 ner wiki load summ X Y Z W fuel :
  let recognition := new_service (services.EntityRecognitionModelService uuid4 ner) in
  let linking := new_service (services.EntityLinkingModelService uuid4 wiki) in
  let summarization := new_service (services.EntitySummarizationModelService load summ) in
  let c :=
    (ModelRegistry_init
       (loaded_services (services.EntitySummarizationModelService load summ)
                        (services.EntityLinkingModelService uuid4 wiki)
                        (services.EntityRecognitionModelService uuid4 ner))
       PubSubClient_init).1.2 in
  predict recognition X = Ok Y →
  predict linking Y = Ok Z →
  predict summarization Z = Ok W →
  ∃ c',
    publish (3 + fuel) "entity-recognition-trigger" X c
    = (Returns Y, c',
       [EvPublish "entity-recognition-trigger" X;
        EvPublish "entity-linking-trigger" Y;
        EvPublish "entity-summarization-trigger" Z;
        EvStored "entity-summarization-trigger" W;
        EvStored "entity-linking-trigger" Z;
        EvStored "entity-recognition-trigger" Y])
    ∧ get_last_response "entity-recognition-trigger" c' = Y
    ∧ get_last_response "entity-linking-trigger" c' = Z
    ∧ get_last_response "entity-summarization-trigger" c' = W.
Proof.
  intros recognition linking summarization c H1 H2 H3.
  assert (_message_queues c !! "entity-recognition-trigger"
          = Some (Some (ChainedCallback recognition linking))) as Hq1
    by (vm_compute; reflexivity).
  assert (_message_queues c !! trigger_topic linking
          = Some (Some (ChainedCallback linking summarization))) as Hq2
    by (vm_compute; reflexivity).
  assert (_message_queues c !! trigger_topic summarization
          = Some (Some (BoundPredict summarization))) as Hq3
    by (vm_compute; reflexivity).
  exists (set_last_response "entity-recognition-trigger" Y
            (set_last_response "entity-linking-trigger" Z
               (set_last_response "entity-summarization-trigger" W c))).
  split; [| split; [| split]].
  - change (3 + fuel) with (S (S (S fuel))).
    rewrite (publish_registered _ _ _ _ _ Hq1), call_chained, H1.
    rewrite (publish_registered _ _ _ _ _ Hq2), call_chained, H2.
    rewrite (publish_registered _ _ _ _ _ Hq3), call_bound_predict, H3.
    reflexivity.
  - unfold get_last_response. cbn. by rewrite lookup_insert_eq.
  - unfold get_last_response. cbn.
    rewrite lookup_insert_ne by discriminate. by rewrite lookup_insert_eq.
  - unfold get_last_response. cbn.
    rewrite !lookup_insert_ne by discriminate. by rewrite lookup_insert_eq.
Qed.

(** X7: in the deployment that [main.py] loads, whatever the external
    models are, a publish to the recognition topic whose three predictions
    succeed in turn returns the recognition output after publishing the
    linking output to the summarization topic, and leaves the three outputs
    as the last responses of the three topics; nesting depth 3 suffices. *)
Theorem pipeline_runs_three_stages uuid4 ner wiki load summ X Y Z W fuel :
  let recognition := new_service (services.EntityRecognitionModelService uuid4 ner) in
  let linking := new_service (services.EntityLinkingModelService uuid4 wiki) in
  let summarization := new_service (services.EntitySummarizationModelService load summ) in
  let c :=
    (ModelRegistry_init
       (loaded_services (services.EntitySummarizationModelService load summ)
                        (services.EntityLinkingModelService uuid4 wiki)
                        (services.EntityRecognitionModelService uuid4 ner))
       PubSubClient_init).1.2 in
  predict recognition X = Ok Y →
  predict linking Y = Ok Z →
  predict summarization Z = Ok W →
  ∃ c',
    publish (3 + fuel) "entity-recognition-trigger" X c
    = (Returns Y, c',
       [EvPublish "entity-recognition-trigger" X;
        EvPublish "entity-linking-trigger" Y;
        EvPublish "entity-summarization-trigger" Z;
        EvStored "entity-summarization-trigger" W;
        EvStored "entity-linking-trigger" Z;
        EvStored "entity-recognition-trigger" Y])
    ∧ get_last_response "entity-recognition-trigger" c' = Y
    ∧ get_last_response "entity-linking-trigger" c' = Z
    ∧ get_last_response "entity-summarization-trigger" c' = W.
Proof. apply pipeline_run. Qed.

(** The deployment on the example document. *)
Lemma pipeline_runs_three_stages_witness :
  let c := example.wired example.catalogue in
  predict (new_service example.recognition) example.document = Ok example.recognized
  ∧ predict (new_service example.linking) example.recognized = Ok example.linked
  ∧ predict (new_service example.summarization) example.linked = Ok example.summarized
  ∧ ∃ c',
      publish 3 "entity-recognition-trigger" example.document c
      = (Returns example.recognized, c',
         [EvPublish "entity-recognition-trigger" example.document;
          EvPublish "entity-linking-trigger" example.recognized;
          EvPublish "entity-summarization-trigger" example.linked;
          EvStored "entity-summarization-trigger" example.summarized;
          EvStored "entity-linking-trigger" example.linked;
          EvStored "entity-recognition-trigger" example.recognized])
      ∧ get_last_response "entity-recognition-trigger" c' = example.recognized
      ∧ get_last_response "entity-linking-trigger" c' = example.linked
      ∧ get_last_response "entity-summarization-trigger" c' = example.summarized.
Proof.
  intros c.
  assert (predict (new_service example.recognition) example.document
          = Ok example.recognized) as H1 by (vm_compute; reflexivity).
  assert (predict (new_service example.linking) example.recognized
          = Ok example.linked) as H2 by (vm_compute; reflexivity).
  assert (predict (new_service example.summarization) example.linked
          = Ok example.summarized) as H3 by (vm_compute; reflexivity).
  do 3 (split; [assumption |]).
  exact (pipeline_runs_three_stages example.uuid4 example.ner_pipeline
           example.wikipedia_page (Ok tt) example.summarize_text
           example.document example.recognized example.linked example.summarized 0
           H1 H2 H3).
Defined.

(** ** The schemas: validation accepts what validation returned *)

Lemma validate_fields_skip k v data : ∀ fields,
  k ∉ field_name <$> fields →
  validate_fields fields ((k, v) :: data) = validate_fields fields data.
Proof.
  induction fields as [| f fields IH]; intros Hk; [done |].
  cbn in Hk. apply not_elem_of_cons in Hk as [Hne Hk]. cbn.
  rewrite (IH Hk). by rewrite decide_False.
Qed.

Lemma same_shape_names fields fields' :
  same_shape fields fields' → field_name <$> fields = field_name <$> fields'.
Proof. induction 1 as [| f g fields fields' [Hn _] _ IH]; cbn; congruence. Qed.

Lemma same_shape_refl fields : same_shape fields fields.
Proof. induction fields; constructor; done. Qed.

(** Fields validated without error validate again, to themselves, against
    any list of fields of the same shape. *)
Lemma validate_fields_stable data : ∀ fields fields' vals,
  stable_fields fields →
  same_shape fields fields' →
  validate_fields fields data = (vals, []) →
  validate_fields fields' vals = (vals, []).
Proof.
  intros fields fields' vals [Hnd Hst] Hshape. revert vals Hnd Hst.
  induction Hshape as [| f g fields fields' [Hname Htype] Hshape IH];
    intros vals Hnd Hst Hval; [by cbn in Hval; simplify_eq |].
  cbn in Hnd. apply NoDup_cons in Hnd as [Hfresh Hnd].
  apply Forall_cons in Hst as [[Hstable Hdefault] Hst].
  cbn in Hval. destruct (validate_fields fields data) as [vr er] eqn:Hrest.
  assert (∃ v', vals = (field_name f, v') :: vr ∧ er = [] ∧ field_type f v' = Some v')
    as (v' & -> & -> & Hv').
  { destruct (PyDict.get (field_name f) data) as [v |].
    - destruct (field_type f v) as [v' |] eqn:Hv; simplify_eq. eauto.
    - destruct (field_default f) as [d |] eqn:Hd; simplify_eq. eauto. }
  specialize (IH vr Hnd Hst eq_refl). cbn.
  rewrite validate_fields_skip, IH
    by (by rewrite <- (same_shape_names _ _ Hshape)).
  rewrite <- Hname, <- Htype. by rewrite decide_True, Hv'.
Qed.

Lemma stable_v_str : stable v_str.
Proof. intros [] j'; cbn; try done. by intros [= <-]. Qed.

Lemma v_literal_Some b j j' : v_literal b j = Some j' → j' = JBool b.
Proof. destruct j; cbn; try done; destruct (decide _); by intros [= <-]. Qed.

Lemma stable_v_literal b : stable (v_literal b).
Proof. intros j j' ->%v_literal_Some. cbn. by rewrite decide_True. Qed.

Lemma mapM_stable (v : validator) l l' :
  stable v → mapM v l = Some l' → mapM v l' = Some l'.
Proof.
  intros Hv Hl. apply mapM_Some in Hl. apply mapM_Some.
  induction Hl as [| x y l l' Hxy _ IH]; constructor; [by eapply Hv | done].
Qed.

Lemma stable_v_list v : stable v → stable (v_list v).
Proof.
  intros Hv [] j'; cbn; try done.
  destruct (mapM v l) as [l' |] eqn:Hl; cbn; [| done]. intros [= <-]. cbn.
  by rewrite (mapM_stable v l l' Hv Hl).
Qed.

Lemma stable_v_model cls : stable_fields (model_fields cls) → stable (v_model cls).
Proof.
  intros Hcls [] j'; cbn; try done.
  destruct (validate_fields (model_fields cls) d) as [vals [| err errs]] eqn:Hval; [| done].
  intros [= <-]. cbn.
  by rewrite (validate_fields_stable d _ _ vals Hcls (same_shape_refl _) Hval).
Qed.

Lemma stable_v_union a b : stable a → stable b → exclusive a b → stable (v_union a b).
Proof.
  intros Ha Hb Hex j j'. unfold v_union.
  destruct (a j) as [r |] eqn:Haj.
  - intros [= <-]. by rewrite (Ha _ _ Haj).
  - intros Hbj. by rewrite (Hex _ _ Hbj), (Hb _ _ Hbj).
Qed.

(** Closes [NoDup] of an explicit list of names. *)
Ltac distinct_names :=
  repeat (apply NoDup_cons; split; [not_among |]); apply NoDup_nil_2.

(** Closes [stable_fields] of an explicit list of fields, given the
    stability of the annotations that are not [str] or a literal. *)
Ltac stable_fields_tac :=
  split; [cbn; distinct_names |];
  repeat (apply Forall_cons; split;
          [split; [first [apply stable_v_str | apply stable_v_literal | assumption]
                  | cbn; intros d [= <-] || (intros d Hd; discriminate Hd); reflexivity]
          |]);
  apply Forall_nil_2.

Lemma stable_Entity : stable_fields (model_fields schemas.Entity).
Proof. stable_fields_tac. Qed.

Lemma stable_WikipediaEntityFound :
  stable_fields (model_fields schemas.WikipediaEntityFound).
Proof. stable_fields_tac. Qed.

Lemma stable_WikipediaEntityNotFound :
  stable_fields (model_fields schemas.WikipediaEntityNotFound).
Proof. stable_fields_tac. Qed.

Lemma stable_SummarizedWikipediaEntity :
  stable_fields (model_fields schemas.SummarizedWikipediaEntity).
Proof. stable_fields_tac. Qed.

(** A dictionary accepted as not-found entity carries the tag [False]. *)
Lemma v_model_NotFound_tag j j' :
  v_model schemas.WikipediaEntityNotFound j = Some j' →
  ∃ text, j' = JDict [("text", text); ("wikipedia_entries_found", JBool false)].
Proof.
  destruct j as [| | | | | d]; try done.
  unfold v_model, schemas.WikipediaEntityNotFound, model_fields, validate_fields, required,
    field_name, field_type, field_default.
  destruct (PyDict.get "wikipedia_entries_found" d) as [v |];
    [destruct (v_literal false v) as [v' |] eqn:Hv |];
    (destruct (PyDict.get "text" d) as [t |]; [destruct (v_str t) as [t' |] |]);
    try done.
  intros [= <-]. exists t'. by apply v_literal_Some in Hv as ->.
Qed.

Lemma exclusive_Found_NotFound :
  exclusive (v_model schemas.WikipediaEntityFound)
            (v_model schemas.WikipediaEntityNotFound).
Proof.
  intros j j' [text ->]%v_model_NotFound_tag.
  destruct text; vm_compute; reflexivity.
Qed.

Lemma exclusive_Summarized_NotFound :
  exclusive (v_model schemas.SummarizedWikipediaEntity)
            (v_model schemas.WikipediaEntityNotFound).
Proof.
  intros j j' [text ->]%v_model_NotFound_tag.
  destruct text; vm_compute; reflexivity.
Qed.

Lemma stable_WikipediaEntity : stable schemas.WikipediaEntity.
Proof.
  apply stable_v_union.
  - apply stable_v_model, stable_WikipediaEntityFound.
  - apply stable_v_model, stable_WikipediaEntityNotFound.
  - apply exclusive_Found_NotFound.
Qed.

Lemma stable_EntityRecognitionInputSchema uuid4 :
  stable_fields (model_fields (schemas.EntityRecognitionInputSchema uuid4)).
Proof. stable_fields_tac. Qed.

Lemma stable_EntityRecognitionResultSchema uuid4 :
  stable_fields (model_fields (schemas.EntityRecognitionResultSchema uuid4)).
Proof.
  pose proof (stable_v_list _ (stable_v_model _ stable_Entity)).
  stable_fields_tac.
Qed.

Lemma stable_EntityLinkingResultSchema :
  stable_fields (model_fields schemas.EntityLinkingResultSchema).
Proof.
  pose proof (stable_v_list _ stable_WikipediaEntity).
  stable_fields_tac.
Qed.

Lemma stable_EntitySummarizationResultSchema :
  stable_fields (model_fields schemas.EntitySummarizationResultSchema).
Proof.
  assert (stable (v_list (v_union (v_model schemas.SummarizedWikipediaEntity)
                                  (v_model schemas.WikipediaEntityNotFound)))).
  { apply stable_v_list, stable_v_union.
    - apply stable_v_model, stable_SummarizedWikipediaEntity.
    - apply stable_v_model, stable_WikipediaEntityNotFound.
    - apply exclusive_Summarized_NotFound. }
  stable_fields_tac.
Qed.

Lemma model_validate_stable cls cls' data out :
  stable_fields (model_fields cls) →
  same_shape (model_fields cls) (model_fields cls') →
  model_validate cls data = Ok out →
  model_validate cls' (model_dump out)
  = Ok {| model_class := class_name cls'; model_data := model_dump out |}.
Proof.
  intros Hst Hshape. unfold model_validate.
  destruct (validate_fields (model_fields cls) data) as [vals [| err errs]] eqn:Hval;
    [| done].
  intros [= <-]. cbn.
  by rewrite (validate_fields_stable data _ _ vals Hst Hshape Hval).
Qed.

(** ** What [predict] does with the inference result *)




Lemma predict_Ok_inv self model_input raw_output :
  predict self model_input = Ok raw_output →
  ∃ schematized_input schematized_output,
    model_validate (get_input_schema self) model_input = Ok schematized_input
    ∧ _predict self schematized_input = Ok schematized_output
    ∧ raw_output = model_dump schematized_output.
Proof.
  unfold predict, result_bind.
  destruct (model_validate (get_input_schema self) model_input) as [v |]; [| done].
  destruct (_predict self v) as [out |] eqn:Hout; [| done]. intros [= <-]. by exists v, out.
Qed.

(** The inference steps of the three services end in the constructor of
    the schema the service declares as its output. *)
Lemma services_predict_validated uuid4 ner wiki load summarize cls input out :
  cls ∈ [services.EntityRecognitionModelService uuid4 ner;
         services.EntityLinkingModelService uuid4 wiki;
         services.EntitySummarizationModelService load summarize] →
  cls_predict cls input = Ok out →
  ∃ data, model_validate (cls_get_output_schema cls) data = Ok out.
Proof.
  intros Hcls Hout.
  repeat (apply elem_of_cons in Hcls as [-> | Hcls]); [| | | by apply elem_of_nil in Hcls];
    cbn [cls_predict cls_get_output_schema services.EntityRecognitionModelService
         services.EntityLinkingModelService services.EntitySummarizationModelService]
      in Hout |- *.
  - unfold services.EntityRecognition_predict in Hout. bind_ok Hout. eauto.
  - unfold services.EntityLinking_predict in Hout. bind_ok Hout. eauto.
  - unfold services.EntitySummarization_predict in Hout. bind_ok Hout. eauto.
Qed.

Lemma services_output_schema_stable uuid4 ner wiki load summarize cls :
  cls ∈ [services.EntityRecognitionModelService uuid4 ner;
         services.EntityLinkingModelService uuid4 wiki;
         services.EntitySummarizationModelService load summarize] →
  stable_fields (model_fields (cls_get_output_schema cls)).
Proof.
  intros Hcls.
  repeat (apply elem_of_cons in Hcls as [-> | Hcls]); [| | | by apply elem_of_nil in Hcls].
  - apply stable_EntityRecognitionResultSchema.
  - apply stable_EntityLinkingResultSchema.
  - apply stable_EntitySummarizationResultSchema.
Qed.

(** X8: for each of the three services of the repository, whatever the
    external models return, a result of [predict] conforms to the output
    schema the service declares: the schema's constructor accepts the
    result and keeps every field as it is. *)
Theorem services_outputs_conform uuid4 ner wiki load summarize cls model_input raw_output :
  cls ∈ [services.EntityRecognitionModelService uuid4 ner;
         services.EntityLinkingModelService uuid4 wiki;
         services.EntitySummarizationModelService load summarize] →
  predict (new_service cls) model_input = Ok raw_output →
  model_validate (cls_get_output_schema cls) raw_output
  = Ok {| model_class := class_name (cls_get_output_schema cls);
          model_data := raw_output |}
  ∧ conforms (get_output_schema (new_service cls)) raw_output = true.
Proof.
  intros Hcls (v & out & _ & Hout & ->)%predict_Ok_inv.
  destruct (services_predict_validated _ _ _ _ _ _ _ _ Hcls Hout) as [data Hdata].
  assert (model_validate (cls_get_output_schema cls) (model_dump out)
          = Ok {| model_class := class_name (cls_get_output_schema cls);
                  model_data := model_dump out |}) as Hval.
  { eapply model_validate_stable; [| apply same_shape_refl | exact Hdata].
    by eapply services_output_schema_stable. }
  split; [exact Hval |]. unfold conforms, get_output_schema. cbn. by rewrite Hval.
Qed.

(** The linking service of the deployment on the recognised document. *)
Lemma services_outputs_conform_witness :
  predict (new_service example.linking) example.recognized = Ok example.linked
  ∧ model_validate schemas.EntityLinkingResultSchema example.linked
    = Ok {| model_class := "EntityLinkingResultSchema"; model_data := example.linked |}
  ∧ conforms (get_output_schema (new_service example.linking)) example.linked = true.
Proof.
  assert (predict (new_service example.linking) example.recognized = Ok example.linked)
    as Hpred by (vm_compute; reflexivity).
  split; [exact Hpred |].
  apply (services_outputs_conform example.uuid4 example.ner_pipeline example.wikipedia_page
           (Ok tt) example.summarize_text example.linking example.recognized
           example.linked); [| exact Hpred].
  apply elem_of_cons. right. apply elem_of_cons. by left.
Defined.

Lemma same_shape_LinkingInput uuid4 uuid4' :
  same_shape (model_fields (schemas.EntityRecognitionResultSchema uuid4))
             (model_fields (schemas.EntityLinkingInputSchema uuid4')).
Proof. repeat constructor. Qed.

Lemma same_shape_SummarizationInput :
  same_shape (model_fields schemas.EntityLinkingResultSchema)
             (model_fields schemas.EntitySummarizationInputSchema).
Proof. repeat constructor. Qed.

(** X9: the stages of the pipeline fit.  Whatever the external models
    return, the input schema of the linking service accepts every result of
    the recognition service, and the input schema of the summarization
    service accepts every result of the linking service, each keeping every
    field as it is: a chained stage never fails on validating its input. *)
Theorem pipeline_stages_fit uuid4 uuid4' ner wiki :
  (∀ X Y,
      predict (new_service (services.EntityRecognitionModelService uuid4 ner)) X = Ok Y →
      model_validate (schemas.EntityLinkingInputSchema uuid4') Y
      = Ok {| model_class := "EntityLinkingInputSchema"; model_data := Y |})
  ∧ (∀ Y Z,
      predict (new_service (services.EntityLinkingModelService uuid4 wiki)) Y = Ok Z →
      model_validate schemas.EntitySummarizationInputSchema Z
      = Ok {| model_class := "EntitySummarizationInputSchema"; model_data := Z |}).
Proof.
  split.
  - intros X Y (v & out & _ & Hout & ->)%predict_Ok_inv.
    destruct (services_predict_validated uuid4 ner wiki (Ok tt) (λ _, Ok "")
                (services.EntityRecognitionModelService uuid4 ner) v out)
      as [data Hdata]; [apply elem_of_cons; by left | exact Hout |].
    exact (model_validate_stable _ (schemas.EntityLinkingInputSchema uuid4') _ _
             (stable_EntityRecognitionResultSchema uuid4)
             (same_shape_LinkingInput uuid4 uuid4') Hdata).
  - intros Y Z (v & out & _ & Hout & ->)%predict_Ok_inv.
    destruct (services_predict_validated uuid4 ner wiki (Ok tt) (λ _, Ok "")
                (services.EntityLinkingModelService uuid4 wiki) v out)
      as [data Hdata];
      [apply elem_of_cons; right; apply elem_of_cons; by left | exact Hout |].
    exact (model_validate_stable _ schemas.EntitySummarizationInputSchema _ _
             stable_EntityLinkingResultSchema same_shape_SummarizationInput Hdata).
Qed.

(** The two hand-overs of the deployment on the example document. *)
Lemma pipeline_stages_fit_witness :
  predict (new_service example.recognition) example.document = Ok example.recognized
  ∧ model_validate (schemas.EntityLinkingInputSchema example.uuid4) example.recognized
    = Ok {| model_class := "EntityLinkingInputSchema"; model_data := example.recognized |}
  ∧ predict (new_service example.linking) example.recognized = Ok example.linked
  ∧ model_validate schemas.EntitySummarizationInputSchema example.linked
    = Ok {| model_class := "EntitySummarizationInputSchema";
            model_data := example.linked |}.
Proof.
  assert (predict (new_service example.recognition) example.document
          = Ok example.recognized) as H1 by (vm_compute; reflexivity).
  assert (predict (new_service example.linking) example.recognized
          = Ok example.linked) as H2 by (vm_compute; reflexivity).
  destruct (pipeline_stages_fit example.uuid4 example.uuid4 example.ner_pipeline
              example.wikipedia_page) as [Hfit1 Hfit2].
  split; [exact H1 |]. split; [exact (Hfit1 _ _ H1) |].
  split; [exact H2 | exact (Hfit2 _ _ H2)].
Defined.

(** ** The services: what a prediction carries over *)

(** A field of a validated instance is the validated value of the key, or
    the default of the field when the key is absent. *)
Lemma validate_fields_get data f : ∀ fields vals,
  NoDup (field_name <$> fields) →
  validate_fields fields data = (vals, []) →
  f ∈ fields →
  PyDict.get (field_name f) vals
  = match PyDict.get (field_name f) data with
    | Some v => field_type f v
    | None => field_default f
    end.
Proof.
  induction fields as [| g fields IH]; intros vals Hnd Hval Hin;
    [by apply elem_of_nil in Hin |].
  cbn in Hnd. apply NoDup_cons in Hnd as [Hfresh Hnd].
  cbn in Hval. destruct (validate_fields fields data) as [vr er] eqn:Hrest.
  assert (∃ v', vals = (field_name g, v') :: vr ∧ er = []
                ∧ match PyDict.get (field_name g) data with
                  | Some v => field_type g v
                  | None => field_default g
                  end = Some v') as (v' & -> & -> & Hv').
  { destruct (PyDict.get (field_name g) data) as [v |].
    - destruct (field_type g v) as [v' |] eqn:Hv; simplify_eq. eauto.
    - destruct (field_default g) as [d |] eqn:Hd; simplify_eq. eauto. }
  cbn. apply elem_of_cons in Hin as [-> | Hin].
  - by rewrite decide_True.
  - rewrite decide_False; [by apply IH |].
    intros Heq. apply Hfresh. rewrite <- Heq. by apply list_elem_of_fmap_2.
Qed.

Lemma model_validate_get cls data instance f :
  NoDup (field_name <$> model_fields cls) →
  model_validate cls data = Ok instance →
  f ∈ model_fields cls →
  PyDict.get (field_name f) (model_data instance)
  = match PyDict.get (field_name f) data with
    | Some v => field_type f v
    | None => field_default f
    end.
Proof.
  intros Hnd Hval Hin. unfold model_validate in Hval.
  destruct (validate_fields (model_fields cls) data) as [vals [| err errs]] eqn:Hf;
    [| done].
  simplify_eq. cbn. by eapply validate_fields_get.
Qed.

Lemma v_str_Some j j' : v_str j = Some j' → j' = j.
Proof. destruct j; cbn; try done. by intros [= <-]. Qed.

Lemma getattr_Ok obj attr v :
  services.getattr obj attr = Ok v → PyDict.get attr obj = Some v.
Proof. unfold services.getattr. destruct (PyDict.get attr obj); by intros [= <-]. Qed.

(** Membership in an explicit list of fields. *)
Ltac field_in :=
  repeat first [apply elem_of_cons; left; reflexivity | apply elem_of_cons; right].

Lemma recognition_carries uuid4 ner X Y :
  predict (new_service (services.EntityRecognitionModelService uuid4 ner)) X = Ok Y →
  PyDict.get "text" Y = PyDict.get "text" X
  ∧ PyDict.get "id" Y = Some (default (JStr uuid4) (PyDict.get "id" X)).
Proof.
  intros (v & out & Hv & Hout & ->)%predict_Ok_inv.
  cbn in Hv, Hout. unfold services.EntityRecognition_predict in Hout. bind_ok Hout.
  rename a into text, a3 into id.
  apply getattr_Ok in E, E3.
  assert (NoDup (field_name <$> model_fields (schemas.EntityRecognitionInputSchema uuid4)))
    as Hnd_in by (cbn; distinct_names).
  assert (NoDup (field_name <$> model_fields (schemas.EntityRecognitionResultSchema uuid4)))
    as Hnd_out by (cbn; distinct_names).
  pose proof (model_validate_get _ _ _ (required "text" v_str) Hnd_in Hv ltac:(field_in))
    as Htext.
  pose proof (model_validate_get _ _ _ (with_default "id" (JStr uuid4) v_str)
                Hnd_in Hv ltac:(field_in)) as Hid.
  cbn in Htext, Hid. rewrite E in Htext. rewrite E3 in Hid.
  pose proof (model_validate_get _ _ _ (required "text" v_str) Hnd_out Hout ltac:(field_in))
    as Htext'.
  pose proof (model_validate_get _ _ _ (with_default "id" (JStr uuid4) v_str)
                Hnd_out Hout ltac:(field_in)) as Hid'.
  cbn in Htext', Hid'. unfold model_dump. rewrite Htext', Hid'. split.
  - destruct (PyDict.get "text" X) as [x |]; [| done].
    symmetry in Htext. pose proof (v_str_Some _ _ Htext) as ->. done.
  - destruct (PyDict.get "id" X) as [x |]; cbn.
    + symmetry in Hid. pose proof (v_str_Some _ _ Hid) as ->. done.
    + by simplify_eq.
Qed.

Lemma linking_carries uuid4 wiki X Y :
  predict (new_service (services.EntityLinkingModelService uuid4 wiki)) X = Ok Y →
  PyDict.get "text" Y = PyDict.get "text" X
  ∧ PyDict.get "id" Y = Some (default (JStr uuid4) (PyDict.get "id" X)).
Proof.
  intros (v & out & Hv & Hout & ->)%predict_Ok_inv.
  cbn in Hv, Hout. unfold services.EntityLinking_predict in Hout. bind_ok Hout.
  rename a2 into id, a3 into text.
  apply getattr_Ok in E2, E3.
  assert (NoDup (field_name <$> model_fields (schemas.EntityLinkingInputSchema uuid4)))
    as Hnd_in by (cbn; distinct_names).
  assert (NoDup (field_name <$> model_fields schemas.EntityLinkingResultSchema))
    as Hnd_out by (cbn; distinct_names).
  pose proof (model_validate_get _ _ _ (required "text" v_str) Hnd_in Hv ltac:(field_in))
    as Htext.
  pose proof (model_validate_get _ _ _ (with_default "id" (JStr uuid4) v_str)
                Hnd_in Hv ltac:(field_in)) as Hid.
  cbn in Htext, Hid. rewrite E3 in Htext. rewrite E2 in Hid.
  pose proof (model_validate_get _ _ _ (required "text" v_str) Hnd_out Hout ltac:(field_in))
    as Htext'.
  pose proof (model_validate_get _ _ _ (required "id" v_str) Hnd_out Hout ltac:(field_in))
    as Hid'.
  cbn in Htext', Hid'. unfold model_dump. rewrite Htext', Hid'. split.
  - destruct (PyDict.get "text" X) as [x |]; [| done].
    symmetry in Htext. pose proof (v_str_Some _ _ Htext) as ->. done.
  - destruct (PyDict.get "id" X) as [x |]; cbn.
    + symmetry in Hid. pose proof (v_str_Some _ _ Hid) as ->. done.
    + by simplify_eq.
Qed.

Lemma summarization_carries load summarize X Y :
  predict (new_service (services.EntitySummarizationModelService load summarize)) X = Ok Y →
  PyDict.get "text" Y = PyDict.get "text" X
  ∧ PyDict.get "id" Y = PyDict.get "id" X.
Proof.
  intros (v & out & Hv & Hout & ->)%predict_Ok_inv.
  cbn in Hv, Hout. unfold services.EntitySummarization_predict in Hout. bind_ok Hout.
  rename a3 into id, a4 into text.
  apply getattr_Ok in E3, E4.
  assert (NoDup (field_name <$> model_fields schemas.EntitySummarizationInputSchema))
    as Hnd_in by (cbn; distinct_names).
  assert (NoDup (field_name <$> model_fields schemas.EntitySummarizationResultSchema))
    as Hnd_out by (cbn; distinct_names).
  pose proof (model_validate_get _ _ _ (required "text" v_str) Hnd_in Hv ltac:(field_in))
    as Htext.
  pose proof (model_validate_get _ _ _ (required "id" v_str) Hnd_in Hv ltac:(field_in))
    as Hid.
  cbn in Htext, Hid. rewrite E4 in Htext. rewrite E3 in Hid.
  pose proof (model_validate_get _ _ _ (required "text" v_str) Hnd_out Hout ltac:(field_in))
    as Htext'.
  pose proof (model_validate_get _ _ _ (required "id" v_str) Hnd_out Hout ltac:(field_in))
    as Hid'.
  cbn in Htext', Hid'. unfold model_dump. rewrite Htext', Hid'. split.
  - destruct (PyDict.get "text" X) as [x |]; [| done].
    symmetry in Htext. pose proof (v_str_Some _ _ Htext) as ->. done.
  - destruct (PyDict.get "id" X) as [x |]; [| done].
    symmetry in Hid. pose proof (v_str_Some _ _ Hid) as ->. done.
Qed.

(** X10: each of the three services returns the [text] and the [id] of
    its input unchanged, whatever the external models do; the recognition
    and the linking service give a document that comes without [id] the
    generated one, the summarization service never sees such a document. *)
Theorem services_carry_id_and_text uuid4 ner wiki load summarize cls X Y :
  cls ∈ [services.EntityRecognitionModelService uuid4 ner;
         services.EntityLinkingModelService uuid4 wiki;
         services.EntitySummarizationModelService load summarize] →
  predict (new_service cls) X = Ok Y →
  PyDict.get "text" Y = PyDict.get "text" X
  ∧ PyDict.get "id" Y = Some (default (JStr uuid4) (PyDict.get "id" X))
  ∧ (cls_NAME cls = "entity-summarization" → PyDict.get "id" Y = PyDict.get "id" X).
Proof.
  intros Hcls Hpred.
  repeat (apply elem_of_cons in Hcls as [-> | Hcls]); [| | | by apply elem_of_nil in Hcls].
  - destruct (recognition_carries _ _ _ _ Hpred) as [Ht Hi]. by repeat split.
  - destruct (linking_carries _ _ _ _ Hpred) as [Ht Hi]. by repeat split.
  - destruct (summarization_carries _ _ _ _ Hpred) as [Ht Hi].
    split; [done |]. split; [| done]. rewrite Hi.
    destruct (PyDict.get "id" X) as [x |] eqn:Hx; [done |].
    apply predict_Ok_inv in Hpred as (v & out & Hv & _).
    cbn in Hv. unfold model_validate in Hv.
    pose proof (validate_fields_missing (required "id" v_str) X
                  (model_fields schemas.EntitySummarizationInputSchema)
                  ltac:(field_in) eq_refl Hx) as Hmiss.
    destruct (validate_fields _ X) as [vals [| err errs]]; [| done].
    by apply elem_of_nil in Hmiss.
Qed.

(** The repository's own test case: the recognition service on a document
    with [id] ["doc1"]. *)
Lemma services_carry_id_and_text_witness :
  predict (new_service example.recognition) example.document = Ok example.recognized
  ∧ PyDict.get "text" example.recognized = Some (JStr "Barack Obama visited Seattle.")
  ∧ PyDict.get "id" example.recognized = Some (JStr "doc1").
Proof.
  assert (predict (new_service example.recognition) example.document
          = Ok example.recognized) as Hpred by (vm_compute; reflexivity).
  split; [exact Hpred |].
  destruct (services_carry_id_and_text example.uuid4 example.ner_pipeline
              example.wikipedia_page (Ok tt) example.summarize_text example.recognition
              example.document example.recognized) as (Ht & Hi & _);
    [apply elem_of_cons; by left | exact Hpred |].
  split; [exact Ht | exact Hi].
Defined.

(** ** The services: entities in, entities out *)

Lemma result_map_Forall2 {A B} (f : A → result B) l l' :
  result_map f l = Ok l' → Forall2 (λ x y, f x = Ok y) l l'.
Proof.
  revert l'. induction l as [| x l IH]; intros l'; cbn.
  - intros [= <-]. constructor.
  - unfold result_bind. destruct (f x) as [y |] eqn:Hx; [| done].
    destruct (result_map f l) as [ys |]; [| done]. intros [= <-].
    constructor; [done | by apply IH].
Qed.

Lemma mapM_fixed (v : validator) l :
  Forall (λ j, v j = Some j) l → mapM v l = Some l.
Proof.
  intros Hl. apply mapM_Some. induction Hl; constructor; done.
Qed.

Lemma as_str_Ok j s : services.as_str j = Ok s → j = JStr s.
Proof. destruct j; cbn; try done. by intros [= <-]. Qed.

Lemma as_list_Ok j l : services.as_list j = Ok l → j = JList l.
Proof. destruct j; cbn; try done. by intros [= <-]. Qed.

Lemma as_dict_Ok j d : services.as_dict j = Ok d → j = JDict d.
Proof. destruct j; cbn; try done. by intros [= <-]. Qed.

Lemma v_list_Some v j j' :
  v_list v j = Some j' → ∃ l l', j = JList l ∧ j' = JList l' ∧ mapM v l = Some l'.
Proof.
  destruct j; cbn; try done. destruct (mapM v l) as [l' |] eqn:Hl; cbn; [| done].
  intros [= <-]. eauto.
Qed.

(** Decides the comparisons of explicit keys in the goal. *)
Ltac decide_keys :=
  repeat first [rewrite decide_True by reflexivity | rewrite decide_False by discriminate].

(** X11: whatever the NER pipeline returns, the recognition service returns
    its results as entities, one per result and in the pipeline's order,
    with the word as [text] and the entity group as [label]. *)
Theorem recognition_returns_pipeline_results uuid4 ner X Y :
  predict (new_service (services.EntityRecognitionModelService uuid4 ner)) X = Ok Y →
  ∃ text ner_results,
    PyDict.get "text" X = Some (JStr text)
    ∧ ner text = Ok ner_results
    ∧ PyDict.get "entities" Y = Some (JList (recognized_entity <$> ner_results)).
Proof.
  intros (v & out & Hv & Hout & ->)%predict_Ok_inv.
  cbn in Hv, Hout. unfold services.EntityRecognition_predict in Hout. bind_ok Hout.
  rename a into text, a0 into text_s, a1 into ner_results, a2 into entities.
  apply getattr_Ok in E. apply as_str_Ok in E0 as ->.
  assert (NoDup (field_name <$> model_fields (schemas.EntityRecognitionInputSchema uuid4)))
    as Hnd_in by (cbn; distinct_names).
  assert (NoDup (field_name <$> model_fields (schemas.EntityRecognitionResultSchema uuid4)))
    as Hnd_out by (cbn; distinct_names).
  pose proof (model_validate_get _ _ _ (required "text" v_str) Hnd_in Hv ltac:(field_in))
    as Htext.
  cbn in Htext. rewrite E in Htext.
  exists text_s, ner_results. split; [| split; [done |]].
  - destruct (PyDict.get "text" X) as [x |]; [| done].
    symmetry in Htext. by pose proof (v_str_Some _ _ Htext) as ->.
  - pose proof (model_validate_get _ _ _ (required "entities" (v_list (v_model schemas.Entity)))
                  Hnd_out Hout ltac:(field_in)) as Hents.
    cbn in Hents. unfold model_dump. rewrite Hents.
    assert (map services.instance_value entities = recognized_entity <$> ner_results) as ->.
    { apply result_map_Forall2 in E2. clear -E2.
      induction E2 as [| [w g] inst rs insts Hinst _ IH]; [done |].
      cbn. f_equal; [| exact IH].
      vm_compute in Hinst. by injection Hinst as <-. }
    decide_keys. cbn. rewrite mapM_fixed; [done |].
    apply Forall_fmap, Forall_forall. intros [w g] _. vm_compute. reflexivity.
Qed.

(** The recognition service of the deployment on the example document. *)
Lemma recognition_returns_pipeline_results_witness :
  predict (new_service example.recognition) example.document = Ok example.recognized
  ∧ ∃ text ner_results,
      PyDict.get "text" example.document = Some (JStr text)
      ∧ example.ner_pipeline text = Ok ner_results
      ∧ PyDict.get "entities" example.recognized
        = Some (JList (recognized_entity <$> ner_results)).
Proof.
  assert (predict (new_service example.recognition) example.document
          = Ok example.recognized) as Hpred by (vm_compute; reflexivity).
  split; [exact Hpred |].
  exact (recognition_returns_pipeline_results example.uuid4 example.ner_pipeline
           example.document example.recognized Hpred).
Defined.

Lemma v_model_Entity_text j j' :
  v_model schemas.Entity j = Some j' →
  ∃ text label, j' = JDict [("text", text); ("label", label)] ∧ entity_text j = Some text.
Proof.
  destruct j as [| | | | | d]; try done.
  unfold v_model, schemas.Entity, model_fields, validate_fields, required,
    field_name, field_type, field_default, entity_text.
  destruct (PyDict.get "label" d) as [lab |]; [destruct (v_str lab) as [lab' |] |];
    (destruct (PyDict.get "text" d) as [t |]; [destruct (v_str t) as [t' |] eqn:Ht |]);
    try done.
  intros [= <-]. apply v_str_Some in Ht as ->. eauto.
Qed.

Lemma found_entry_valid text_s title url content :
  schemas.WikipediaEntity (JDict (services.found_entry (JStr text_s) title url content))
  = Some (JDict (services.found_entry (JStr text_s) title url content)).
Proof.
  unfold services.found_entry.
  generalize (PyStr.take services.MAX_CONTENT_LENGTH content +:+ "...").
  intros shown. vm_compute. reflexivity.
Qed.

Lemma not_found_entry_valid text_s :
  schemas.WikipediaEntity (JDict (services.not_found_entry (JStr text_s)))
  = Some (JDict (services.not_found_entry (JStr text_s))).
Proof. vm_compute. reflexivity. Qed.

(** What the loop body of the linking service returns for one entity. *)
Lemma link_entity_Ok wiki entity linked :
  services.link_entity wiki entity = Ok linked →
  ∃ fields text_s,
    entity = JDict fields
    ∧ PyDict.get "text" fields = Some (JStr text_s)
    ∧ linked_entity_of (JStr text_s) linked
    ∧ schemas.WikipediaEntity linked = Some linked.
Proof.
  unfold services.link_entity. intros H. bind_ok H.
  rename a into fields, a0 into text, a1 into text_s, a2 into entry.
  apply as_dict_Ok in E as ->. apply getattr_Ok in E0. apply as_str_Ok in E1 as ->.
  exists fields, text_s. split; [done |]. split; [done |].
  assert (entry = services.not_found_entry (JStr text_s)
          ∨ ∃ title url content,
              entry = services.found_entry (JStr text_s) title url content) as Hentry.
  { destruct (wiki text_s) as [title url content | [| first_option options] | | e].
    - injection E2 as <-. right. eauto.
    - done.
    - destruct (wiki first_option) as [title url content | | |]; try done.
      injection E2 as <-. right. eauto.
    - injection E2 as <-. by left.
    - injection E2 as <-. by left. }
  destruct Hentry as [-> | (title & url & content & ->)].
  - rewrite not_found_entry_valid in H. injection H as <-.
    split; [by left | apply not_found_entry_valid].
  - rewrite found_entry_valid in H. injection H as <-.
    split; [right; eauto | apply found_entry_valid].
Qed.

(** X12: whatever Wikipedia answers, the linking service returns one
    linked entity per entity of its input, in the input's order and with the
    entity's text: either the not-found entry or the found entry of a page. *)
Theorem linking_links_every_entity uuid4 wiki Y Z :
  predict (new_service (services.EntityLinkingModelService uuid4 wiki)) Y = Ok Z →
  ∃ entities linked_entities,
    PyDict.get "entities" Y = Some (JList entities)
    ∧ PyDict.get "linked_entities" Z = Some (JList linked_entities)
    ∧ Forall2 (λ entity linked,
                 ∃ text, entity_text entity = Some text ∧ linked_entity_of text linked)
              entities linked_entities.
Proof.
  intros (v & out & Hv & Hout & ->)%predict_Ok_inv.
  cbn in Hv, Hout. unfold services.EntityLinking_predict in Hout. bind_ok Hout.
  rename a into validated, a0 into validated_l, a1 into linked.
  apply getattr_Ok in E. apply as_list_Ok in E0 as ->.
  apply result_map_Forall2 in E1.
  assert (NoDup (field_name <$> model_fields (schemas.EntityLinkingInputSchema uuid4)))
    as Hnd_in by (cbn; distinct_names).
  assert (NoDup (field_name <$> model_fields schemas.EntityLinkingResultSchema))
    as Hnd_out by (cbn; distinct_names).
  pose proof (model_validate_get _ _ _ (required "entities" (v_list (v_model schemas.Entity)))
                Hnd_in Hv ltac:(field_in)) as Hents.
  cbn in Hents. rewrite E in Hents.
  destruct (PyDict.get "entities" Y) as [raw |]; [| done].
  symmetry in Hents. apply v_list_Some in Hents as (entities & l' & -> & [= <-] & Hraw).
  apply mapM_Some in Hraw.
  exists entities, linked. split; [done |]. split.
  - pose proof (model_validate_get _ _ _
                  (required "linked_entities" (v_list schemas.WikipediaEntity))
                  Hnd_out Hout ltac:(field_in)) as Hlinked.
    cbn in Hlinked. unfold model_dump. rewrite Hlinked. decide_keys. cbn.
    rewrite mapM_fixed; [done |].
    clear -E1. induction E1 as [| e l es ls Hl _ IH]; constructor; [| done].
    by apply link_entity_Ok in Hl as (_ & _ & _ & _ & _ & Hfix).
  - clear -Hraw E1. revert linked E1.
    induction Hraw as [| raw e raws es He _ IH]; intros linked E1.
    + inversion E1. constructor.
    + inversion E1 as [| ? l ? ls Hl Hls]; subst. constructor; [| by apply IH].
      apply v_model_Entity_text in He as (text & label & -> & Htext).
      apply link_entity_Ok in Hl as (fields & text_s & [= <-] & Hget & Hof & _).
      cbn in Hget. exists text. split; [done |].
      revert Hget. decide_keys. by intros [= ->].
Qed.

(** The linking service of the deployment on the recognised document:
    one page found, one page missing. *)
Lemma linking_links_every_entity_witness :
  predict (new_service example.linking) example.recognized = Ok example.linked
  ∧ ∃ entities linked_entities,
      PyDict.get "entities" example.recognized = Some (JList entities)
      ∧ PyDict.get "linked_entities" example.linked = Some (JList linked_entities)
      ∧ Forall2 (λ entity linked,
                   ∃ text, entity_text entity = Some text ∧ linked_entity_of text linked)
                entities linked_entities.
Proof.
  assert (predict (new_service example.linking) example.recognized = Ok example.linked)
    as Hpred by (vm_compute; reflexivity).
  split; [exact Hpred |].
  exact (linking_links_every_entity example.uuid4 example.wikipedia_page
           example.recognized example.linked Hpred).
Defined.

Lemma pystr_len_app s1 s2 : PyStr.len (s1 +:+ s2) = PyStr.len s1 + PyStr.len s2.
Proof.
  induction s1 as [| c s1 IH]; simpl; [done |].
  destruct (PyStr.is_continuation c); simpl; by rewrite IH.
Qed.

Lemma pystr_len_take s : ∀ n, PyStr.len (PyStr.take n s) = n `min` PyStr.len s.
Proof.
  induction s as [| c s IH]; intros n; cbn; [lia |].
  destruct (PyStr.is_continuation c) eqn:Hc; cbn; rewrite ?Hc; [apply IH |].
  destruct n as [| n]; cbn; rewrite ?Hc; [done |]. by rewrite IH.
Qed.

Lemma pystr_take_prefix s : ∀ n, ∃ dropped, s = PyStr.take n s +:+ dropped.
Proof.
  induction s as [| c s IH]; intros n; simpl; [by exists "" |].
  destruct (PyStr.is_continuation c).
  - destruct (IH n) as [dropped Hd]. exists dropped.
    change (String c s = String c (PyStr.take n s +:+ dropped)). by f_equal.
  - destruct n as [| n]; [by eexists |].
    destruct (IH n) as [dropped Hd]. exists dropped.
    change (String c s = String c (PyStr.take n s +:+ dropped)). by f_equal.
Qed.

Lemma pystr_take_all s : ∀ n, (PyStr.len s ≤ n)%nat → PyStr.take n s = s.
Proof.
  induction s as [| c s IH]; intros n; cbn; [done |].
  destruct (PyStr.is_continuation c); intros Hn; [by rewrite IH |].
  destruct n as [| n]; [lia |]. rewrite IH; [done | lia].
Qed.

(** X13: the content of a found entry is a prefix of the page's content
    followed by three dots, also when the page is short. The prefix is the
    first 1024 characters of the page, counted as Python counts them (code
    points, not bytes): the whole page when it has no more than 1024
    characters. So the content of the entry has never more than 1027
    characters. *)
Theorem found_entry_content_is_truncated text title url content :
  ∃ kept dropped,
    PyDict.get "content" (services.found_entry text title url content)
    = Some (JStr (kept +:+ "..."))
    ∧ content = kept +:+ dropped
    ∧ PyStr.len kept = 1024 `min` PyStr.len content
    ∧ ((PyStr.len content ≤ 1024)%nat → kept = content)
    ∧ PyStr.len (kept +:+ "...") = (1024 `min` PyStr.len content) + 3
    ∧ (PyStr.len (kept +:+ "...") ≤ 1027)%nat.
Proof.
  destruct (pystr_take_prefix content services.MAX_CONTENT_LENGTH) as [dropped Hd].
  exists (PyStr.take services.MAX_CONTENT_LENGTH content), dropped.
  split; [reflexivity |]. split; [exact Hd |].
  split; [apply pystr_len_take |].
  split; [apply pystr_take_all |].
  rewrite pystr_len_app, pystr_len_take.
  change (PyStr.len "...") with 3. unfold services.MAX_CONTENT_LENGTH. lia.
Qed.

Lemma found_entry_content_is_truncated_witness :
  PyStr.len "日本語" = 3
  ∧ PyStr.take 2 "日本語" = "日本"
  ∧ PyDict.get "content"
      (services.found_entry (JStr "Tokyo") "東京" "https://ja.wikipedia.org/wiki/東京" "日本語")
    = Some (JStr "日本語...")
  ∧ ∃ kept dropped,
      PyDict.get "content"
        (services.found_entry (JStr "Tokyo") "東京" "https://ja.wikipedia.org/wiki/東京" "日本語")
      = Some (JStr (kept +:+ "..."))
      ∧ "日本語" = kept +:+ dropped
      ∧ PyStr.len kept = 1024 `min` PyStr.len "日本語"
      ∧ ((PyStr.len "日本語" ≤ 1024)%nat → kept = "日本語")
      ∧ PyStr.len (kept +:+ "...") = (1024 `min` PyStr.len "日本語") + 3
      ∧ (PyStr.len (kept +:+ "...") ≤ 1027)%nat.
Proof.
  split; [vm_compute; reflexivity |].
  split; [vm_compute; reflexivity |].
  split; [vm_compute; reflexivity |].
  apply (found_entry_content_is_truncated
           (JStr "Tokyo") "東京" "https://ja.wikipedia.org/wiki/東京" "日本語").
Defined.

Lemma v_str_Some_str j j' : v_str j = Some j' → ∃ s, j' = JStr s.
Proof. destruct j; cbn; try done. intros [= <-]. eauto. Qed.

Lemma v_model_Found_shape j j' :
  v_model schemas.WikipediaEntityFound j = Some j' →
  ∃ text title url content, j' = JDict (found_entity text title url content).
Proof.
  destruct j as [| | | | | d]; try done.
  unfold v_model, schemas.WikipediaEntityFound, model_fields, validate_fields, required,
    field_name, field_type, field_default.
  destruct (PyDict.get "content" d) as [c |]; [destruct (v_str c) as [c' |] eqn:Hc |];
    (destruct (PyDict.get "url" d) as [u |]; [destruct (v_str u) as [u' |] eqn:Hu |]);
    (destruct (PyDict.get "title" d) as [ti |]; [destruct (v_str ti) as [ti' |] eqn:Hti |]);
    (destruct (PyDict.get "wikipedia_entries_found" d) as [w |];
     [destruct (v_literal true w) as [w' |] eqn:Hw |]);
    (destruct (PyDict.get "text" d) as [t |]; [destruct (v_str t) as [t' |] eqn:Ht |]);
    try done.
  intros [= <-].
  apply v_str_Some_str in Hc as [? ->]. apply v_str_Some_str in Hu as [? ->].
  apply v_str_Some_str in Hti as [? ->]. apply v_str_Some_str in Ht as [? ->].
  apply v_literal_Some in Hw as ->. by eexists _, _, _, _.
Qed.

(** What the loop body of the summarization service returns for one
    validated linked entity. *)
Lemma summarize_entity_Ok summarize raw linked summarized :
  schemas.WikipediaEntity raw = Some linked →
  services.summarize_entity summarize linked = Ok summarized →
  summarized_entity_of summarize linked summarized
  ∧ v_union (v_model schemas.SummarizedWikipediaEntity)
            (v_model schemas.WikipediaEntityNotFound) summarized = Some summarized.
Proof.
  unfold schemas.WikipediaEntity, v_union at 1.
  destruct (v_model schemas.WikipediaEntityFound raw) as [found |] eqn:Hfound.
  - intros [= <-]. apply v_model_Found_shape in Hfound
      as (text & title & url & content & ->).
    unfold services.summarize_entity. intros H. cbn in H.
    revert H. unfold services.getattr. cbn [PyDict.get found_entity]. decide_keys.
    cbn [result_bind services.as_str].
    destruct (summarize content) as [summary |] eqn:Hsum; [| done].
    cbn [result_bind]. intros H. vm_compute in H. injection H as <-.
    split; [| vm_compute; reflexivity].
    right. by exists text, title, url, content, summary.
  - intros Hnot Hsum.
    pose proof (stable_v_model _ stable_WikipediaEntityNotFound _ _ Hnot) as Hfix.
    pose proof (exclusive_Summarized_NotFound _ _ Hnot) as Hex.
    apply v_model_NotFound_tag in Hnot as [text ->].
    unfold services.summarize_entity in Hsum. cbn in Hsum. revert Hsum.
    unfold services.getattr. cbn [PyDict.get]. decide_keys. cbn [result_bind].
    intros [= <-]. split.
    + left. by exists text.
    + unfold v_union. by rewrite Hex, Hfix.
Qed.

(** X14: the summarization service returns one entity per linked entity
    of its input, in the input's order: an entity without Wikipedia entry
    as validation returned it, an entity with an entry with the summary of
    its content added as the field [summary]. *)
Theorem summarization_summarizes_found_entities load summarize Z W :
  predict (new_service (services.EntitySummarizationModelService load summarize)) Z = Ok W →
  ∃ linked_entities summarized_entities,
    PyDict.get "linked_entities" Z = Some (JList linked_entities)
    ∧ PyDict.get "summarized_entities" W = Some (JList summarized_entities)
    ∧ Forall2 (λ raw summarized,
                 ∃ linked, schemas.WikipediaEntity raw = Some linked
                           ∧ summarized_entity_of summarize linked summarized)
              linked_entities summarized_entities.
Proof.
  intros (v & out & Hv & Hout & ->)%predict_Ok_inv.
  cbn in Hv, Hout. unfold services.EntitySummarization_predict in Hout. bind_ok Hout.
  rename a0 into validated, a1 into validated_l, a2 into summarized.
  apply getattr_Ok in E0. apply as_list_Ok in E1 as ->.
  apply result_map_Forall2 in E2.
  assert (NoDup (field_name <$> model_fields schemas.EntitySummarizationInputSchema))
    as Hnd_in by (cbn; distinct_names).
  assert (NoDup (field_name <$> model_fields schemas.EntitySummarizationResultSchema))
    as Hnd_out by (cbn; distinct_names).
  pose proof (model_validate_get _ _ _
                (required "linked_entities" (v_list schemas.WikipediaEntity))
                Hnd_in Hv ltac:(field_in)) as Hlinked.
  cbn in Hlinked. rewrite E0 in Hlinked.
  destruct (PyDict.get "linked_entities" Z) as [raw |]; [| done].
  symmetry in Hlinked. apply v_list_Some in Hlinked as (raws & l' & -> & [= <-] & Hraw).
  apply mapM_Some in Hraw.
  assert (Forall2 (λ raw s,
                     ∃ linked, schemas.WikipediaEntity raw = Some linked
                               ∧ services.summarize_entity summarize linked = Ok s)
                  raws summarized) as Hall.
  { clear -Hraw E2. revert summarized E2.
    induction Hraw as [| raw l raws ls Hl _ IH]; intros summarized E2.
    - inversion E2. constructor.
    - inversion E2 as [| ? s ? ss Hs Hss]; subst. constructor; [eauto | by apply IH]. }
  exists raws, summarized. split; [done |]. split.
  - pose proof (model_validate_get _ _ _
                  (required "summarized_entities"
                     (v_list (v_union (v_model schemas.SummarizedWikipediaEntity)
                                      (v_model schemas.WikipediaEntityNotFound))))
                  Hnd_out Hout ltac:(field_in)) as Hsum.
    cbn in Hsum. unfold model_dump. rewrite Hsum. decide_keys. cbn.
    rewrite mapM_fixed; [done |].
    clear -Hall. induction Hall as [| raw s raws ss (l & Hl & Hs) _ IH];
      constructor; [| done].
    by destruct (summarize_entity_Ok _ _ _ _ Hl Hs).
  - clear -Hall. induction Hall as [| raw s raws ss (l & Hl & Hs) _ IH];
      constructor; [| done].
    exists l. split; [done |]. by destruct (summarize_entity_Ok _ _ _ _ Hl Hs).
Qed.

(** The summarization service of the deployment on the linked document,
    sent with [1] and [0] for the booleans: validation turns them into the
    booleans, and the result is that of the document sent with booleans. *)
Lemma summarization_summarizes_found_entities_witness :
  predict (new_service example.summarization) example.linked = Ok example.summarized
  ∧ predict (new_service example.summarization) example.linked_with_integer_tags
    = Ok example.summarized
  ∧ ∃ linked_entities summarized_entities,
      PyDict.get "linked_entities" example.linked_with_integer_tags
      = Some (JList linked_entities)
      ∧ PyDict.get "summarized_entities" example.summarized
        = Some (JList summarized_entities)
      ∧ Forall2 (λ raw summarized,
                   ∃ linked, schemas.WikipediaEntity raw = Some linked
                             ∧ summarized_entity_of example.summarize_text
                                                    linked summarized)
                linked_entities summarized_entities.
Proof.
  assert (predict (new_service example.summarization) example.linked_with_integer_tags
          = Ok example.summarized) as Hpred by (vm_compute; reflexivity).
  split; [vm_compute; reflexivity |]. split; [exact Hpred |].
  exact (summarization_summarizes_found_entities (Ok tt) example.summarize_text
           example.linked_with_integer_tags example.summarized Hpred).
Defined.

(** ** The HTTP layer *)

(** X15: [GET /{topic}/last_response] never answers 404.  The 404 that the
    endpoint raises for a topic without a cached response is raised inside
    its own [try] and caught by its [except Exception], which answers 500;
    after a publish to the topic that returned a non-empty response, the
    endpoint answers with that response. *)
Theorem last_response_never_answers_404 topic c :
  (∀ d, main.last_response topic c ≠ main.Error 404 d)
  ∧ (get_last_response topic c = PyDict.empty →
     main.last_response topic c = main.Error 500 (main.Text "Internal Server Error"))
  ∧ (∀ fuel msg response c' evs,
       publish fuel topic msg c = (Returns response, c', evs) →
       response ≠ PyDict.empty →
       main.last_response topic c' = main.Reply response).
Proof.
  split; [| split].
  - intros d. unfold main.last_response.
    destruct (get_last_response topic c); cbn; discriminate.
  - intros Hempty. unfold main.last_response. by rewrite Hempty.
  - intros fuel msg response c' evs Hp Hne.
    destruct (publish_returns_stored _ _ _ _ _ _ _ Hp) as [_ Hget].
    unfold main.last_response. rewrite Hget. by destruct response.
Qed.

(** On the deployment: nothing cached for the recognition topic on the
    wired client, and the linked document after a publish to the linking
    topic. *)
Lemma last_response_never_answers_404_witness :
  let c := example.wired example.catalogue in
  let run := publish 2 "entity-linking-trigger" example.recognized c in
  main.last_response "entity-linking-trigger" c
  = main.Error 500 (main.Text "Internal Server Error")
  ∧ run.1.1 = Returns example.linked
  ∧ main.last_response "entity-linking-trigger" run.1.2 = main.Reply example.linked.
Proof.
  intros c run.
  destruct (last_response_never_answers_404 "entity-linking-trigger" c)
    as (_ & Hempty & Hafter).
  split; [apply Hempty; vm_compute; reflexivity |].
  split; [vm_compute; reflexivity |].
  apply (Hafter 2 example.recognized example.linked run.1.2 run.2);
    [vm_compute; reflexivity | discriminate].
Defined.

(** X16: [POST /{model_name}/predict] on a registry constructed over a
    catalogue built by the decorators.  A name that is not catalogued is
    answered 404 with the message of [get_model]; for a catalogued name the
    endpoint answers with the result of the service's [predict], and when
    [predict] raises it answers 404 for a [ValueError], among them every
    [ValidationError] of the input, and 500 for anything else. *)
Theorem predict_endpoint_statuses derives cls model_name model_input :
  decorated cls →
  main.predict derives {| _service_instances := create_instances (_model_services cls) |}
               model_name model_input
  = match PyDict.get model_name (_model_services cls) with
    | None =>
        main.Error 404
          (main.StrOf (ValueError ("Model service '" +:+ model_name +:+ "' not found.")))
    | Some model_service_class =>
        match predict (new_service model_service_class) model_input with
        | Ok response => main.Reply response
        | Raise e =>
            if main.is_ValueError derives e then main.Error 404 (main.StrOf e)
            else main.Error 500 (main.Text "Internal Server Error")
        end
    end
  ∧ ∀ model_service_class f,
      PyDict.get model_name (_model_services cls) = Some model_service_class →
      f ∈ model_fields (cls_get_input_schema model_service_class) →
      field_default f = None →
      PyDict.get (field_name f) model_input = None →
      ∃ errors,
        main.predict derives
          {| _service_instances := create_instances (_model_services cls) |}
          model_name model_input
        = main.Error 404
            (main.StrOf (ValidationError
                           (class_name (cls_get_input_schema model_service_class))
                           errors)).
Proof.
  intros Hdec.
  assert (main.predict derives
            {| _service_instances := create_instances (_model_services cls) |}
            model_name model_input
          = match PyDict.get model_name (_model_services cls) with
            | None =>
                main.Error 404
                  (main.StrOf
                     (ValueError ("Model service '" +:+ model_name +:+ "' not found.")))
            | Some model_service_class =>
                match predict (new_service model_service_class) model_input with
                | Ok response => main.Reply response
                | Raise e =>
                    if main.is_ValueError derives e then main.Error 404 (main.StrOf e)
                    else main.Error 500 (main.Text "Internal Server Error")
                end
            end) as Hmain.
  { unfold main.predict, get_model. cbn. rewrite (create_instances_get _ _ Hdec).
    destruct (PyDict.get model_name (_model_services cls)) as [k |]; cbn; [| done].
    by destruct (predict (new_service k) model_input). }
  split; [exact Hmain |].
  intros k f Hget Hin Hreq Hmiss. rewrite Hmain, Hget.
  destruct (model_validate_missing (cls_get_input_schema k) model_input f Hin Hreq Hmiss)
    as (errors & _ & Hval).
  exists errors. unfold predict, get_input_schema. cbn. by rewrite Hval.
Qed.

(** The deployment: an unknown name and a document without [text]. *)
Lemma predict_endpoint_statuses_witness :
  let registry := example.constructed example.catalogue in
  main.predict (λ _, false) registry "translation" example.document
  = main.Error 404 (main.StrOf (ValueError "Model service 'translation' not found."))
  ∧ main.predict (λ _, false) registry "entity-recognition" example.document
    = main.Reply example.recognized
  ∧ ∃ errors,
      main.predict (λ _, false) registry "entity-recognition" [("id", JStr "doc1")]
      = main.Error 404 (main.StrOf (ValidationError "EntityRecognitionInputSchema" errors)).
Proof.
  intros registry.
  pose proof (λ n i, predict_endpoint_statuses (λ _, false) example.catalogue n i
                       example_catalogue_decorated) as Hep.
  split; [exact (proj1 (Hep "translation" example.document)) |].
  split.
  - etrans; [exact (proj1 (Hep "entity-recognition" example.document)) |].
    vm_compute. reflexivity.
  - apply (proj2 (Hep "entity-recognition" [("id", JStr "doc1")])
             example.recognition (required "text" v_str)).
    + reflexivity.
    + apply elem_of_cons. right. apply elem_of_cons. by left.
    + reflexivity.
    + reflexivity.
Defined.

(** X17: [POST /publish] changes the client as [publish] does and answers
    from its outcome alone: when [publish] returns, with the request's
    payload and never with the handler's response; when the topic is not
    registered, 400 with the message of [publish]; when [publish] raises
    otherwise, 400 for a [ValueError] and 500 for anything else. *)
Theorem publish_endpoint_answers derives fuel message_id topic payload timestamp c :
  let run := publish fuel topic payload c in
  let answer := main.publish derives fuel message_id topic payload timestamp c in
  answer.1.2 = run.1.2
  ∧ answer.2 = run.2
  ∧ (∀ response,
       run.1.1 = Returns response →
       answer.1.1 = Returns (main.Reply [("message_id", JStr message_id);
                                         ("topic", JStr topic);
                                         ("payload", JDict payload);
                                         ("timestamp", JStr timestamp)]))
  ∧ (∀ e,
       run.1.1 = Raises e →
       answer.1.1
       = Returns (if main.is_ValueError derives e then main.Error 400 (main.StrOf e)
                  else main.Error 500 (main.Text "Internal Server Error")))
  ∧ (_message_queues c !! topic = None → fuel ≠ 0 →
     answer = (Returns (main.Error 400 (main.StrOf (UnknownTopicError topic))), c,
               [EvPublish topic payload])).
Proof.
  intros run answer. subst run answer. unfold main.publish.
  split; [| split; [| split; [| split]]].
  - by destruct (publish fuel topic payload c) as [[[r | e |] c'] evs].
  - by destruct (publish fuel topic payload c) as [[[r | e |] c'] evs].
  - intros response.
    destruct (publish fuel topic payload c) as [[[r | e |] c'] evs]; cbn; by intros [=].
  - intros e0.
    destruct (publish fuel topic payload c) as [[[r | e |] c'] evs]; cbn; intros [=].
    subst. by destruct (main.is_ValueError derives e0).
  - intros Hq Hfuel. destruct fuel as [| fuel]; [done |].
    by rewrite (publish_unregistered _ _ _ _ Hq).
Qed.

(** The deployment: a publish down the linking chain is answered with the
    payload, a publish to a topic nobody registered with 400. *)
Lemma publish_endpoint_answers_witness :
  let c := example.wired example.catalogue in
  (main.publish (λ _, false) 2 "m1" "entity-linking-trigger" example.recognized
                "2025-01-01T00:00:00+00:00" c).1.1
  = Returns (main.Reply [("message_id", JStr "m1");
                         ("topic", JStr "entity-linking-trigger");
                         ("payload", JDict example.recognized);
                         ("timestamp", JStr "2025-01-01T00:00:00+00:00")])
  ∧ main.publish (λ _, false) 1 "m2" "summaries" example.document
                 "2025-01-01T00:00:00+00:00" c
    = (Returns (main.Error 400 (main.StrOf (ValueError "Topic summaries not registered."))),
       c, [EvPublish "summaries" example.document]).
Proof.
  intros c. split.
  - destruct (publish_endpoint_answers (λ _, false) 2 "m1" "entity-linking-trigger"
                example.recognized "2025-01-01T00:00:00+00:00" c)
      as (_ & _ & Hret & _).
    apply (Hret example.linked). vm_compute. reflexivity.
  - destruct (publish_endpoint_answers (λ _, false) 1 "m2" "summaries"
                example.document "2025-01-01T00:00:00+00:00" c)
      as (_ & _ & _ & _ & Hunknown).
    apply Hunknown; [vm_compute; reflexivity | discriminate].
Defined.

(** ** The wired client *)

(** X18: on a fresh client wired by a registry over a catalogue built by
    the decorators, the registered topics are exactly the trigger topics of
    the catalogued names, each with a callback, so that [publish] raises the
    unknown-topic error on every other topic and the no-handler error on
    none; and the topic that a chained callback publishes to is registered. *)
Theorem wired_topics_are_trigger_topics cls registry c evs :
  decorated cls →
  ModelRegistry_init cls PubSubClient_init = (Returns registry, c, evs) →
  (∀ t, (∃ cb, _message_queues c !! t = Some (Some cb))
        ↔ ∃ n, n ∈ model_names cls ∧ t = n +:+ "-trigger")
  ∧ (∀ t, _message_queues c !! t ≠ Some None)
  ∧ (∀ t, (∀ n, n ∈ model_names cls → t ≠ n +:+ "-trigger") →
          _message_queues c !! t = None)
  ∧ (∀ t source target,
       _message_queues c !! t = Some (Some (ChainedCallback source target)) →
       ∃ cb, _message_queues c !! trigger_topic target = Some (Some cb)).
Proof.
  intros Hdec Hinit.
  destruct (decorated_services _ Hdec) as [Hnd Hkeys].
  destruct (create_instances_spec (_model_services cls)) as (Hnd' & Hfrom & Hall).
  destruct (ModelRegistry_init_table _ _ _ _ _ Hinit) as (_ & Hframe & Hwired).
  cbn zeta in Hframe, Hwired.
  assert (∀ t, t ∈ (trigger_topic ∘ snd) <$> create_instances (_model_services cls)
               ↔ ∃ n, n ∈ model_names cls ∧ t = n +:+ "-trigger") as Htrig.
  { intros t. rewrite list_elem_of_fmap. split.
    - intros ([k s] & -> & Hin). destruct (Hfrom _ _ Hin) as (k' & Hk' & -> & ->).
      exists (cls_NAME k'). split; [| done].
      apply list_elem_of_fmap in Hk' as ([n k''] & -> & Hin'). cbn.
      rewrite <- (Hkeys _ _ Hin'). apply pydict_keys_elem. eauto.
    - intros (n & [k Hk]%pydict_keys_elem & ->). pose proof (Hkeys _ _ Hk) as ->.
      assert (k ∈ PyDict.values (_model_services cls)) as Hv.
      { apply list_elem_of_fmap. by exists (cls_NAME k, k). }
      apply Hall, pydict_keys_elem in Hv as [s Hs].
      exists (cls_NAME k, s). split; [| done].
      by destruct (Hfrom _ _ Hs) as (k' & _ & -> & ->). }
  assert (∀ t, _message_queues c !! t = None
               ∨ ∃ k s cb, (k, s) ∈ create_instances (_model_services cls)
                           ∧ t = trigger_topic s
                           ∧ effective_callback (_chains cls)
                               (create_instances (_model_services cls)) k s = Ok cb
                           ∧ _message_queues c !! t = Some (Some cb)) as Hcases.
  { intros t.
    destruct (decide (t ∈ (trigger_topic ∘ snd) <$> create_instances (_model_services cls)))
      as [Ht | Ht].
    - right. apply list_elem_of_fmap in Ht as ([k s] & -> & Hin).
      destruct (Hwired _ _ Hin) as (cb & Hcb & Hq). by exists k, s, cb.
    - left. rewrite (Hframe _ Ht). apply lookup_empty. }
  split; [| split; [| split]].
  - intros t. rewrite <- Htrig. split.
    + intros [cb Hq]. destruct (Hcases t) as [Hnone | (k & s & cb' & Hin & -> & _)].
      * by rewrite Hnone in Hq.
      * apply list_elem_of_fmap. by exists (k, s).
    + intros ([k s] & -> & Hin)%list_elem_of_fmap.
      destruct (Hwired _ _ Hin) as (cb & _ & Hq). eauto.
  - intros t Hq. destruct (Hcases t) as [Hnone | (k & s & cb & _ & _ & _ & Hq')];
      congruence.
  - intros t Ht. destruct (Hcases t) as [Hnone | (k & s & cb & Hin & -> & _)]; [done |].
    exfalso. assert (∃ n, n ∈ model_names cls ∧ trigger_topic s = n +:+ "-trigger")
      as (n & Hn & Heq).
    { apply Htrig, list_elem_of_fmap. by exists (k, s). }
    by apply (Ht n).
  - intros t source target Hq.
    destruct (Hcases t) as [Hnone | (k & s & cb & Hin & -> & Hcb & Hq')];
      [by rewrite Hnone in Hq |].
    rewrite Hq' in Hq. injection Hq as ->.
    unfold effective_callback in Hcb.
    destruct (_chains cls !! k) as [target_name |]; [| done].
    destruct (PyDict.get target_name (create_instances (_model_services cls)))
      as [target_service |] eqn:Hget; [| done].
    injection Hcb as <- <-. apply pydict_get_elem in Hget.
    destruct (Hwired _ _ Hget) as (cb & _ & Hq). eauto.
Qed.

(** The wired client of the deployment. *)
Lemma wired_topics_are_trigger_topics_witness :
  let c := example.wired example.catalogue in
  ModelRegistry_init example.catalogue PubSubClient_init
  = (Returns (example.constructed example.catalogue), c, [])
  ∧ (∃ cb, _message_queues c !! "entity-linking-trigger" = Some (Some cb))
  ∧ _message_queues c !! "entity-linking" = None.
Proof.
  intros c.
  assert (ModelRegistry_init example.catalogue PubSubClient_init
          = (Returns (example.constructed example.catalogue), c, [])) as Hinit
    by (vm_compute; reflexivity).
  split; [exact Hinit |].
  destruct (wired_topics_are_trigger_topics example.catalogue _ c []
              example_catalogue_decorated Hinit) as (Hreg & _ & Hnone & _).
  split.
  - apply Hreg. exists "entity-linking". split; [| reflexivity].
    apply elem_of_cons. right. apply elem_of_cons. by left.
  - apply Hnone. intros n Hn.
    repeat (apply elem_of_cons in Hn as [-> | Hn]; [discriminate |]).
    by apply elem_of_nil in Hn.
Defined.

(** ** The linking service: which failures reach the caller *)

(** Every declared field of a validated instance is present and holds a
    value that its annotation accepts as it is. *)
Lemma validate_fields_present data f : ∀ fields vals,
  stable_fields fields →
  validate_fields fields data = (vals, []) →
  f ∈ fields →
  ∃ x, PyDict.get (field_name f) vals = Some x ∧ field_type f x = Some x.
Proof.
  induction fields as [| g fields IH]; intros vals [Hnd Hst] Hval Hin;
    [by apply elem_of_nil in Hin |].
  cbn in Hnd. apply NoDup_cons in Hnd as [Hfresh Hnd].
  apply Forall_cons in Hst as [[Hstable Hdefault] Hst].
  cbn in Hval. destruct (validate_fields fields data) as [vr er] eqn:Hrest.
  assert (∃ v', vals = (field_name g, v') :: vr ∧ er = [] ∧ field_type g v' = Some v')
    as (v' & -> & -> & Hv').
  { destruct (PyDict.get (field_name g) data) as [v |].
    - destruct (field_type g v) as [v' |] eqn:Hv; simplify_eq. eauto.
    - destruct (field_default g) as [d |] eqn:Hd; simplify_eq. eauto. }
  cbn. apply elem_of_cons in Hin as [-> | Hin].
  - exists v'. by rewrite decide_True.
  - rewrite decide_False; [by apply IH |].
    intros Heq. apply Hfresh. rewrite <- Heq. by apply list_elem_of_fmap_2.
Qed.

Lemma model_validate_present cls data instance f :
  stable_fields (model_fields cls) →
  model_validate cls data = Ok instance →
  f ∈ model_fields cls →
  ∃ x, PyDict.get (field_name f) (model_data instance) = Some x ∧ field_type f x = Some x.
Proof.
  intros Hst Hval Hin. unfold model_validate in Hval.
  destruct (validate_fields (model_fields cls) data) as [vals [| err errs]] eqn:Hf;
    [| done].
  simplify_eq. cbn. by eapply validate_fields_present.
Qed.

Lemma stable_EntityLinkingInputSchema uuid4 :
  stable_fields (model_fields (schemas.EntityLinkingInputSchema uuid4)).
Proof.
  pose proof (stable_v_list _ (stable_v_model _ stable_Entity)).
  stable_fields_tac.
Qed.

Lemma v_model_Entity_shape j j' :
  v_model schemas.Entity j = Some j' →
  ∃ text label, j' = JDict [("text", JStr text); ("label", JStr label)].
Proof.
  destruct j as [| | | | | d]; try done.
  unfold v_model, schemas.Entity, model_fields, validate_fields, required,
    field_name, field_type, field_default.
  destruct (PyDict.get "label" d) as [lab |];
    [destruct (v_str lab) as [lab' |] eqn:Hlab |];
    (destruct (PyDict.get "text" d) as [t |]; [destruct (v_str t) as [t' |] eqn:Ht |]);
    try done.
  intros [= <-]. apply v_str_Some_str in Ht as [? ->].
  apply v_str_Some_str in Hlab as [? ->]. eauto.
Qed.

Lemma mapM_fixed_inv (v : validator) l :
  mapM v l = Some l → Forall (λ j, v j = Some j) l.
Proof.
  induction l as [| x l IH]; [constructor |]. cbn.
  destruct (v x) as [y |] eqn:Hx; cbn; [| done].
  destruct (mapM v l) as [k |]; cbn; [| done].
  intros [= -> ->]. constructor; [done | by apply IH].
Qed.

Lemma result_map_total {A B} (f : A → result B) l :
  Forall (λ x, ∃ y, f x = Ok y) l → ∃ l', result_map f l = Ok l'.
Proof.
  induction 1 as [| x l [y Hy] _ [l' IH]]; cbn; [eauto |].
  rewrite Hy. cbn. rewrite IH. cbn. eauto.
Qed.

(** The loop body of the linking service returns for every validated
    entity unless Wikipedia answers with a disambiguation. *)
Lemma link_entity_total wiki entity :
  (∀ title options, wiki title ≠ services.DisambiguationError options) →
  v_model schemas.Entity entity = Some entity →
  ∃ linked, services.link_entity wiki entity = Ok linked.
Proof.
  intros Hwiki (text & label & ->)%v_model_Entity_shape.
  unfold services.link_entity, services.getattr. cbn [services.as_dict result_bind PyDict.get].
  decide_keys. cbn [services.as_str result_bind].
  destruct (wiki text) as [title url content | options | | e] eqn:Hw.
  - cbn [result_bind]. rewrite found_entry_valid. eauto.
  - by destruct (Hwiki text options).
  - cbn [result_bind]. rewrite not_found_entry_valid. eauto.
  - cbn [result_bind]. rewrite not_found_entry_valid. eauto.
Qed.

Lemma linking_returns uuid4 wiki Y :
  conforms (schemas.EntityLinkingInputSchema uuid4) Y = true →
  (∀ title options, wiki title ≠ services.DisambiguationError options) →
  ∃ Z, predict (new_service (services.EntityLinkingModelService uuid4 wiki)) Y = Ok Z.
Proof.
  intros Hconf Hwiki. unfold conforms in Hconf.
  destruct (model_validate (schemas.EntityLinkingInputSchema uuid4) Y) as [v |] eqn:Hv;
    [clear Hconf | done].
  pose proof (stable_EntityLinkingInputSchema uuid4) as Hst.
  destruct (model_validate_present _ _ _ (with_default "id" (JStr uuid4) v_str)
              Hst Hv ltac:(field_in)) as (id & Hid & Hid').
  destruct (model_validate_present _ _ _ (required "text" v_str)
              Hst Hv ltac:(field_in)) as (text & Htext & Htext').
  destruct (model_validate_present _ _ _
              (required "entities" (v_list (v_model schemas.Entity)))
              Hst Hv ltac:(field_in)) as (entities & Hents & Hents').
  cbn in Hid, Hid', Htext, Htext', Hents, Hents'.
  apply v_list_Some in Hents' as (es & es' & -> & [= <-] & Hes).
  assert (Forall (λ e, v_model schemas.Entity e = Some e) es) as Hvalid.
  { by apply mapM_fixed_inv. }
  destruct (result_map_total (services.link_entity wiki) es) as [linked Hlinked].
  { eapply Forall_impl; [exact Hvalid |]. intros e He. by apply link_entity_total. }
  assert (mapM schemas.WikipediaEntity linked = Some linked) as Hfix.
  { apply mapM_fixed. apply result_map_Forall2 in Hlinked. clear -Hlinked.
    induction Hlinked as [| e l es ls Hl _ IH]; constructor; [| done].
    by apply link_entity_Ok in Hl as (_ & _ & _ & _ & _ & Hl). }
  unfold predict, get_input_schema, _predict. cbn [new_service service_class
    cls_get_input_schema cls_predict services.EntityLinkingModelService].
  rewrite Hv. cbn [result_bind]. unfold services.EntityLinking_predict, services.getattr.
  rewrite Hents, Hid, Htext. cbn [result_bind services.as_list]. rewrite Hlinked.
  cbn [result_bind]. unfold model_validate.
  cbn [model_fields schemas.EntityLinkingResultSchema validate_fields required
       field_name field_type field_default PyDict.get].
  decide_keys. rewrite Hid', Htext'. cbn [v_list]. rewrite Hfix. cbn. eauto.
Qed.

(** X20: the linking service fails on an input that conforms to its input
    schema only when Wikipedia answers some lookup with a disambiguation:
    if no lookup is ambiguous, [predict] returns for every conforming input,
    whatever other errors the lookups raise. *)
Theorem linking_fails_only_on_disambiguation uuid4 wiki Y :
  conforms (schemas.EntityLinkingInputSchema uuid4) Y = true →
  (∀ title options, wiki title ≠ services.DisambiguationError options) →
  ∃ Z, predict (new_service (services.EntityLinkingModelService uuid4 wiki)) Y = Ok Z.
Proof. apply linking_returns. Qed.

(** The deployment: a document whose second entity has no page. *)
Lemma linking_fails_only_on_disambiguation_witness :
  conforms (schemas.EntityLinkingInputSchema example.uuid4) example.recognized = true
  ∧ example.wikipedia_page "Seattle" = services.PageError
  ∧ ∃ Z, predict (new_service example.linking) example.recognized = Ok Z.
Proof.
  split; [vm_compute; reflexivity |]. split; [reflexivity |].
  apply (linking_fails_only_on_disambiguation example.uuid4 example.wikipedia_page
           example.recognized); [vm_compute; reflexivity |].
  intros title options. unfold example.wikipedia_page.
  destruct (decide (title = "Seattle")); discriminate.
Defined.

(** ** The pipeline from end to end *)

Lemma recognition_returns uuid4 ner X :
  conforms (schemas.EntityRecognitionInputSchema uuid4) X = true →
  (∀ text, ∃ ner_results, ner text = Ok ner_results) →
  ∃ Y, predict (new_service (services.EntityRecognitionModelService uuid4 ner)) X = Ok Y.
Proof.
  intros Hconf Hner. unfold conforms in Hconf.
  destruct (model_validate (schemas.EntityRecognitionInputSchema uuid4) X) as [v |] eqn:Hv;
    [clear Hconf | done].
  pose proof (stable_EntityRecognitionInputSchema uuid4) as Hst.
  destruct (model_validate_present _ _ _ (with_default "id" (JStr uuid4) v_str)
              Hst Hv ltac:(field_in)) as (id & Hid & Hid').
  destruct (model_validate_present _ _ _ (required "text" v_str)
              Hst Hv ltac:(field_in)) as (text & Htext & Htext').
  cbn in Hid, Hid', Htext, Htext'.
  destruct (v_str_Some_str _ _ Htext') as [text_s ->].
  destruct (Hner text_s) as [ner_results Hres].
  destruct (result_map_total
              (λ r : string * string,
                 model_validate schemas.Entity [("text", JStr r.1); ("label", JStr r.2)])
              ner_results) as [entities Hentities].
  { apply Forall_forall. intros [w g] _. eexists. vm_compute. reflexivity. }
  assert (map services.instance_value entities = recognized_entity <$> ner_results) as Hmap.
  { apply result_map_Forall2 in Hentities. clear -Hentities.
    induction Hentities as [| [w g] inst rs insts Hinst _ IH]; [done |].
    cbn. f_equal; [| exact IH]. vm_compute in Hinst. by injection Hinst as <-. }
  assert (mapM (v_model schemas.Entity) (recognized_entity <$> ner_results)
          = Some (recognized_entity <$> ner_results)) as Hfix.
  { apply mapM_fixed, Forall_fmap, Forall_forall. intros [w g] _. vm_compute. reflexivity. }
  unfold predict, get_input_schema, _predict. cbn [new_service service_class
    cls_get_input_schema cls_predict services.EntityRecognitionModelService].
  rewrite Hv. cbn [result_bind]. unfold services.EntityRecognition_predict, services.getattr.
  rewrite Htext, Hid. cbn [result_bind services.as_str]. rewrite Hres.
  cbn [result_bind]. rewrite Hentities. cbn [result_bind]. rewrite Hmap.
  unfold model_validate.
  cbn [model_fields schemas.EntityRecognitionResultSchema validate_fields required
       with_default field_name field_type field_default PyDict.get].
  decide_keys. rewrite Hid'. cbn [v_str v_list]. rewrite Hfix. cbn. eauto.
Qed.

Lemma summarize_entity_total summarize linked :
  (∀ content, ∃ summary, summarize content = Ok summary) →
  schemas.WikipediaEntity linked = Some linked →
  ∃ summarized, services.summarize_entity summarize linked = Ok summarized.
Proof.
  intros Hsum. unfold schemas.WikipediaEntity, v_union.
  destruct (v_model schemas.WikipediaEntityFound linked) as [found |] eqn:Hfound.
  - intros [= ->]. apply v_model_Found_shape in Hfound
      as (text & title & url & content & ->).
    destruct (Hsum content) as [summary Hs].
    unfold services.summarize_entity, services.getattr.
    cbn [services.as_dict result_bind PyDict.get found_entity]. decide_keys.
    cbn [result_bind services.as_str]. rewrite Hs. cbn [result_bind].
    eexists. vm_compute. reflexivity.
  - intros [text ->]%v_model_NotFound_tag.
    unfold services.summarize_entity, services.getattr.
    cbn [services.as_dict result_bind PyDict.get]. decide_keys.
    cbn [result_bind]. eauto.
Qed.

Lemma stable_EntitySummarizationInputSchema :
  stable_fields (model_fields schemas.EntitySummarizationInputSchema).
Proof.
  pose proof (stable_v_list _ stable_WikipediaEntity).
  stable_fields_tac.
Qed.

Lemma summarization_returns load summarize Z :
  conforms schemas.EntitySummarizationInputSchema Z = true →
  load = Ok tt →
  (∀ content, ∃ summary, summarize content = Ok summary) →
  ∃ W, predict (new_service (services.EntitySummarizationModelService load summarize)) Z
       = Ok W.
Proof.
  intros Hconf -> Hsum. unfold conforms in Hconf.
  destruct (model_validate schemas.EntitySummarizationInputSchema Z) as [v |] eqn:Hv;
    [clear Hconf | done].
  pose proof stable_EntitySummarizationInputSchema as Hst.
  destruct (model_validate_present _ _ _ (required "id" v_str)
              Hst Hv ltac:(field_in)) as (id & Hid & Hid').
  destruct (model_validate_present _ _ _ (required "text" v_str)
              Hst Hv ltac:(field_in)) as (text & Htext & Htext').
  destruct (model_validate_present _ _ _
              (required "linked_entities" (v_list schemas.WikipediaEntity))
              Hst Hv ltac:(field_in)) as (linked & Hlinked & Hlinked').
  cbn in Hid, Hid', Htext, Htext', Hlinked, Hlinked'.
  apply v_list_Some in Hlinked' as (ls & ls' & -> & [= <-] & Hls).
  apply mapM_fixed_inv in Hls.
  destruct (result_map_total (services.summarize_entity summarize) ls)
    as [summarized Hsummarized].
  { eapply Forall_impl; [exact Hls |]. intros l Hl. by apply summarize_entity_total. }
  assert (mapM (v_union (v_model schemas.SummarizedWikipediaEntity)
                        (v_model schemas.WikipediaEntityNotFound)) summarized
          = Some summarized) as Hfix.
  { apply mapM_fixed. apply result_map_Forall2 in Hsummarized.
    clear -Hls Hsummarized.
    induction Hsummarized as [| l s ls ss Hs _ IH]; [constructor |].
    apply Forall_cons in Hls as [Hl Hls]. constructor; [| by apply IH].
    by destruct (summarize_entity_Ok _ _ _ _ Hl Hs). }
  unfold predict, get_input_schema, _predict. cbn [new_service service_class
    cls_get_input_schema cls_predict services.EntitySummarizationModelService].
  rewrite Hv. cbn [result_bind].
  unfold services.EntitySummarization_predict, services.getattr.
  cbn [result_bind]. rewrite Hlinked, Hid, Htext. cbn [result_bind services.as_list].
  rewrite Hsummarized. cbn [result_bind]. unfold model_validate.
  cbn [model_fields schemas.EntitySummarizationResultSchema validate_fields required
       field_name field_type field_default PyDict.get].
  decide_keys. rewrite Hid', Htext'. cbn [v_list]. rewrite Hfix. cbn. eauto.
Qed.

(** X21: the pipeline of the deployment returns for every document that
    conforms to the input schema of the recognition service, provided the
    NER pipeline returns, no Wikipedia lookup is ambiguous, the
    summarization model loads and the summarizer returns: a publish to the
    recognition topic then returns the recognition output and leaves the
    outputs of the three services as the last responses of their topics. *)
Theorem pipeline_returns_for_every_document uuid4 ner wiki summarize X fuel :
  let recognition := new_service (services.EntityRecognitionModelService uuid4 ner) in
  let linking := new_service (services.EntityLinkingModelService uuid4 wiki) in
  let summarization :=
    new_service (services.EntitySummarizationModelService (Ok tt) summarize) in
  let c :=
    (ModelRegistry_init
       (loaded_services (services.EntitySummarizationModelService (Ok tt) summarize)
                        (services.EntityLinkingModelService uuid4 wiki)
                        (services.EntityRecognitionModelService uuid4 ner))
       PubSubClient_init).1.2 in
  conforms (schemas.EntityRecognitionInputSchema uuid4) X = true →
  (∀ text, ∃ ner_results, ner text = Ok ner_results) →
  (∀ title options, wiki title ≠ services.DisambiguationError options) →
  (∀ content, ∃ summary, summarize content = Ok summary) →
  ∃ Y Z W c' evs,
    predict recognition X = Ok Y
    ∧ predict linking Y = Ok Z
    ∧ predict summarization Z = Ok W
    ∧ publish (3 + fuel) "entity-recognition-trigger" X c = (Returns Y, c', evs)
    ∧ get_last_response "entity-recognition-trigger" c' = Y
    ∧ get_last_response "entity-linking-trigger" c' = Z
    ∧ get_last_response "entity-summarization-trigger" c' = W.
Proof.
  intros recognition linking summarization c Hconf Hner Hwiki Hsum.
  destruct (recognition_returns uuid4 ner X Hconf Hner) as [Y HY].
  assert (conforms (schemas.EntityLinkingInputSchema uuid4) Y = true) as HconfY.
  { pose proof HY as (v & out & _ & Hout & ->)%predict_Ok_inv.
    destruct (services_predict_validated uuid4 ner wiki (Ok tt) summarize
                (services.EntityRecognitionModelService uuid4 ner) v out)
      as [data Hdata]; [apply elem_of_cons; by left | exact Hout |].
    unfold conforms.
    by rewrite (model_validate_stable _ (schemas.EntityLinkingInputSchema uuid4) _ _
                  (stable_EntityRecognitionResultSchema uuid4)
                  (same_shape_LinkingInput uuid4 uuid4) Hdata). }
  destruct (linking_returns uuid4 wiki Y HconfY Hwiki) as [Z HZ].
  assert (conforms schemas.EntitySummarizationInputSchema Z = true) as HconfZ.
  { pose proof HZ as (v & out & _ & Hout & ->)%predict_Ok_inv.
    destruct (services_predict_validated uuid4 ner wiki (Ok tt) summarize
                (services.EntityLinkingModelService uuid4 wiki) v out)
      as [data Hdata];
      [apply elem_of_cons; right; apply elem_of_cons; by left | exact Hout |].
    unfold conforms.
    by rewrite (model_validate_stable _ schemas.EntitySummarizationInputSchema _ _
                  stable_EntityLinkingResultSchema same_shape_SummarizationInput Hdata). }
  destruct (summarization_returns (Ok tt) summarize Z HconfZ eq_refl Hsum) as [W HW].
  destruct (pipeline_run uuid4 ner wiki (Ok tt) summarize X Y Z W fuel HY HZ HW)
    as (c' & Hrun & H1 & H2 & H3).
  exists Y, Z, W, c'. eexists. by repeat split.
Qed.

(** The deployment on the example document. *)
Lemma pipeline_returns_for_every_document_witness :
  let c := example.wired example.catalogue in
  conforms (schemas.EntityRecognitionInputSchema example.uuid4) example.document = true
  ∧ ∃ Y Z W c' evs,
      predict (new_service example.recognition) example.document = Ok Y
      ∧ predict (new_service example.linking) Y = Ok Z
      ∧ predict (new_service example.summarization) Z = Ok W
      ∧ publish 3 "entity-recognition-trigger" example.document c = (Returns Y, c', evs)
      ∧ get_last_response "entity-recognition-trigger" c' = Y
      ∧ get_last_response "entity-linking-trigger" c' = Z
      ∧ get_last_response "entity-summarization-trigger" c' = W.
Proof.
  intros c.
  assert (conforms (schemas.EntityRecognitionInputSchema example.uuid4) example.document
          = true) as Hconf by (vm_compute; reflexivity).
  split; [exact Hconf |].
  apply (pipeline_returns_for_every_document example.uuid4 example.ner_pipeline
           example.wikipedia_page example.summarize_text example.document 0 Hconf).
  - intros text. eexists. reflexivity.
  - intros title options. unfold example.wikipedia_page.
    destruct (decide (title = "Seattle")); discriminate.
  - intros content. eexists. reflexivity.
Defined.
